(** * InvestWin analytics: a shallow embedding of the analytics core

    The repository's analytics code lives in the platform design document
    (Python: opportunity detectors, risk calculators, alert rules, cached
    endpoints) and in the React frontend ([App.tsx]).  This development
    embeds those functions and checks the specification's statements about
    them.

    Number model.  Python [float] and JavaScript [number] values are read as
    exact rationals ([Q]); comparisons and the four operations are the exact
    ones.  Rounding is therefore outside the model.  Division keeps the
    behaviour of the source language at a zero divisor: Python raises
    [ZeroDivisionError], JavaScript produces a non-finite number.  The sums
    of the frontend's portfolio statistics also keep the binary64 range: a
    sum that leaves it is an infinity. *)

From Stdlib Require Import QArith Qabs Qround ZArith String List Bool Lia Lqa.
From Stdlib Require Import Sorting.Sorted.
Import ListNotations.
Open Scope string_scope.
Open Scope list_scope.
Open Scope Q_scope.

(** ** Rational helpers *)

Definition Qltb (a b : Q) : bool := negb (Qle_bool b a).
Definition Qgtb (a b : Q) : bool := Qltb b a.
Definition Qleb (a b : Q) : bool := Qle_bool a b.

Lemma Qltb_lt (a b : Q) : Qltb a b = true <-> a < b.
Proof.
  unfold Qltb. rewrite negb_true_iff. split; intro H.
  - apply Qnot_le_lt. intro Hle. apply Qle_bool_iff in Hle. congruence.
  - destruct (Qle_bool b a) eqn:E; [|reflexivity].
    apply Qle_bool_iff in E. exfalso. apply (Qlt_not_le _ _ H E).
Qed.

Lemma Qltb_ge (a b : Q) : Qltb a b = false <-> b <= a.
Proof.
  unfold Qltb. rewrite negb_false_iff. apply Qle_bool_iff.
Qed.

Lemma Qgtb_gt (a b : Q) : Qgtb a b = true <-> b < a.
Proof. apply Qltb_lt. Qed.

Lemma Qgtb_le (a b : Q) : Qgtb a b = false <-> a <= b.
Proof. apply Qltb_ge. Qed.

Lemma Qleb_le (a b : Q) : Qleb a b = true <-> a <= b.
Proof. apply Qle_bool_iff. Qed.

Lemma Qleb_gt (a b : Q) : Qleb a b = false <-> b < a.
Proof.
  unfold Qleb. split; intro H.
  - apply Qnot_le_lt. intro Hle. apply Qle_bool_iff in Hle. congruence.
  - destruct (Qle_bool a b) eqn:E; [|reflexivity].
    apply Qle_bool_iff in E. exfalso. apply (Qlt_not_le _ _ H E).
Qed.

(** Sum of a list of rationals, and the arithmetic mean as the textbook
    definition (sum over count). *)
Fixpoint Qsum (l : list Q) : Q :=
  match l with
  | [] => 0
  | x :: r => x + Qsum r
  end.

Definition Qlen {A} (l : list A) : Q := inject_Z (Z.of_nat (length l)).

Definition arithmetic_mean (l : list Q) : Q := Qsum l / Qlen l.

Lemma Qlen_cons {A} (a : A) (l : list A) : Qlen (a :: l) == Qlen l + 1.
Proof.
  unfold Qlen. cbn [length]. rewrite Nat2Z.inj_succ. unfold Z.succ.
  rewrite inject_Z_plus. reflexivity.
Qed.

Lemma Qlen_nonneg {A} (l : list A) : 0 <= Qlen l.
Proof.
  unfold Qlen. change 0 with (inject_Z 0). rewrite <- Zle_Qle. lia.
Qed.

Lemma Qlen_pos {A} (l : list A) : l <> [] -> 0 < Qlen l.
Proof.
  destruct l as [|a l]; [congruence|]. intros _.
  rewrite Qlen_cons. pose proof (Qlen_nonneg l). lra.
Qed.

Lemma Qlen_map {A B} (f : A -> B) (l : list A) : Qlen (map f l) = Qlen l.
Proof. unfold Qlen. rewrite length_map. reflexivity. Qed.

Lemma fold_left_Qplus_acc {A} (f : A -> Q) (l : list A) (acc : Q) :
  fold_left (fun s a => s + f a) l acc == acc + Qsum (map f l).
Proof.
  revert acc. induction l as [|a l IH]; intro acc; cbn.
  - lra.
  - rewrite IH. lra.
Qed.

(** ** Frontend: [calculatePortfolioStats] (App.tsx) *)

Module Frontend.

(** A JavaScript number: finite, or one of the non-finite values that a
    zero divisor or a sum outside the binary64 range gives. *)
Inductive number : Type :=
| Num (q : Q)
| NaN
| PosInfinity
| NegInfinity.

Definition js_div (a b : Q) : number :=
  if Qeq_bool b 0 then
    if Qeq_bool a 0 then NaN
    else if Qltb 0 a then PosInfinity else NegInfinity
  else Num (a / b).

Definition is_finite (n : number) : bool :=
  match n with Num _ => true | _ => false end.

(** The binary64 range.  An exact result whose magnitude reaches
    [2^1024 - 2^970], the midpoint between [Number.MAX_VALUE] and [2^1024],
    is rounded to an infinity; below it the result stays finite, and is kept
    exact here since rounding is outside the model. *)
Definition overflow_threshold : Q := inject_Z (2 ^ 1024 - 2 ^ 970).

Definition to_number (q : Q) : number :=
  if Qleb overflow_threshold q then PosInfinity
  else if Qleb q (- overflow_threshold) then NegInfinity
  else Num q.

(** [a + b] for a finite [b]: a finite sum may leave the range, and a
    non-finite [a] absorbs [b]. *)
Definition js_add (a : number) (b : Q) : number :=
  match a with
  | Num x => to_number (x + b)
  | _ => a
  end.

(** [a / b] for a numerator that may already be non-finite. *)
Definition js_div_number (a : number) (b : Q) : number :=
  match a with
  | Num x => js_div x b
  | NaN => NaN
  | PosInfinity => if Qltb b 0 then NegInfinity else PosInfinity
  | NegInfinity => if Qltb b 0 then PosInfinity else NegInfinity
  end.

Record Asset : Type := mkAsset {
  symbol : string;
  name : string;
  sector : string;
  industry : string;
  current_price : Q;
  change : Q;
  change_percent : Q
}.

Record PortfolioStats : Type := mkStats {
  totalValue : number;
  totalChange : number;
  changePercent : number
}.

(** [Array.prototype.reduce] with an initial value. *)
Definition reduce {A B} (f : B -> A -> B) (init : B) (arr : list A) : B :=
  fold_left f arr init.

Definition calculatePortfolioStats (assets : list Asset) : PortfolioStats :=
  if Nat.eqb (length assets) 0 then
    {| totalValue := Num 0; totalChange := Num 0; changePercent := Num 0 |}
  else
    let totalValue :=
      reduce (fun sum asset => js_add sum (current_price asset)) (Num 0) assets in
    let totalChange :=
      reduce (fun sum asset => js_add sum (change asset)) (Num 0) assets in
    let avgChangePercent :=
      js_div_number
        (reduce (fun sum asset => js_add sum (change_percent asset)) (Num 0) assets)
        (Qlen assets) in
    {| totalValue := js_div_number totalValue (Qlen assets);
       totalChange := js_div_number totalChange (Qlen assets);
       changePercent := avgChangePercent |}.





Lemma js_div_nonzero (a b : Q) : ~ b == 0 -> js_div a b = Num (a / b).
Proof.
  intro Hb. unfold js_div.
  destruct (Qeq_bool b 0) eqn:E; [|reflexivity].
  apply Qeq_bool_eq in E. contradiction.
Qed.
















Definition two_assets : list Asset :=
  [ {| symbol := "AAPL"; name := "Apple Inc."; sector := "Technology";
       industry := "Consumer Electronics";
       current_price := 190; change := 2; change_percent := 1.06 |};
    {| symbol := "MSFT"; name := "Microsoft"; sector := "Technology";
       industry := "Software";
       current_price := 410; change := -4; change_percent := -0.96 |} ].




End Frontend.

(** ** Python values, exceptions and containers *)

Module Py.

Inductive exn : Type :=
| ZeroDivisionError
| IndexError
| ValueError
| KeyError.

(** A Python computation either returns a value or raises. *)
Inductive result (A : Type) : Type :=
| Ok (a : A)
| Raise (e : exn).
Arguments Ok {A} a.
Arguments Raise {A} e.

Definition bind {A B} (m : result A) (k : A -> result B) : result B :=
  match m with
  | Ok a => k a
  | Raise e => Raise e
  end.

Definition returns {A} (r : result A) : bool :=
  match r with Ok _ => true | Raise _ => false end.

(** True division [a / b] on Python numbers. *)
Definition div (a b : Q) : result Q :=
  if Qeq_bool b 0 then Raise ZeroDivisionError else Ok (a / b).

(** [l[-k]] for [k >= 1]: the k-th element from the end. *)
Definition index_neg {A} (l : list A) (k : nat) : result A :=
  match nth_error (rev l) (k - 1) with
  | Some x => Ok x
  | None => Raise IndexError
  end.

(** A [dict] with string keys.  Python dictionaries iterate in insertion
    order, and assigning to a key that is present keeps its place and
    replaces its value. *)
Definition dict (V : Type) : Type := list (string * V).

Fixpoint dict_get {V} (d : dict V) (k : string) : option V :=
  match d with
  | [] => None
  | (k', v) :: r => if String.eqb k' k then Some v else dict_get r k
  end.

Fixpoint dict_set {V} (d : dict V) (k : string) (v : V) : dict V :=
  match d with
  | [] => [(k, v)]
  | (k', v') :: r =>
      if String.eqb k' k then (k', v) :: r else (k', v') :: dict_set r k v
  end.

Definition dict_values {V} (d : dict V) : list V := map snd d.

(** [d[k]] *)
Definition subscript {V} (d : dict V) (k : string) : result V :=
  match dict_get d k with
  | Some v => Ok v
  | None => Raise KeyError
  end.

(** Builtin [max] over a sequence of numbers. *)
Definition Qmax (a b : Q) : Q := if Qltb a b then b else a.

Definition max (l : list Q) : result Q :=
  match l with
  | [] => Raise ValueError
  | x :: r => Ok (fold_left Qmax r x)
  end.

(** Values stored in the dictionaries the analytics functions return. *)
Inductive value : Type :=
| VStr (s : string)
| VNum (q : Q)
| VFormat (template : string) (arg : Q).
(** [VFormat] is an f-string with one formatted number, kept as its
    template and the number that fills it. *)

Lemma div_ok (a b : Q) : ~ b == 0 -> div a b = Ok (a / b).
Proof.
  intro H. unfold div. destruct (Qeq_bool b 0) eqn:E; [|reflexivity].
  apply Qeq_bool_eq in E. contradiction.
Qed.

Lemma div_zero (a b : Q) : b == 0 -> div a b = Raise ZeroDivisionError.
Proof.
  intro H. unfold div. rewrite (Qeq_eq_bool _ _ H). reflexivity.
Qed.

Lemma index_neg_last {A} (l : list A) (x : A) :
  index_neg (l ++ [x]) 1 = Ok x.
Proof. unfold index_neg. rewrite rev_app_distr. reflexivity. Qed.

Lemma index_neg_prev {A} (l : list A) (x y : A) :
  index_neg (l ++ [x; y]) 2 = Ok x.
Proof. unfold index_neg. rewrite rev_app_distr. reflexivity. Qed.

Lemma index_neg_last2 {A} (l : list A) (x y : A) :
  index_neg (l ++ [x; y]) 1 = Ok y.
Proof. unfold index_neg. rewrite rev_app_distr. reflexivity. Qed.

(** Every list with at least two elements ends in two elements. *)
Lemma two_sessions {A} (l : list A) :
  (2 <= List.length l)%nat -> exists init x y, l = init ++ [x; y].
Proof.
  intro H.
  destruct (rev l) as [|y [|x r]] eqn:E.
  - apply (f_equal (@List.length A)) in E. rewrite length_rev in E. cbn in E. lia.
  - apply (f_equal (@List.length A)) in E. rewrite length_rev in E. cbn in E. lia.
  - exists (rev r), x, y.
    rewrite <- (rev_involutive l), E. cbn. rewrite <- app_assoc. reflexivity.
Qed.

End Py.

Import Py.

Notation "x <- m ;; k" := (Py.bind m (fun x => k))
  (at level 61, m at next level, right associativity).

(** ** Opportunity detectors *)

Module OpportunityDetector.

(** One session of a price series ([stock_data] rows). *)
Record PricePoint : Type := mkPricePoint {
  date : string;
  open : Q;
  high : Q;
  low : Q;
  close : Q;
  volume : Q
}.

(** Result of [calculate_bollinger_bands]. *)
Record BollingerBands : Type := mkBands {
  upper_band : Q;
  middle_band : Q;
  lower_band : Q
}.

(** An opportunity is the dictionary literal the detector appends. *)
Definition opportunity : Type := dict value.

Definition opportunity_type (o : opportunity) : option value := dict_get o "type".

(** The detector returned normally and its list holds an opportunity of
    type [ty]. *)
Definition emits (ty : string) (r : result (list opportunity)) : Prop :=
  exists opps o, r = Ok opps /\ In o opps /\ opportunity_type o = Some (VStr ty).

Section Detectors.

(** Indicator helpers the design document calls but does not define. *)
Variable calculate_avg_volume : list PricePoint -> nat -> Q.
Variable calculate_rsi : list PricePoint -> nat -> Q.
Variable calculate_bollinger_bands : list PricePoint -> nat -> Q -> BollingerBands.
Variable calculate_potential_upside : list PricePoint -> Q.

Definition detect_oversold_overbought_opportunities
    (stock_data : list PricePoint) : result (list opportunity) :=
  let rsi := calculate_rsi stock_data 14 in
  let bollinger_bands := calculate_bollinger_bands stock_data 20 2 in
  let opportunities := [] in
  last <- index_neg stock_data 1 ;;
  let current_price := close last in
  if Qltb rsi 30 && Qleb current_price (lower_band bollinger_bands) then
    Ok (opportunities ++
        [[("type", VStr "oversold_bounce");
          ("rsi", VNum rsi);
          ("price_position", VStr "below_lower_band");
          ("potential_upside", VNum (calculate_potential_upside stock_data))]])
  else Ok opportunities.

Definition detect_volume_anomalies
    (stock_data : list PricePoint) : result (list opportunity) :=
  let opportunities := [] in
  let avg_volume_5d := calculate_avg_volume stock_data 5 in
  let avg_volume_20d := calculate_avg_volume stock_data 20 in
  last <- index_neg stock_data 1 ;;
  let current_volume := volume last in
  volume_ratio <- div current_volume avg_volume_20d ;;
  last' <- index_neg stock_data 1 ;;
  prev <- index_neg stock_data 2 ;;
  prev' <- index_neg stock_data 2 ;;
  price_change <- div (close last' - close prev) (close prev') ;;
  if Qgtb volume_ratio 3 && Qgtb price_change 0.05 then
    Ok (opportunities ++
        [[("type", VStr "volume_surge_up");
          ("volume_ratio", VNum volume_ratio);
          ("price_change", VNum price_change);
          ("strength", VStr (if Qgtb volume_ratio 5 then "strong" else "moderate"))]])
  else Ok opportunities.

(** *** Volume anomaly *)

(** The two ratios the detector compares with its thresholds. *)
Definition volume_ratio_of (stock_data : list PricePoint) (last : PricePoint) : Q :=
  volume last / calculate_avg_volume stock_data 20.

Definition same_day_return (prev last : PricePoint) : Q :=
  (close last - close prev) / close prev.

Definition surge_strength (ratio : Q) : string :=
  if Qgtb ratio 5 then "strong" else "moderate".

Definition volume_surge_up (ratio ret : Q) : opportunity :=
  [("type", VStr "volume_surge_up");
   ("volume_ratio", VNum ratio);
   ("price_change", VNum ret);
   ("strength", VStr (surge_strength ratio))].

(** What the detector does on a series that ends in sessions [prev], [last]. *)
Lemma detect_volume_anomalies_eval (init : list PricePoint) (prev last : PricePoint) :
  let stock_data := init ++ [prev; last] in
  let ratio := volume_ratio_of stock_data last in
  let ret := same_day_return prev last in
  detect_volume_anomalies stock_data =
    if Qeq_bool (calculate_avg_volume stock_data 20) 0 then Raise ZeroDivisionError
    else if Qeq_bool (close prev) 0 then Raise ZeroDivisionError
    else if Qgtb ratio 3 && Qgtb ret 0.05 then Ok [volume_surge_up ratio ret]
    else Ok [].
Proof.
  intros stock_data ratio ret. subst ratio ret stock_data.
  unfold detect_volume_anomalies, volume_ratio_of, same_day_return.
  rewrite !index_neg_last2, !index_neg_prev. cbn [bind].
  unfold div.
  destruct (Qeq_bool (calculate_avg_volume _ 20) 0); cbn [bind];
    [reflexivity|].
  destruct (Qeq_bool (close prev) 0); cbn [bind]; reflexivity.
Qed.

Lemma detect_volume_anomalies_short (stock_data : list PricePoint) :
  (List.length stock_data < 2)%nat ->
  returns (detect_volume_anomalies stock_data) = false.
Proof.
  intro H. unfold detect_volume_anomalies.
  destruct stock_data as [|a [|b r]]; cbn in H; try lia.
  - reflexivity.
  - cbn. destruct (div (volume a) (calculate_avg_volume [a] 20)); reflexivity.
Qed.

Lemma emits_nil (ty : string) : ~ emits ty (Ok []).
Proof.
  intros (opps & o & Heq & Hin & _). inversion Heq; subst. destruct Hin.
Qed.

Lemma emits_raise (ty : string) (e : exn) : ~ emits ty (Raise e).
Proof.
  intros (opps & o & Heq & _). discriminate.
Qed.

Lemma emits_singleton (ty : string) (o : opportunity) :
  emits ty (Ok [o]) <-> opportunity_type o = Some (VStr ty).
Proof.
  split.
  - intros (opps & o' & Heq & Hin & Hty). inversion Heq; subst.
    destruct Hin as [->|[]]. exact Hty.
  - intro H. exists [o], o. repeat split; [left; reflexivity | exact H].
Qed.

Lemma volume_surge_up_iff (init : list PricePoint) (prev last : PricePoint) :
  let stock_data := init ++ [prev; last] in
  let avg := calculate_avg_volume stock_data 20 in
  let ratio := volume last / avg in
  let ret := (close last - close prev) / close prev in
  emits "volume_surge_up" (detect_volume_anomalies stock_data) <->
  (~ avg == 0 /\ ~ close prev == 0 /\ 3 < ratio /\ 0.05 < ret).
Proof.
  intros stock_data avg ratio ret.
  unfold stock_data. rewrite detect_volume_anomalies_eval.
  fold stock_data. fold avg.
  change (volume_ratio_of stock_data last) with ratio.
  change (same_day_return prev last) with ret.
  destruct (Qeq_bool avg 0) eqn:Eavg.
  { apply Qeq_bool_eq in Eavg. split.
    - intro H. exfalso. exact (emits_raise _ _ H).
    - intros (H & _). contradiction. }
  apply Qeq_bool_neq in Eavg.
  destruct (Qeq_bool (close prev) 0) eqn:Eprev.
  { apply Qeq_bool_eq in Eprev. split.
    - intro H. exfalso. exact (emits_raise _ _ H).
    - intros (_ & H & _). contradiction. }
  apply Qeq_bool_neq in Eprev.
  destruct (Qgtb ratio 3) eqn:E3; cbn [andb].
  - apply Qgtb_gt in E3.
    destruct (Qgtb ret 0.05) eqn:E5.
    + apply Qgtb_gt in E5. split.
      * intros _. repeat split; assumption.
      * intros _. apply emits_singleton. reflexivity.
    + apply Qgtb_le in E5. split.
      * intro H. exfalso. exact (emits_nil _ H).
      * intros (_ & _ & _ & H). exfalso. apply (Qlt_not_le _ _ H E5).
  - apply Qgtb_le in E3. split.
    + intro H. exfalso. exact (emits_nil _ H).
    + intros (_ & _ & H & _). exfalso. apply (Qlt_not_le _ _ H E3).
Qed.

(** A quotient with a zero divisor is not above a positive threshold. *)
Lemma Qdiv_zero_not_above (x d t : Q) : d == 0 -> 0 <= t -> ~ t < x / d.
Proof.
  intros Hd Ht H. rewrite Hd in H.
  assert (E : x / 0 == 0) by (unfold Qdiv; cbn; ring).
  rewrite E in H. apply (Qlt_not_le _ _ H Ht).
Qed.

Lemma volume_surge_up_thresholds (init : list PricePoint) (prev last : PricePoint) :
  let stock_data := init ++ [prev; last] in
  let ratio := volume last / calculate_avg_volume stock_data 20 in
  let ret := (close last - close prev) / close prev in
  emits "volume_surge_up" (detect_volume_anomalies stock_data) <->
  (3 < ratio /\ 0.05 < ret).
Proof.
  cbv zeta. rewrite (volume_surge_up_iff init prev last). cbv zeta. split.
  - intros (_ & _ & H3 & H5). split; assumption.
  - intros (H3 & H5). repeat split; try assumption.
    + intro H0. revert H3. apply Qdiv_zero_not_above; [exact H0 | discriminate].
    + intro H0. revert H5. apply Qdiv_zero_not_above; [exact H0 | discriminate].
Qed.

Lemma volume_surge_strength (init : list PricePoint) (prev last : PricePoint) :
  let stock_data := init ++ [prev; last] in
  let ratio := volume last / calculate_avg_volume stock_data 20 in
  forall opps o,
    detect_volume_anomalies stock_data = Ok opps -> In o opps ->
    opportunity_type o = Some (VStr "volume_surge_up") /\
    (5 < ratio -> dict_get o "strength" = Some (VStr "strong")) /\
    (ratio <= 5 -> dict_get o "strength" = Some (VStr "moderate")).
Proof.
  intros stock_data ratio opps o. unfold stock_data.
  rewrite detect_volume_anomalies_eval. fold stock_data.
  change (volume_ratio_of stock_data last) with ratio.
  destruct (Qeq_bool _ 0); [discriminate|].
  destruct (Qeq_bool _ 0); [discriminate|].
  destruct (_ && _).
  - intros Heq Hin. inversion Heq; subst. destruct Hin as [<-|[]].
    split; [reflexivity|]. cbn. unfold surge_strength.
    split; intro H.
    + apply Qgtb_gt in H. rewrite H. reflexivity.
    + apply Qgtb_le in H. rewrite H. reflexivity.
  - intros Heq Hin. inversion Heq; subst. destruct Hin.
Qed.

(** The scenario of the specification: the last session trades [k] times the
    20-day average volume [V > 0] and closes 6% above the previous close. *)
Lemma volume_surge_scenario (init : list PricePoint) (prev last : PricePoint) (k : Q) :
  let stock_data := init ++ [prev; last] in
  let V := calculate_avg_volume stock_data 20 in
  0 < V -> volume last == k * V ->
  0 < close prev -> close last == 1.06 * close prev ->
  3 < k ->
  exists o,
    detect_volume_anomalies stock_data = Ok [o] /\
    opportunity_type o = Some (VStr "volume_surge_up") /\
    dict_get o "strength" = Some (VStr (if Qgtb k 5 then "strong" else "moderate")).
Proof.
  intros stock_data V HV Hvol Hprev Hclose Hk.
  unfold stock_data. rewrite detect_volume_anomalies_eval. fold stock_data. fold V.
  assert (Hr : volume_ratio_of stock_data last == k).
  { unfold volume_ratio_of. fold V. rewrite Hvol. field. lra. }
  assert (Hret : same_day_return prev last == 0.06).
  { unfold same_day_return. rewrite Hclose. field. lra. }
  destruct (Qeq_bool V 0) eqn:EV.
  { apply Qeq_bool_eq in EV. lra. }
  destruct (Qeq_bool (close prev) 0) eqn:EP.
  { apply Qeq_bool_eq in EP. lra. }
  assert (E3 : Qgtb (volume_ratio_of stock_data last) 3 = true).
  { apply Qgtb_gt. rewrite Hr. exact Hk. }
  assert (E5 : Qgtb (same_day_return prev last) 0.05 = true).
  { apply Qgtb_gt. rewrite Hret. reflexivity. }
  rewrite E3, E5. cbn [andb].
  eexists. split; [reflexivity|]. split; [reflexivity|].
  cbn. unfold surge_strength.
  assert (Qgtb (volume_ratio_of stock_data last) 5 = Qgtb k 5) as ->.
  { unfold Qgtb, Qltb. rewrite Hr. reflexivity. }
  reflexivity.
Qed.

(** C5: on every series with at least two sessions (a series ending in the
    sessions [prev], [last]; see [two_sessions]) the volume-anomaly detector
    emits [volume_surge_up] exactly when the ratio of the last volume to the
    20-day average volume is above 3 and the same-day return is above 5%
    (a ratio whose divisor is zero is above no threshold: the detector then
    returns nothing); the strength is "strong" when the ratio is above 5 and
    "moderate" otherwise; a last volume of 4 times the average with a +6%
    return gives "moderate", 6 times gives "strong". *)
Theorem volume_anomaly_surge_rule (init : list PricePoint) (prev last : PricePoint) :
  let stock_data := init ++ [prev; last] in
  let avg := calculate_avg_volume stock_data 20 in
  let ratio := volume last / avg in
  let ret := (close last - close prev) / close prev in
  (emits "volume_surge_up" (detect_volume_anomalies stock_data) <->
     (3 < ratio /\ 0.05 < ret)) /\
  (emits "volume_surge_up" (detect_volume_anomalies stock_data) <->
     (~ avg == 0 /\ ~ close prev == 0 /\ 3 < ratio /\ 0.05 < ret)) /\
  (forall opps o,
     detect_volume_anomalies stock_data = Ok opps -> In o opps ->
     opportunity_type o = Some (VStr "volume_surge_up") /\
     (5 < ratio -> dict_get o "strength" = Some (VStr "strong")) /\
     (ratio <= 5 -> dict_get o "strength" = Some (VStr "moderate"))) /\
  (0 < avg -> 0 < close prev -> close last == 1.06 * close prev ->
     (volume last == 4 * avg ->
        exists o, detect_volume_anomalies stock_data = Ok [o] /\
                  opportunity_type o = Some (VStr "volume_surge_up") /\
                  dict_get o "strength" = Some (VStr "moderate")) /\
     (volume last == 6 * avg ->
        exists o, detect_volume_anomalies stock_data = Ok [o] /\
                  opportunity_type o = Some (VStr "volume_surge_up") /\
                  dict_get o "strength" = Some (VStr "strong"))).
Proof.
  cbv zeta. split; [apply volume_surge_up_thresholds|].
  split; [apply volume_surge_up_iff|].
  split; [apply volume_surge_strength|].
  intros Havg Hprev Hclose. split; intro Hvol.
  - apply (volume_surge_scenario init prev last 4); try assumption. reflexivity.
  - apply (volume_surge_scenario init prev last 6); try assumption. reflexivity.
Qed.

(** *** Oversold / overbought *)

Definition oversold_bounce (stock_data : list PricePoint) : opportunity :=
  [("type", VStr "oversold_bounce");
   ("rsi", VNum (calculate_rsi stock_data 14));
   ("price_position", VStr "below_lower_band");
   ("potential_upside", VNum (calculate_potential_upside stock_data))].

Lemma detect_oversold_overbought_eval (init : list PricePoint) (last : PricePoint) :
  let stock_data := init ++ [last] in
  detect_oversold_overbought_opportunities stock_data =
    if Qltb (calculate_rsi stock_data 14) 30
       && Qleb (close last) (lower_band (calculate_bollinger_bands stock_data 20 2))
    then Ok [oversold_bounce stock_data] else Ok [].
Proof.
  intro stock_data. subst stock_data.
  unfold detect_oversold_overbought_opportunities.
  rewrite index_neg_last. cbn [bind]. reflexivity.
Qed.

Lemma oversold_bounce_iff (init : list PricePoint) (last : PricePoint) :
  let stock_data := init ++ [last] in
  emits "oversold_bounce" (detect_oversold_overbought_opportunities stock_data) <->
  (calculate_rsi stock_data 14 < 30 /\
   close last <= lower_band (calculate_bollinger_bands stock_data 20 2)).
Proof.
  intro stock_data. unfold stock_data.
  rewrite detect_oversold_overbought_eval. fold stock_data.
  destruct (Qltb _ 30) eqn:E1; cbn [andb].
  - apply Qltb_lt in E1.
    destruct (Qleb _ _) eqn:E2.
    + apply Qleb_le in E2. split; [intros _; split; assumption|].
      intros _. apply emits_singleton. reflexivity.
    + apply Qleb_gt in E2. split.
      * intro H. exfalso. exact (emits_nil _ H).
      * intros (_ & H). exfalso. apply (Qlt_not_le _ _ E2 H).
  - apply Qltb_ge in E1. split.
    + intro H. exfalso. exact (emits_nil _ H).
    + intros (H & _). exfalso. apply (Qlt_not_le _ _ H E1).
Qed.

Lemma overbought_pullback_never (stock_data : list PricePoint) :
  ~ emits "overbought_pullback" (detect_oversold_overbought_opportunities stock_data).
Proof.
  destruct (rev stock_data) as [|last r] eqn:E.
  - apply (f_equal (@rev PricePoint)) in E. rewrite rev_involutive in E.
    subst stock_data. cbn. apply emits_raise.
  - apply (f_equal (@rev PricePoint)) in E. rewrite rev_involutive in E.
    cbn in E. subst stock_data.
    rewrite detect_oversold_overbought_eval.
    destruct (_ && _).
    + rewrite emits_singleton. discriminate.
    + apply emits_nil.
Qed.

(** C7: the detector emits [oversold_bounce] exactly when RSI(14) < 30 and
    the latest close is at or below the lower band, but has no overbought
    branch: when RSI(14) > 70 and the latest close is at or above the upper
    band it returns the empty list, and it never emits
    [overbought_pullback]. *)
Theorem overbought_pullback_missing (init : list PricePoint) (last : PricePoint) :
  let stock_data := init ++ [last] in
  let rsi := calculate_rsi stock_data 14 in
  let bands := calculate_bollinger_bands stock_data 20 2 in
  (emits "oversold_bounce" (detect_oversold_overbought_opportunities stock_data) <->
     (rsi < 30 /\ close last <= lower_band bands)) /\
  (70 < rsi -> upper_band bands <= close last ->
     detect_oversold_overbought_opportunities stock_data = Ok []) /\
  (forall series,
     ~ emits "overbought_pullback" (detect_oversold_overbought_opportunities series)).
Proof.
  intros stock_data rsi bands.
  split; [apply oversold_bounce_iff|].
  split; [|intro series; apply overbought_pullback_never].
  intros Hrsi _.
  unfold stock_data. rewrite detect_oversold_overbought_eval. fold stock_data.
  assert (E : Qltb (calculate_rsi stock_data 14) 30 = false).
  { apply Qltb_ge. unfold rsi in Hrsi. lra. }
  rewrite E. reflexivity.
Qed.

End Detectors.

Section OptionDetector.

Variable OptionChain : Type.
Variable Stock : Type.
(** [underlying_stock] is a free name in the function body. *)
Variable underlying_stock : Stock.
Variable calculate_iv_skew : OptionChain -> Q.
Variable calculate_historical_volatility : Stock -> nat -> Q.
Variable calculate_average_iv : OptionChain -> Q.

Definition detect_option_volatility_opportunities
    (option_chain : OptionChain) : result (list opportunity) :=
  let opportunities := [] in
  let iv_skew := calculate_iv_skew option_chain in
  let historical_vol := calculate_historical_volatility underlying_stock 30 in
  let avg_iv := calculate_average_iv option_chain in
  if Qltb avg_iv (historical_vol * 0.8) then
    let strategy := if Qltb iv_skew 0 then "long_straddle" else "long_calendar" in
    iv_ratio <- div avg_iv historical_vol ;;
    Ok (opportunities ++
        [[("type", VStr "iv_undervalued");
          ("strategy", VStr strategy);
          ("iv_ratio", VNum iv_ratio)]])
  else Ok opportunities.

Lemma detect_option_volatility_eval (option_chain : OptionChain) :
  let historical_vol := calculate_historical_volatility underlying_stock 30 in
  let avg_iv := calculate_average_iv option_chain in
  detect_option_volatility_opportunities option_chain =
    if Qltb avg_iv (historical_vol * 0.8) then
      if Qeq_bool historical_vol 0 then Raise ZeroDivisionError
      else Ok [[("type", VStr "iv_undervalued");
                ("strategy", VStr (if Qltb (calculate_iv_skew option_chain) 0
                                   then "long_straddle" else "long_calendar"));
                ("iv_ratio", VNum (avg_iv / historical_vol))]]
    else Ok [].
Proof.
  cbv zeta. unfold detect_option_volatility_opportunities, div.
  destruct (Qltb _ _); [|reflexivity].
  destruct (Qeq_bool _ 0); reflexivity.
Qed.

Lemma iv_undervalued_iff (option_chain : OptionChain) :
  let historical_vol := calculate_historical_volatility underlying_stock 30 in
  let avg_iv := calculate_average_iv option_chain in
  emits "iv_undervalued" (detect_option_volatility_opportunities option_chain) <->
  (avg_iv < historical_vol * 0.8 /\ ~ historical_vol == 0).
Proof.
  cbv zeta. rewrite detect_option_volatility_eval.
  destruct (Qltb _ _) eqn:E1.
  - apply Qltb_lt in E1.
    destruct (Qeq_bool _ 0) eqn:E2.
    + apply Qeq_bool_eq in E2. split.
      * intro H. exfalso. exact (emits_raise _ _ H).
      * intros (_ & H). contradiction.
    + apply Qeq_bool_neq in E2. split; [intros _; split; assumption|].
      intros _. apply emits_singleton. reflexivity.
  - apply Qltb_ge in E1. split.
    + intro H. exfalso. exact (emits_nil _ H).
    + intros (H & _). exfalso. apply (Qlt_not_le _ _ H E1).
Qed.

Lemma iv_overvalued_never (option_chain : OptionChain) :
  ~ emits "iv_overvalued" (detect_option_volatility_opportunities option_chain).
Proof.
  rewrite detect_option_volatility_eval.
  destruct (Qltb _ _).
  - destruct (Qeq_bool _ 0).
    + apply emits_raise.
    + rewrite emits_singleton. discriminate.
  - apply emits_nil.
Qed.

(** C8: the detector emits [iv_undervalued] when the average implied
    volatility is below 0.8 times the 30-day historical volatility (and that
    volatility is not zero), but has the undervalued branch only: whenever
    the average implied volatility is not below 0.8 times the historical
    volatility (in particular when it exceeds it by any factor) the detector
    returns the empty list, and it never emits [iv_overvalued]. *)
Theorem iv_overvalued_missing (option_chain : OptionChain) :
  let historical_vol := calculate_historical_volatility underlying_stock 30 in
  let avg_iv := calculate_average_iv option_chain in
  (emits "iv_undervalued" (detect_option_volatility_opportunities option_chain) <->
     (avg_iv < historical_vol * 0.8 /\ ~ historical_vol == 0)) /\
  (0 < historical_vol -> historical_vol * 0.8 <= avg_iv ->
     detect_option_volatility_opportunities option_chain = Ok []) /\
  (forall chain,
     ~ emits "iv_overvalued" (detect_option_volatility_opportunities chain)).
Proof.
  cbv zeta.
  split; [apply iv_undervalued_iff|].
  split; [|intro chain; apply iv_overvalued_never].
  intros _ H.
  rewrite detect_option_volatility_eval.
  assert (E : Qltb (calculate_average_iv option_chain)
                (calculate_historical_volatility underlying_stock 30 * 0.8) = false).
  { apply Qltb_ge. exact H. }
  rewrite E. reflexivity.
Qed.

End OptionDetector.

(** *** Sample data *)

(** A concrete reading of the helper: the mean volume of the [n] sessions
    before the latest one. *)
Definition trailing_avg_volume (stock_data : list PricePoint) (n : nat) : Q :=
  arithmetic_mean (map volume (firstn n (tl (rev stock_data)))).

Definition session (c v : Q) : PricePoint :=
  {| date := ""; open := c; high := c; low := c; close := c; volume := v |}.

(** 25 sessions: 24 quiet ones, then 4 times the volume and a 6% gain. *)
Definition quiet_sessions : list PricePoint := repeat (session 100 1000) 23.

Definition surge_series : list PricePoint :=
  quiet_sessions ++ [session 100 1000; session 106 4000].

Lemma volume_anomaly_surge_rule_witness :
  List.length surge_series = 25%nat /\
  trailing_avg_volume surge_series 20 == 1000 /\
  exists o,
    detect_volume_anomalies trailing_avg_volume surge_series = Ok [o] /\
    opportunity_type o = Some (VStr "volume_surge_up") /\
    dict_get o "strength" = Some (VStr "moderate").
Proof.
  split; [reflexivity|]. split; [vm_compute; reflexivity|].
  apply (volume_anomaly_surge_rule trailing_avg_volume quiet_sessions
           (session 100 1000) (session 106 4000));
    vm_compute; reflexivity.
Defined.

Definition constant_rsi (r : Q) (_ : list PricePoint) (_ : nat) : Q := r.

Definition constant_bands (lo hi : Q) (_ : list PricePoint) (_ : nat) (_ : Q)
  : BollingerBands :=
  {| upper_band := hi; middle_band := (lo + hi) / 2; lower_band := lo |}.

Definition no_upside (_ : list PricePoint) : Q := 0.

(** A series whose RSI(14) reads 80 and whose latest close 110 is above the
    upper band 105. *)
Lemma overbought_pullback_missing_witness :
  70 < 80 /\ 105 <= close (session 110 1000) /\
  detect_oversold_overbought_opportunities
    (constant_rsi 80) (constant_bands 95 105) no_upside
    (quiet_sessions ++ [session 110 1000]) = Ok [].
Proof.
  split; [reflexivity|]. split; [vm_compute; discriminate|].
  apply (overbought_pullback_missing (constant_rsi 80) (constant_bands 95 105)
           no_upside quiet_sessions (session 110 1000)).
  - reflexivity.
  - vm_compute; discriminate.
Defined.

(** An option chain with average implied volatility 0.9 on an underlying
    whose 30-day historical volatility is 0.3. *)
Lemma iv_overvalued_missing_witness :
  0 < 0.3 /\ 0.3 * 0.8 <= 0.9 /\
  detect_option_volatility_opportunities unit unit tt
    (fun _ => 0) (fun _ _ => 0.3) (fun _ => 0.9) tt = Ok [].
Proof.
  split; [reflexivity|]. split; [vm_compute; discriminate|].
  apply (iv_overvalued_missing unit unit tt (fun _ => 0) (fun _ _ => 0.3)
           (fun _ => 0.9) tt).
  - reflexivity.
  - vm_compute; discriminate.
Defined.

End OpportunityDetector.

(** ** Risk engine *)

Module Risk.

(** *** [numpy.percentile] (default linear interpolation) *)

Fixpoint insert_sorted (x : Q) (l : list Q) : list Q :=
  match l with
  | [] => [x]
  | y :: r => if Qle_bool x y then x :: y :: r else y :: insert_sorted x r
  end.

Fixpoint sort (l : list Q) : list Q :=
  match l with
  | [] => []
  | x :: r => insert_sorted x (sort r)
  end.

(** Value at the fractional position [idx] of the ascending list [s]:
    the element at [floor idx] plus the fractional part of the way to the
    next element. *)
Definition interpolate (s : list Q) (idx : Q) : Q :=
  let lo := Z.to_nat (Qfloor idx) in
  let hi := Nat.min (lo + 1) (List.length s - 1) in
  let gamma := idx - inject_Z (Qfloor idx) in
  nth lo s 0 + gamma * (nth hi s 0 - nth lo s 0).

(** [np.percentile(a, q)]: [q] outside [0, 100] is a [ValueError]; an empty
    array has no percentile. *)
Definition percentile (a : list Q) (q : Q) : result Q :=
  if Qltb q 0 || Qgtb q 100 then Raise ValueError
  else
    match a with
    | [] => Raise IndexError
    | _ :: _ => Ok (interpolate (sort a) (q / 100 * (Qlen a - 1)))
    end.

(** Builtin [sum]: starts from 0 and adds from the left. *)
Definition py_sum (l : list Q) : Q := fold_left Qplus l 0.

(** *** [IndividualStockRisk] *)

(** Arguments of the f-string stored under 'interpretation':
    holding period, confidence in percent, absolute VaR. *)
Record Interpretation : Type := mkInterpretation {
  days : Q;
  confidence_percent : Q;
  max_loss : Q
}.

Record VaR : Type := mkVaR {
  var_95 : Q;
  var_99 : Q;
  interpretation : Interpretation
}.

Section IndividualStockRisk.

(** The price table and the helper that turns it into daily returns are
    not defined in the design document. *)
Variable PriceData : Type.
Variable calculate_daily_returns : PriceData -> list Q.

Definition calculate_var (price_data : PriceData)
    (confidence_level : Q) (holding_period : Q) : result VaR :=
  let returns := calculate_daily_returns price_data in
  let var_percentile := (1 - confidence_level) * 100 in
  p <- percentile returns var_percentile ;;
  let var_value := p * holding_period in
  p1 <- percentile returns 1 ;;
  Ok {| var_95 := var_value;
        var_99 := p1 * holding_period;
        interpretation :=
          {| days := holding_period;
             confidence_percent := confidence_level * 100;
             max_loss := Qabs var_value |} |}.

(** Default arguments [confidence_level=0.95], [holding_period=1]. *)
Definition default_confidence_level : Q := 0.95.
Definition default_holding_period : Q := 1.

End IndividualStockRisk.

(** *** [PortfolioRiskManager] *)

Record Position : Type := mkPosition {
  symbol : string;
  quantity : Q;
  market_value : Q
}.

Record ConcentrationRisk : Type := mkConcentrationRisk {
  concentration_risk : string;
  herfindahl_index : Q;
  top_position_weight : Q;
  diversification_score : Q
}.

(** The [for pos in portfolio_positions] loop filling [stock_concentration]. *)
Fixpoint concentration_loop (positions : list Position) (total_value : Q)
    (stock_concentration : dict Q) : result (dict Q) :=
  match positions with
  | [] => Ok stock_concentration
  | pos :: rest =>
      weight <- div (market_value pos) total_value ;;
      concentration_loop rest total_value
        (dict_set stock_concentration (symbol pos) weight)
  end.

Definition calculate_concentration_risk (portfolio_positions : list Position)
  : result ConcentrationRisk :=
  let total_value := py_sum (map market_value portfolio_positions) in
  stock_concentration <- concentration_loop portfolio_positions total_value [] ;;
  let hhi := py_sum (map (fun weight => weight ^ 2) (dict_values stock_concentration)) in
  let risk :=
    if Qgtb hhi 0.25 then "high" else if Qgtb hhi 0.15 then "medium" else "low" in
  top <- max (dict_values stock_concentration) ;;
  Ok {| concentration_risk := risk;
        herfindahl_index := hhi;
        top_position_weight := top;
        diversification_score := 1 - hhi |}.

(** *** Sorting and interpolation facts *)

Lemma insert_sorted_In (x y : Q) (l : list Q) :
  In y (insert_sorted x l) <-> y = x \/ In y l.
Proof.
  induction l as [|z l IH]; cbn.
  - intuition.
  - destruct (Qle_bool x z); cbn; [intuition|]. rewrite IH. intuition.
Qed.

Lemma insert_sorted_length (x : Q) (l : list Q) :
  List.length (insert_sorted x l) = S (List.length l).
Proof.
  induction l as [|z l IH]; cbn; [reflexivity|].
  destruct (Qle_bool x z); cbn; [reflexivity|]. rewrite IH. reflexivity.
Qed.

Lemma sort_length (l : list Q) : List.length (sort l) = List.length l.
Proof.
  induction l as [|x l IH]; cbn; [reflexivity|].
  rewrite insert_sorted_length, IH. reflexivity.
Qed.

Lemma insert_sorted_sorted (x : Q) (l : list Q) :
  StronglySorted Qle l -> StronglySorted Qle (insert_sorted x l).
Proof.
  induction 1 as [|z l Hs IH Hall]; cbn.
  - constructor; constructor.
  - destruct (Qle_bool x z) eqn:E.
    + apply Qle_bool_iff in E. constructor.
      * constructor; assumption.
      * constructor; [exact E|].
        eapply Forall_impl; [|exact Hall]. intros w Hw. cbn in Hw.
        apply (Qle_trans _ z); assumption.
    + assert (Hzx : z <= x).
      { apply Qlt_le_weak. apply Qleb_gt. exact E. }
      constructor; [exact IH|].
      apply Forall_forall. intros w Hw. apply insert_sorted_In in Hw.
      destruct Hw as [->|Hw]; [exact Hzx|].
      rewrite Forall_forall in Hall. apply Hall. exact Hw.
Qed.

Lemma sort_sorted (l : list Q) : StronglySorted Qle (sort l).
Proof.
  induction l as [|x l IH]; cbn; [constructor|].
  apply insert_sorted_sorted. exact IH.
Qed.

Lemma sorted_nth (s : list Q) :
  StronglySorted Qle s ->
  forall i j, (i <= j)%nat -> (j < List.length s)%nat -> nth i s 0 <= nth j s 0.
Proof.
  induction 1 as [|z l Hs IH Hall]; intros i j Hij Hj; cbn in Hj; [lia|].
  destruct i as [|i], j as [|j]; cbn [nth]; try lia.
  - apply Qle_refl.
  - rewrite Forall_forall in Hall. apply Hall. apply nth_In. lia.
  - apply IH; lia.
Qed.

Lemma Qfloor_nonneg (t : Q) : 0 <= t -> (0 <= Qfloor t)%Z.
Proof.
  intro H. change 0%Z with (Qfloor 0). apply Qfloor_resp_le. exact H.
Qed.

Section Interpolation.

Variable s : list Q.
Hypothesis s_sorted : StronglySorted Qle s.

(** A position inside the list: [0 <= t <= len(s) - 1]. *)
Definition in_range (t : Q) : Prop := 0 <= t /\ t <= Qlen s - 1.

Lemma floor_index (t : Q) :
  in_range t -> (Z.to_nat (Qfloor t) <= List.length s - 1)%nat /\ (0 < List.length s)%nat.
Proof.
  intros [H0 H1].
  assert (Hn : (1 <= Z.of_nat (List.length s))%Z).
  { assert (H : 0 <= Qlen s - 1) by lra.
    unfold Qlen in H.
    assert (H' : inject_Z 1 <= inject_Z (Z.of_nat (List.length s))).
    { change (inject_Z 1) with 1. lra. }
    rewrite <- Zle_Qle in H'. exact H'. }
  split; [|lia].
  assert (Hf : (Qfloor t <= Z.of_nat (List.length s) - 1)%Z).
  { rewrite <- (Qfloor_Z (Z.of_nat (List.length s) - 1)).
    apply Qfloor_resp_le. unfold Qlen in H1.
    unfold Z.sub. rewrite inject_Z_plus, inject_Z_opp.
    change (inject_Z 1) with 1. lra. }
  pose proof (Qfloor_nonneg t H0). lia.
Qed.

Lemma interpolate_bounds (t : Q) :
  in_range t ->
  let lo := Z.to_nat (Qfloor t) in
  let hi := Nat.min (lo + 1) (List.length s - 1) in
  nth lo s 0 <= interpolate s t /\ interpolate s t <= nth hi s 0.
Proof.
  intros Ht lo hi. destruct (floor_index t Ht) as [Hlo Hpos].
  fold lo in Hlo.
  assert (Hab : nth lo s 0 <= nth hi s 0).
  { apply sorted_nth; [exact s_sorted | unfold hi; lia | unfold hi; lia]. }
  pose proof (Qfloor_le t) as Hg0. pose proof (Qlt_floor t) as Hg1.
  rewrite inject_Z_plus in Hg1. change (inject_Z 1) with 1 in Hg1.
  unfold interpolate. fold lo. fold hi.
  set (a := nth lo s 0) in *. set (b := nth hi s 0) in *.
  set (g := t - inject_Z (Qfloor t)).
  assert (Hg : 0 <= g /\ g <= 1) by (unfold g; lra).
  split; nra.
Qed.

Lemma interpolate_mono (t1 t2 : Q) :
  in_range t1 -> in_range t2 -> t1 <= t2 ->
  interpolate s t1 <= interpolate s t2.
Proof.
  intros H1 H2 Hle.
  destruct (floor_index t1 H1) as [Hk1 Hpos].
  destruct (floor_index t2 H2) as [Hk2 _].
  pose proof (Qfloor_resp_le _ _ Hle) as Hfl.
  pose proof (Qfloor_nonneg t1 (proj1 H1)) as Hf1.
  pose proof (Qfloor_nonneg t2 (proj1 H2)) as Hf2.
  destruct (Z.eq_dec (Qfloor t1) (Qfloor t2)) as [Heq|Hne].
  - unfold interpolate. rewrite <- Heq.
    set (lo := Z.to_nat (Qfloor t1)) in *.
    set (hi := Nat.min (lo + 1) (List.length s - 1)).
    assert (Hab : nth lo s 0 <= nth hi s 0).
    { apply sorted_nth; [exact s_sorted | unfold hi; lia | unfold hi; lia]. }
    set (a := nth lo s 0) in *. set (b := nth hi s 0) in *.
    nra.
  - destruct (interpolate_bounds t1 H1) as [_ Hup].
    destruct (interpolate_bounds t2 H2) as [Hlow _].
    cbv zeta in Hup, Hlow.
    eapply Qle_trans; [exact Hup|]. eapply Qle_trans; [|exact Hlow].
    apply sorted_nth; [exact s_sorted | lia | lia].
Qed.

End Interpolation.

Lemma percentile_defined (a : list Q) (q : Q) :
  a <> [] -> 0 <= q -> q <= 100 ->
  percentile a q = Ok (interpolate (sort a) (q / 100 * (Qlen a - 1))).
Proof.
  intros Ha H0 H100. unfold percentile.
  assert (E1 : Qltb q 0 = false) by (apply Qltb_ge; exact H0).
  assert (E2 : Qgtb q 100 = false) by (apply Qgtb_le; exact H100).
  rewrite E1, E2. destruct a; [congruence | reflexivity].
Qed.

Lemma percentile_index_in_range (a : list Q) (q : Q) :
  a <> [] -> 0 <= q -> q <= 100 ->
  in_range (sort a) (q / 100 * (Qlen a - 1)).
Proof.
  intros Ha H0 H100. unfold in_range.
  assert (Hs : Qlen (sort a) == Qlen a).
  { unfold Qlen. rewrite sort_length. reflexivity. }
  rewrite Hs.
  assert (Hn : 0 <= Qlen a - 1).
  { destruct a as [|x a]; [congruence|]. rewrite Qlen_cons.
    pose proof (Qlen_nonneg a). lra. }
  set (n := Qlen a - 1) in *.
  assert (Hq : q / 100 * n == q * n / 100) by (field).
  rewrite Hq. split.
  - apply Qle_shift_div_l; [reflexivity|]. nra.
  - apply Qle_shift_div_r; [reflexivity|]. nra.
Qed.

(** The percentile is non-decreasing in the requested rank. *)
Lemma percentile_mono (a : list Q) (q1 q2 : Q) :
  a <> [] -> 0 <= q1 -> q1 <= q2 -> q2 <= 100 ->
  exists p1 p2,
    percentile a q1 = Ok p1 /\ percentile a q2 = Ok p2 /\ p1 <= p2.
Proof.
  intros Ha H0 H12 H100.
  rewrite (percentile_defined a q1), (percentile_defined a q2); try lra; try assumption.
  eexists. eexists. split; [reflexivity|]. split; [reflexivity|].
  apply interpolate_mono.
  - apply sort_sorted.
  - apply percentile_index_in_range; try assumption; lra.
  - apply percentile_index_in_range; try assumption; lra.
  - assert (Hn : 0 <= Qlen a - 1).
    { destruct a as [|x a]; [congruence|]. rewrite Qlen_cons.
      pose proof (Qlen_nonneg a). lra. }
    set (n := Qlen a - 1) in *.
    assert (Hq1 : q1 / 100 * n == q1 * n / 100) by field.
    assert (Hq2 : q2 / 100 * n == q2 * n / 100) by field.
    rewrite Hq1, Hq2. unfold Qdiv.
    apply Qmult_le_compat_r; [nra | discriminate].
Qed.

Lemma interpolate_comp (s : list Q) (t t' : Q) :
  t == t' -> interpolate s t == interpolate s t'.
Proof.
  intro H. unfold interpolate. rewrite (Qfloor_comp _ _ H).
  rewrite H. reflexivity.
Qed.

(** Equal ranks give equal percentiles. *)
Lemma percentile_comp (a : list Q) (q q' p : Q) :
  q == q' -> percentile a q = Ok p ->
  exists p', percentile a q' = Ok p' /\ p == p'.
Proof.
  intros Hq. unfold percentile.
  assert (E1 : Qltb q' 0 = Qltb q 0).
  { unfold Qltb. rewrite Hq. reflexivity. }
  assert (E2 : Qgtb q' 100 = Qgtb q 100).
  { unfold Qgtb, Qltb. rewrite Hq. reflexivity. }
  rewrite E1, E2.
  destruct (Qltb q 0 || Qgtb q 100); [discriminate|].
  destruct a as [|x a]; [discriminate|].
  intro H. inversion H; subst. eexists. split; [reflexivity|].
  apply interpolate_comp. rewrite Hq. reflexivity.
Qed.

(** *** Value at risk *)

(** [s] is the square root of [h]. *)
Definition is_sqrt (s h : Q) : Prop := 0 <= s /\ s * s == h.

Section VaRProperties.

Variable PriceData : Type.
Variable calculate_daily_returns : PriceData -> list Q.

Let var := calculate_var PriceData calculate_daily_returns.

Lemma calculate_var_eval (price_data : PriceData) (c h p p1 : Q) :
  percentile (calculate_daily_returns price_data) ((1 - c) * 100) = Ok p ->
  percentile (calculate_daily_returns price_data) 1 = Ok p1 ->
  var price_data c h =
    Ok {| var_95 := p * h;
          var_99 := p1 * h;
          interpretation :=
            {| days := h; confidence_percent := c * 100; max_loss := Qabs (p * h) |} |}.
Proof.
  intros Hp Hp1. unfold var, calculate_var. rewrite Hp. cbn [bind].
  rewrite Hp1. reflexivity.
Qed.

Lemma var_95_linear (price_data : PriceData) (c h : Q) :
  calculate_daily_returns price_data <> [] -> 0 <= c -> c <= 1 ->
  exists p r,
    percentile (calculate_daily_returns price_data) ((1 - c) * 100) = Ok p /\
    var price_data c h = Ok r /\
    var_95 r = p * h.
Proof.
  intros Hne H0 H1.
  destruct (percentile_mono (calculate_daily_returns price_data) 0 ((1 - c) * 100))
    as (_ & p & _ & Hp & _); try assumption; try lra.
  destruct (percentile_mono (calculate_daily_returns price_data) 0 1)
    as (_ & p1 & _ & Hp1 & _); try assumption; try lra.
  exists p. eexists. split; [exact Hp|].
  split; [apply (calculate_var_eval _ _ _ _ _ Hp Hp1)|]. reflexivity.
Qed.

(** C1 (amended): [calculate_var] multiplies the (1-c)*100th empirical
    percentile of the returns by the holding period itself, not by its
    square root.  For a one-day horizon the VaR is the percentile, so a
    series whose 5th percentile is -0.032 has a 1-day VaR_95 of -0.032; its
    5-day VaR_95 is -0.032 * 5 = -0.16. *)
Theorem var_scales_with_holding_period (price_data : PriceData) (c h : Q) :
  let returns := calculate_daily_returns price_data in
  returns <> [] -> 0 <= c -> c <= 1 ->
  (exists p r,
     percentile returns ((1 - c) * 100) = Ok p /\
     var price_data c h = Ok r /\
     var_95 r == p * h /\
     (h == 1 -> var_95 r == p)) /\
  (forall p5,
     percentile returns 5 = Ok p5 -> p5 == -0.032 ->
     exists r1 r5,
       var price_data default_confidence_level default_holding_period = Ok r1 /\
       var_95 r1 == -0.032 /\
       var price_data default_confidence_level 5 = Ok r5 /\
       var_95 r5 == -0.16).
Proof.
  intros returns Hne H0 H1. split.
  - destruct (var_95_linear price_data c h Hne H0 H1) as (p & r & Hp & Hr & Hv).
    exists p, r. repeat split; try assumption.
    + rewrite Hv. reflexivity.
    + intro Hh. rewrite Hv, Hh. ring.
  - intros p5 Hp5 Hval.
    assert (Hq : 5 == (1 - default_confidence_level) * 100) by reflexivity.
    destruct (percentile_comp _ _ _ _ Hq Hp5) as (p & Hp & Hpp).
    destruct (percentile_mono returns 0 1) as (_ & p1 & _ & Hp1 & _);
      try assumption; try lra.
    exists {| var_95 := p * default_holding_period;
              var_99 := p1 * default_holding_period;
              interpretation :=
                {| days := default_holding_period;
                   confidence_percent := default_confidence_level * 100;
                   max_loss := Qabs (p * default_holding_period) |} |}.
    exists {| var_95 := p * 5;
              var_99 := p1 * 5;
              interpretation :=
                {| days := 5;
                   confidence_percent := default_confidence_level * 100;
                   max_loss := Qabs (p * 5) |} |}.
    split; [apply (calculate_var_eval _ _ _ _ _ Hp Hp1)|].
    split; [cbn [var_95]; rewrite <- Hpp, Hval; reflexivity|].
    split; [apply (calculate_var_eval _ _ _ _ _ Hp Hp1)|].
    cbn [var_95]. rewrite <- Hpp, Hval. reflexivity.
Qed.

(** C2 (amended): for a confidence level of at most 0.99 (the default 0.95
    included) the reported [var_99] is at most [var_95] for a non-negative
    holding period, and |var_99| >= |var_95| whenever the (1-c)*100th
    percentile return is a loss (not positive). *)
Theorem var_99_dominates_on_losses (price_data : PriceData) (c h : Q) :
  let returns := calculate_daily_returns price_data in
  returns <> [] -> 0 <= c -> c <= 0.99 ->
  exists p r,
    percentile returns ((1 - c) * 100) = Ok p /\
    var price_data c h = Ok r /\
    (0 <= h -> var_99 r <= var_95 r) /\
    (p <= 0 -> Qabs (var_95 r) <= Qabs (var_99 r)).
Proof.
  intros returns Hne H0 H1.
  destruct (percentile_mono returns 1 ((1 - c) * 100))
    as (p1 & p & Hp1 & Hp & Hle); try assumption; try lra.
  exists p. eexists. split; [exact Hp|].
  split; [apply (calculate_var_eval _ _ _ _ _ Hp Hp1)|].
  cbn [var_95 var_99]. split.
  - intro Hh. nra.
  - intro Hneg. rewrite !Qabs_Qmult.
    apply Qmult_le_compat_r; [|apply Qabs_nonneg].
    rewrite (Qabs_neg p) by exact Hneg.
    rewrite (Qabs_neg p1) by lra. lra.
Qed.

End VaRProperties.

(** *** Sample return series *)

(** The return series is handed over as it is. *)
Definition given_returns (r : list Q) : list Q := r.

(** 21 daily returns whose 5th percentile is the second smallest, -0.032. *)
Definition sample_returns : list Q := [-0.05; -0.032] ++ repeat 0.01 19.

Lemma var_scales_with_holding_period_witness :
  exists p5,
    percentile sample_returns 5 = Ok p5 /\ p5 == -0.032 /\
    exists r1 r5,
      calculate_var (list Q) given_returns sample_returns 0.95 1 = Ok r1 /\
      var_95 r1 == -0.032 /\
      calculate_var (list Q) given_returns sample_returns 0.95 5 = Ok r5 /\
      var_95 r5 == -0.16.
Proof.
  eexists. split; [vm_compute; reflexivity|]. split; [reflexivity|].
  eapply (var_scales_with_holding_period (list Q) given_returns sample_returns 0.95 1).
  - vm_compute; congruence.
  - vm_compute; congruence.
  - vm_compute; congruence.
  - vm_compute; reflexivity.
  - reflexivity.
Defined.

(** C1 as stated fails: with a holding period of 4 days (square root 2) the
    reported value is 4 times the percentile, not twice; and the 5-day value
    -0.16 is not -0.032 * sqrt 5, whose square would be 0.032^2 * 5. *)
Lemma var_sqrt_scaling_counterexample :
  is_sqrt 2 4 /\
  exists p r4 r5,
    percentile sample_returns ((1 - 0.95) * 100) = Ok p /\ p == -0.032 /\
    calculate_var (list Q) given_returns sample_returns 0.95 4 = Ok r4 /\
    ~ var_95 r4 == p * 2 /\
    calculate_var (list Q) given_returns sample_returns 0.95 5 = Ok r5 /\
    ~ var_95 r5 * var_95 r5 == (0.032 * 0.032) * 5.
Proof.
  split; [split; [discriminate | reflexivity]|].
  eexists. eexists. eexists.
  split; [vm_compute; reflexivity|].
  split; [reflexivity|].
  split; [vm_compute; reflexivity|].
  split; [cbn [var_95]; vm_compute; discriminate|].
  split; [vm_compute; reflexivity|].
  cbn [var_95]. vm_compute. discriminate.
Qed.

Lemma var_99_dominates_on_losses_witness :
  exists p r,
    percentile sample_returns ((1 - 0.95) * 100) = Ok p /\
    calculate_var (list Q) given_returns sample_returns 0.95 1 = Ok r /\
    p <= 0 /\ Qabs (var_95 r) <= Qabs (var_99 r).
Proof.
  destruct (var_99_dominates_on_losses (list Q) given_returns sample_returns 0.95 1)
    as (p & r & Hp & Hr & _ & Habs);
    try (vm_compute; congruence).
  exists p, r. split; [exact Hp|]. split; [exact Hr|].
  assert (Hneg : p <= 0).
  { vm_compute in Hp. inversion Hp; subst. vm_compute. discriminate. }
  split; [exact Hneg | exact (Habs Hneg)].
Defined.

(** C2 as stated fails on a series of gains: the 1st percentile is the
    smaller gain, so |var_99| < |var_95|. *)
Lemma var_99_dominance_counterexample :
  exists r,
    calculate_var (list Q) given_returns [0.01; 0.02] 0.95 1 = Ok r /\
    ~ Qabs (var_95 r) <= Qabs (var_99 r).
Proof.
  eexists. split; [vm_compute; reflexivity|].
  cbn [var_95 var_99]. vm_compute. intro H. apply H. reflexivity.
Qed.

(** *** Concentration *)

Lemma py_sum_Qsum (l : list Q) : py_sum l == Qsum l.
Proof.
  unfold py_sum.
  assert (H : forall acc, fold_left Qplus l acc == acc + Qsum l).
  { induction l as [|x l IH]; intro acc; cbn; [lra|]. rewrite IH. lra. }
  rewrite H. lra.
Qed.

Lemma sq_mult (x : Q) : x ^ 2 == x * x.
Proof. reflexivity. Qed.

Lemma Qsum_nonneg (l : list Q) : (forall x, In x l -> 0 <= x) -> 0 <= Qsum l.
Proof.
  induction l as [|x l IH]; intro H; cbn; [lra|].
  assert (0 <= x) by (apply H; left; reflexivity).
  assert (0 <= Qsum l) by (apply IH; intros y Hy; apply H; right; exact Hy).
  lra.
Qed.

Lemma Qsum_map_div {A} (f : A -> Q) (l : list A) (t : Q) :
  Qsum (map (fun a => f a / t) l) == Qsum (map f l) / t.
Proof.
  induction l as [|a l IH]; cbn.
  - unfold Qdiv. ring.
  - rewrite IH. unfold Qdiv. ring.
Qed.

Lemma Qsum_map_const {A} (f : A -> Q) (l : list A) (c : Q) :
  (forall a, In a l -> f a == c) -> Qsum (map f l) == Qlen l * c.
Proof.
  induction l as [|a l IH]; intro H.
  - cbn. unfold Qlen. cbn. ring.
  - cbn [map Qsum]. rewrite Qlen_cons, IH, (H a).
    + ring.
    + left; reflexivity.
    + intros b Hb. apply H. right. exact Hb.
Qed.

(** For non-negative numbers the sum of squares is at most the square of
    the sum. *)
Lemma Qsum_squares_le (l : list Q) :
  (forall x, In x l -> 0 <= x) ->
  0 <= Qsum (map (fun w => w ^ 2) l) /\
  Qsum (map (fun w => w ^ 2) l) <= Qsum l * Qsum l.
Proof.
  induction l as [|x l IH]; intro H; cbn [map Qsum].
  - split; lra.
  - assert (Hx : 0 <= x) by (apply H; left; reflexivity).
    assert (Hl : forall y, In y l -> 0 <= y) by (intros y Hy; apply H; right; exact Hy).
    destruct (IH Hl) as [I0 I1]. pose proof (Qsum_nonneg l Hl) as Hs.
    rewrite sq_mult. split; nra.
Qed.

(** Dictionary facts. *)
Lemma dict_set_fresh {V} (d : dict V) (k : string) (v : V) :
  dict_get d k = None -> dict_set d k v = d ++ [(k, v)].
Proof.
  induction d as [|[k' v'] d IH]; cbn; [reflexivity|].
  destruct (String.eqb k' k); [discriminate|].
  intro H. rewrite IH by exact H. reflexivity.
Qed.

Lemma dict_set_values_In {V} (d : dict V) (k : string) (v w : V) :
  In w (dict_values (dict_set d k v)) -> w = v \/ In w (dict_values d).
Proof.
  unfold dict_values. induction d as [|[k' v'] d IH]; cbn.
  - intuition.
  - destruct (String.eqb k' k); cbn; [intuition|].
    intros [H|H]; [intuition|]. destruct (IH H); intuition.
Qed.

Lemma dict_set_sum (d : dict Q) (k : string) (v : Q) :
  (forall w, In w (dict_values d) -> 0 <= w) ->
  Qsum (dict_values (dict_set d k v)) <= Qsum (dict_values d) + v.
Proof.
  unfold dict_values. induction d as [|[k' v'] d IH]; intro H; cbn.
  - lra.
  - destruct (String.eqb k' k); cbn.
    + assert (0 <= v') by (apply H; left; reflexivity). lra.
    + assert (Hd : forall w, In w (map snd d) -> 0 <= w).
      { intros w Hw. apply H. right. exact Hw. }
      specialize (IH Hd). lra.
Qed.

Lemma dict_set_nonempty {V} (d : dict V) (k : string) (v : V) :
  dict_set d k v <> [].
Proof.
  destruct d as [|[k' v'] d]; cbn; [discriminate|].
  destruct (String.eqb k' k); discriminate.
Qed.

Lemma dict_get_app_fresh {V} (d : dict V) (k k' : string) (v : V) :
  dict_get d k' = None -> k <> k' -> dict_get (d ++ [(k, v)]) k' = None.
Proof.
  induction d as [|[k0 v0] d IH]; cbn.
  - intros _ Hne. destruct (String.eqb_spec k k'); [contradiction | reflexivity].
  - destruct (String.eqb k0 k'); [discriminate|]. exact IH.
Qed.

(** The weights the loop stores: market value over total. *)
Definition weight_of (total_value : Q) (pos : Position) : Q :=
  market_value pos / total_value.

Definition store_weight (total_value : Q) (d : dict Q) (pos : Position) : dict Q :=
  dict_set d (symbol pos) (weight_of total_value pos).

Lemma concentration_loop_ok (positions : list Position) (total : Q) (d : dict Q) :
  ~ total == 0 ->
  concentration_loop positions total d = Ok (fold_left (store_weight total) positions d).
Proof.
  intro Ht. revert d. induction positions as [|pos rest IH]; intro d; cbn.
  - reflexivity.
  - rewrite (div_ok _ _ Ht). cbn [bind]. apply IH.
Qed.

Lemma concentration_loop_zero (pos : Position) (rest : list Position) (total : Q)
    (d : dict Q) :
  total == 0 -> concentration_loop (pos :: rest) total d = Raise ZeroDivisionError.
Proof.
  intro Ht. cbn. rewrite (div_zero _ _ Ht). reflexivity.
Qed.

Lemma stored_nonempty (positions : list Position) (total : Q) (d : dict Q) :
  positions <> [] \/ d <> [] -> fold_left (store_weight total) positions d <> [].
Proof.
  revert d. induction positions as [|pos rest IH]; intros d H; cbn.
  - destruct H; congruence.
  - apply IH. right. apply dict_set_nonempty.
Qed.

Lemma stored_values (positions : list Position) (total : Q) (d : dict Q) (w : Q) :
  In w (dict_values (fold_left (store_weight total) positions d)) ->
  In w (dict_values d) \/ exists pos, In pos positions /\ w = weight_of total pos.
Proof.
  revert d. induction positions as [|pos rest IH]; intros d H; cbn in H.
  - left. exact H.
  - destruct (IH _ H) as [Hd|(q & Hq & ->)].
    + apply dict_set_values_In in Hd. destruct Hd as [->|Hd].
      * right. exists pos. split; [left; reflexivity | reflexivity].
      * left. exact Hd.
    + right. exists q. split; [right; exact Hq | reflexivity].
Qed.

Lemma stored_sum (positions : list Position) (total : Q) (d : dict Q) :
  (forall w, In w (dict_values d) -> 0 <= w) ->
  (forall pos, In pos positions -> 0 <= weight_of total pos) ->
  Qsum (dict_values (fold_left (store_weight total) positions d)) <=
  Qsum (dict_values d) + Qsum (map (weight_of total) positions).
Proof.
  revert d. induction positions as [|pos rest IH]; intros d Hd Hp; cbn [fold_left map Qsum].
  - lra.
  - assert (Hw : 0 <= weight_of total pos) by (apply Hp; left; reflexivity).
    assert (Hd' : forall w, In w (dict_values (store_weight total d pos)) -> 0 <= w).
    { intros w Hin. apply dict_set_values_In in Hin.
      destruct Hin as [->|Hin]; [exact Hw | apply Hd; exact Hin]. }
    assert (Hp' : forall q, In q rest -> 0 <= weight_of total q).
    { intros q Hq. apply Hp. right. exact Hq. }
    specialize (IH _ Hd' Hp').
    pose proof (dict_set_sum d (symbol pos) (weight_of total pos) Hd) as Hs.
    eapply Qle_trans; [exact IH|].
    unfold store_weight. lra.
Qed.

(** With pairwise distinct symbols every position keeps its own entry. *)
Lemma stored_distinct (positions : list Position) (total : Q) (d : dict Q) :
  NoDup (map symbol positions) ->
  (forall pos, In pos positions -> dict_get d (symbol pos) = None) ->
  fold_left (store_weight total) positions d =
  d ++ map (fun pos => (symbol pos, weight_of total pos)) positions.
Proof.
  revert d. induction positions as [|pos rest IH]; intros d Hnd Hfresh; cbn [fold_left map].
  - rewrite app_nil_r. reflexivity.
  - inversion Hnd as [|? ? Hnotin Hnd']; subst.
    unfold store_weight at 2.
    rewrite dict_set_fresh by (apply Hfresh; left; reflexivity).
    rewrite IH.
    + rewrite <- app_assoc. reflexivity.
    + exact Hnd'.
    + intros q Hq. apply dict_get_app_fresh.
      * apply Hfresh. right. exact Hq.
      * intro Heq. apply Hnotin. rewrite Heq. apply in_map. exact Hq.
Qed.

Lemma Qsum_map_ext {A} (f g : A -> Q) (l : list A) :
  (forall a, In a l -> f a == g a) -> Qsum (map f l) == Qsum (map g l).
Proof.
  induction l as [|a l IH]; intro H; cbn; [reflexivity|].
  rewrite (H a) by (left; reflexivity).
  rewrite IH; [reflexivity|]. intros b Hb. apply H. right. exact Hb.
Qed.

Lemma Qsum_pos (l : list Q) :
  l <> [] -> (forall x, In x l -> 0 < x) -> 0 < Qsum l.
Proof.
  destruct l as [|x l]; [congruence|]. intros _ H. cbn.
  assert (0 < x) by (apply H; left; reflexivity).
  assert (0 <= Qsum l).
  { apply Qsum_nonneg. intros y Hy. apply Qlt_le_weak. apply H. right. exact Hy. }
  lra.
Qed.

Definition portfolio_total (positions : list Position) : Q :=
  py_sum (map market_value positions).

Definition stored_weights (positions : list Position) : dict Q :=
  fold_left (store_weight (portfolio_total positions)) positions [].

Definition hhi_of (positions : list Position) : Q :=
  py_sum (map (fun weight => weight ^ 2) (dict_values (stored_weights positions))).

Definition bucket (hhi : Q) : string :=
  if Qgtb hhi 0.25 then "high" else if Qgtb hhi 0.15 then "medium" else "low".

Lemma calculate_concentration_risk_ok (positions : list Position) :
  positions <> [] -> ~ portfolio_total positions == 0 ->
  exists top,
    calculate_concentration_risk positions =
      Ok {| concentration_risk := bucket (hhi_of positions);
            herfindahl_index := hhi_of positions;
            top_position_weight := top;
            diversification_score := 1 - hhi_of positions |}.
Proof.
  intros Hne Ht. unfold calculate_concentration_risk.
  fold (portfolio_total positions).
  rewrite (concentration_loop_ok _ _ _ Ht). cbn [bind].
  fold (stored_weights positions).
  pose proof (stored_nonempty positions (portfolio_total positions) [] (or_introl Hne)) as Hs.
  fold (stored_weights positions) in Hs.
  destruct (stored_weights positions) as [|[k v] d] eqn:E; [congruence|].
  cbn [dict_values map max bind].
  eexists. unfold hhi_of, bucket. rewrite E. reflexivity.
Qed.

Lemma calculate_concentration_risk_zero_total (positions : list Position) :
  positions <> [] -> portfolio_total positions == 0 ->
  calculate_concentration_risk positions = Raise ZeroDivisionError.
Proof.
  intros Hne Ht. unfold calculate_concentration_risk.
  fold (portfolio_total positions).
  destruct positions as [|pos rest]; [congruence|].
  rewrite (concentration_loop_zero _ _ _ _ Ht). reflexivity.
Qed.

Lemma bucket_cases (hhi : Q) :
  (bucket hhi = "high" <-> 0.25 < hhi) /\
  (bucket hhi = "medium" <-> 0.15 < hhi /\ hhi <= 0.25) /\
  (bucket hhi = "low" <-> hhi <= 0.15).
Proof.
  unfold bucket.
  destruct (Qgtb hhi 0.25) eqn:E1; [apply Qgtb_gt in E1 | apply Qgtb_le in E1].
  - split; [split; [intros _; exact E1 | reflexivity]|].
    split; (split; [discriminate | intro H; exfalso; lra]).
  - destruct (Qgtb hhi 0.15) eqn:E2; [apply Qgtb_gt in E2 | apply Qgtb_le in E2].
    + split; [split; [discriminate | intro H; exfalso; lra]|].
      split; [split; [intros _; split; assumption | reflexivity]|].
      split; [discriminate | intro H; exfalso; lra].
    + split; [split; [discriminate | intro H; exfalso; lra]|].
      split; [split; [discriminate | intro H; exfalso; lra]|].
      split; [intros _; exact E2 | reflexivity].
Qed.

Section PositivePortfolio.

Variable positions : list Position.
Hypothesis nonempty : positions <> [].
Hypothesis positive : forall pos, In pos positions -> 0 < market_value pos.

Let total : Q := Qsum (map market_value positions).

Lemma total_positive : 0 < total.
Proof.
  unfold total. apply Qsum_pos.
  - destruct positions; [congruence | discriminate].
  - intros x Hx. apply in_map_iff in Hx. destruct Hx as (pos & <- & Hpos).
    apply positive. exact Hpos.
Qed.

Lemma portfolio_total_eq : portfolio_total positions == total.
Proof. unfold portfolio_total. apply py_sum_Qsum. Qed.

Lemma weight_positive (pos : Position) :
  In pos positions -> 0 < weight_of (portfolio_total positions) pos.
Proof.
  intro H. unfold weight_of. rewrite portfolio_total_eq.
  apply Qlt_shift_div_l; [apply total_positive|].
  pose proof (positive pos H). lra.
Qed.

Lemma weights_sum_to_one :
  Qsum (map (weight_of (portfolio_total positions)) positions) == 1.
Proof.
  unfold weight_of. rewrite Qsum_map_div, portfolio_total_eq. fold total.
  field. pose proof total_positive. lra.
Qed.

Lemma stored_weights_nonneg (w : Q) :
  In w (dict_values (stored_weights positions)) -> 0 <= w.
Proof.
  intro H. apply stored_values in H. destruct H as [[]|(pos & Hpos & ->)].
  apply Qlt_le_weak. apply weight_positive. exact Hpos.
Qed.

Lemma hhi_bounds : 0 <= hhi_of positions /\ hhi_of positions <= 1.
Proof.
  unfold hhi_of. rewrite py_sum_Qsum.
  destruct (Qsum_squares_le _ stored_weights_nonneg) as [H0 H1].
  split; [exact H0|].
  pose proof (Qsum_nonneg _ stored_weights_nonneg) as Hs0.
  assert (Hs1 : Qsum (dict_values (stored_weights positions)) <= 1).
  { pose proof (stored_sum positions (portfolio_total positions) []) as H.
    cbn [dict_values map Qsum] in H. rewrite weights_sum_to_one in H.
    unfold stored_weights.
    assert (Hle : Qsum (dict_values
                    (fold_left (store_weight (portfolio_total positions)) positions []))
                  <= 0 + 1).
    { apply H.
      - intros w [].
      - intros pos Hpos. apply Qlt_le_weak. apply weight_positive. exact Hpos. }
    lra. }
  nra.
Qed.

Lemma hhi_distinct_symbols :
  NoDup (map symbol positions) ->
  hhi_of positions ==
  Qsum (map (fun pos => (market_value pos / total) ^ 2) positions).
Proof.
  intro Hnd. unfold hhi_of, stored_weights. rewrite py_sum_Qsum.
  rewrite stored_distinct; [|exact Hnd | intros; reflexivity].
  cbn [app]. unfold dict_values. rewrite !map_map. cbn [snd].
  apply Qsum_map_ext. intros pos _. unfold weight_of.
  rewrite portfolio_total_eq. reflexivity.
Qed.

Lemma hhi_equal_weights :
  NoDup (map symbol positions) ->
  (forall p q, In p positions -> In q positions -> market_value p == market_value q) ->
  hhi_of positions == 1 / Qlen positions.
Proof.
  intros Hnd Heq. rewrite (hhi_distinct_symbols Hnd).
  assert (Hex : exists p0, In p0 positions).
  { clear - nonempty. destruct positions as [|p0 rest]; [congruence|].
    exists p0. left. reflexivity. }
  destruct Hex as (p0 & Hp0).
  set (m := market_value p0).
  assert (Hm : 0 < m) by (apply positive; exact Hp0).
  assert (HN : 0 < Qlen positions) by (apply Qlen_pos; exact nonempty).
  assert (Htot : total == Qlen positions * m).
  { unfold total. apply Qsum_map_const. intros a Ha. apply Heq; assumption. }
  rewrite (Qsum_map_const _ _ ((1 / Qlen positions) * (1 / Qlen positions))).
  - field. lra.
  - intros a Ha. rewrite sq_mult, Htot, (Heq a p0 Ha Hp0). fold m.
    field. split; lra.
Qed.

End PositivePortfolio.

(** C3 (amended): for a non-empty portfolio whose positions have positive
    market values, [calculate_concentration_risk] returns a Herfindahl index
    in [0, 1]; the bucket is "high" iff HHI > 0.25, "medium" iff
    0.15 < HHI <= 0.25 and "low" otherwise; the diversification score is
    1 - HHI; and when the positions carry pairwise distinct symbols the index
    is the sum of the squared weights, which is 1/N for N equal positions. *)
Theorem concentration_risk_spec (positions : list Position) :
  positions <> [] ->
  (forall pos, In pos positions -> 0 < market_value pos) ->
  let total := Qsum (map market_value positions) in
  exists r,
    calculate_concentration_risk positions = Ok r /\
    0 <= herfindahl_index r /\ herfindahl_index r <= 1 /\
    (concentration_risk r = "high" <-> 0.25 < herfindahl_index r) /\
    (concentration_risk r = "medium" <->
       0.15 < herfindahl_index r /\ herfindahl_index r <= 0.25) /\
    (concentration_risk r = "low" <-> herfindahl_index r <= 0.15) /\
    diversification_score r == 1 - herfindahl_index r /\
    (NoDup (map symbol positions) ->
       herfindahl_index r ==
         Qsum (map (fun pos => (market_value pos / total) ^ 2) positions) /\
       ((forall p q, In p positions -> In q positions ->
                     market_value p == market_value q) ->
        herfindahl_index r == 1 / Qlen positions)).
Proof.
  intros Hne Hpos total.
  assert (Ht : ~ portfolio_total positions == 0).
  { rewrite (portfolio_total_eq positions).
    pose proof (total_positive positions Hne Hpos). lra. }
  destruct (calculate_concentration_risk_ok positions Hne Ht) as (top & Hr).
  eexists. split; [exact Hr|].
  cbn [herfindahl_index concentration_risk diversification_score].
  destruct (hhi_bounds positions Hne Hpos) as [H0 H1].
  destruct (bucket_cases (hhi_of positions)) as (Bh & Bm & Bl).
  repeat (split; [assumption || reflexivity|]).
  intro Hnd. split.
  - apply hhi_distinct_symbols; assumption.
  - intro Heq. apply hhi_equal_weights; assumption.
Qed.

(** Four equal positions of 25,000 in a portfolio of 100,000. *)
Definition four_equal_positions : list Position :=
  [ {| symbol := "AAPL"; quantity := 100; market_value := 25000 |};
    {| symbol := "MSFT"; quantity := 100; market_value := 25000 |};
    {| symbol := "GOOG"; quantity := 100; market_value := 25000 |};
    {| symbol := "AMZN"; quantity := 100; market_value := 25000 |} ].

Lemma concentration_risk_spec_witness :
  exists r,
    calculate_concentration_risk four_equal_positions = Ok r /\
    herfindahl_index r == 0.25 /\
    concentration_risk r = "medium" /\
    diversification_score r == 0.75.
Proof.
  destruct (concentration_risk_spec four_equal_positions)
    as (r & Hr & _ & _ & _ & Hmed & _ & Hdiv & Hdistinct).
  - discriminate.
  - intros pos Hin. cbn in Hin.
    destruct Hin as [<-|[<-|[<-|[<-|[]]]]]; reflexivity.
  - assert (Hnd : NoDup (map symbol four_equal_positions)).
    { cbn. repeat constructor; cbn; intuition discriminate. }
    destruct (Hdistinct Hnd) as (_ & Hequal).
    assert (Hhhi : herfindahl_index r == 0.25).
    { rewrite Hequal; [reflexivity|].
      intros p q Hp Hq. cbn in Hp, Hq.
      destruct Hp as [<-|[<-|[<-|[<-|[]]]]];
        destruct Hq as [<-|[<-|[<-|[<-|[]]]]]; reflexivity. }
    exists r. split; [exact Hr|]. split; [exact Hhhi|].
    split; [apply Hmed; rewrite Hhhi; split; [reflexivity | discriminate]|].
    rewrite Hdiv, Hhhi. reflexivity.
Defined.

(** Two equal lots of the same stock. *)
Definition two_lots : list Position :=
  [ {| symbol := "AAPL"; quantity := 10; market_value := 50 |};
    {| symbol := "AAPL"; quantity := 10; market_value := 50 |} ].

(** C3 as stated fails on the empty portfolio, where [max] of no weights
    raises, and when two positions carry the same symbol: the second weight
    overwrites the first, so two equal positions give an index of 1/4
    instead of 1/2 (the sum of their squared weights). *)
Lemma concentration_duplicate_symbol_counterexample :
  calculate_concentration_risk [] = Raise ValueError /\
  (forall pos, In pos two_lots -> 0 < market_value pos) /\
  exists r,
    calculate_concentration_risk two_lots = Ok r /\
    herfindahl_index r == 0.25 /\
    ~ herfindahl_index r == 1 / Qlen two_lots /\
    ~ herfindahl_index r ==
        Qsum (map (fun pos => (market_value pos / 100) ^ 2) two_lots).
Proof.
  split; [reflexivity|]. split.
  - intros pos Hin. cbn in Hin. destruct Hin as [<-|[<-|[]]]; reflexivity.
  - eexists. split; [vm_compute; reflexivity|].
    cbn [herfindahl_index].
    split; [reflexivity|]. split; vm_compute; discriminate.
Qed.

End Risk.

(** ** Degenerate denominators *)

Module Denominators.

Import OpportunityDetector Risk.

Section VolumeDetector.

Variable calculate_avg_volume : list PricePoint -> nat -> Q.

Let detect := detect_volume_anomalies calculate_avg_volume.

Lemma zero_avg_volume_raises (stock_data : list PricePoint) :
  stock_data <> [] ->
  calculate_avg_volume stock_data 20 == 0 ->
  detect stock_data = Raise ZeroDivisionError.
Proof.
  intros Hne Havg. unfold detect, detect_volume_anomalies.
  destruct (rev stock_data) as [|last r] eqn:E.
  - apply (f_equal (@rev PricePoint)) in E. rewrite rev_involutive in E.
    contradiction.
  - unfold index_neg at 1. rewrite E. cbn [Nat.sub nth_error bind].
    rewrite (div_zero _ _ Havg). reflexivity.
Qed.

Lemma volume_detector_returns_iff (init : list PricePoint) (prev last : PricePoint) :
  let stock_data := init ++ [prev; last] in
  returns (detect stock_data) = true <->
  (~ calculate_avg_volume stock_data 20 == 0 /\ ~ close prev == 0).
Proof.
  intro stock_data. unfold detect, stock_data.
  rewrite detect_volume_anomalies_eval.
  destruct (Qeq_bool (calculate_avg_volume _ 20) 0) eqn:E1.
  { apply Qeq_bool_eq in E1. cbn. split; [discriminate | tauto]. }
  apply Qeq_bool_neq in E1.
  destruct (Qeq_bool (close prev) 0) eqn:E2.
  { apply Qeq_bool_eq in E2. cbn. split; [discriminate | tauto]. }
  apply Qeq_bool_neq in E2.
  destruct (_ && _); cbn; tauto.
Qed.

End VolumeDetector.

Lemma concentration_returns_iff (positions : list Position) :
  positions <> [] ->
  (returns (calculate_concentration_risk positions) = true <->
   ~ portfolio_total positions == 0).
Proof.
  intro Hne.
  destruct (Qeq_bool (portfolio_total positions) 0) eqn:E.
  - apply Qeq_bool_eq in E.
    rewrite (calculate_concentration_risk_zero_total positions Hne E).
    cbn. split; [discriminate | tauto].
  - apply Qeq_bool_neq in E.
    destruct (calculate_concentration_risk_ok positions Hne E) as (top & ->).
    cbn. tauto.
Qed.

(** C4 (amended): the detectors carry no guard.  With a zero 20-day average
    volume the volume-anomaly detector raises [ZeroDivisionError], and with a
    zero total portfolio value the concentration calculation raises
    [ZeroDivisionError]; each returns a result exactly when none of its
    denominators is zero. *)
Theorem zero_denominators_raise
    (calculate_avg_volume : list PricePoint -> nat -> Q) :
  (forall stock_data,
     stock_data <> [] -> calculate_avg_volume stock_data 20%nat == 0 ->
     detect_volume_anomalies calculate_avg_volume stock_data
       = Raise ZeroDivisionError) /\
  (forall init prev last,
     returns (detect_volume_anomalies calculate_avg_volume (init ++ [prev; last]))
       = true <->
     (~ calculate_avg_volume (init ++ [prev; last]) 20%nat == 0 /\ ~ close prev == 0)) /\
  (forall positions,
     positions <> [] -> py_sum (map market_value positions) == 0 ->
     calculate_concentration_risk positions = Raise ZeroDivisionError) /\
  (forall positions,
     positions <> [] ->
     (returns (calculate_concentration_risk positions) = true <->
      ~ py_sum (map market_value positions) == 0)).
Proof.
  split; [apply zero_avg_volume_raises|].
  split; [apply volume_detector_returns_iff|].
  split; [apply calculate_concentration_risk_zero_total|].
  apply concentration_returns_iff.
Qed.

(** A halted stock: 25 sessions without any volume. *)
Definition halted_series : list PricePoint := repeat (session 100 0) 25.

(** A position that has lost all of its value. *)
Definition worthless_portfolio : list Position :=
  [ {| symbol := "XYZ"; quantity := 100; market_value := 0 |} ].

Lemma zero_denominators_raise_witness :
  detect_volume_anomalies trailing_avg_volume halted_series
    = Raise ZeroDivisionError /\
  calculate_concentration_risk worthless_portfolio = Raise ZeroDivisionError.
Proof.
  destruct (zero_denominators_raise trailing_avg_volume) as (Hvol & _ & Hconc & _).
  split.
  - apply Hvol; [discriminate | vm_compute; reflexivity].
  - apply Hconc; [discriminate | vm_compute; reflexivity].
Defined.

(** C4 as stated fails: on a zero average volume and on a zero portfolio
    value the exception escapes; no result is returned. *)
Lemma unguarded_denominator_counterexample :
  trailing_avg_volume halted_series 20 == 0 /\
  returns (detect_volume_anomalies trailing_avg_volume halted_series) = false /\
  py_sum (map market_value worthless_portfolio) == 0 /\
  returns (calculate_concentration_risk worthless_portfolio) = false.
Proof.
  repeat split; vm_compute; reflexivity.
Qed.

End Denominators.

(** ** Alert engine *)

Module Alerts.

Record AlertRule : Type := mkAlertRule {
  threshold : Q;
  timeframe : option string;
  baseline_window : option nat;
  priority : string
}.

Definition load_default_rules : dict AlertRule :=
  [ ("price_drop_alert",
     {| threshold := -0.15; timeframe := Some "daily";
        baseline_window := None; priority := "high" |});
    ("volatility_spike",
     {| threshold := 3.0; timeframe := None;
        baseline_window := Some 20%nat; priority := "medium" |});
    ("volume_anomaly",
     {| threshold := 5.0; timeframe := None;
        baseline_window := None; priority := "medium" |});
    ("correlation_increase",
     {| threshold := 0.8; timeframe := None;
        baseline_window := None; priority := "low" |}) ].

Record RiskAlertSystem : Type := mkRiskAlertSystem {
  alert_rules : dict AlertRule
}.

(** [__init__] *)
Definition init : RiskAlertSystem := {| alert_rules := load_default_rules |}.

Definition alert : Type := dict value.

(** The evaluation returned normally and its list holds an alert of type
    [ty] with severity [sev]. *)
Definition alert_emitted (ty sev : string) (r : result (list alert)) : Prop :=
  exists alerts a,
    r = Ok alerts /\ In a alerts /\
    dict_get a "type" = Some (VStr ty) /\
    dict_get a "severity" = Some (VStr sev).

Section RiskAlertSystem.

Variable AssetData : Type.
Variable PortfolioData : Type.
(** Methods of the class that the design document leaves undefined. *)
Variable calculate_price_change : AssetData -> Q.
Variable calculate_current_volatility : AssetData -> Q.
Variable calculate_average_volatility : AssetData -> nat -> Q.

Definition price_drop_alert (price_change : Q) : alert :=
  [("type", VStr "price_drop");
   ("severity", VStr "high");
   ("message", VFormat "资产价格下跌 {:.2%}" (Qabs price_change));
   ("suggestion", VStr "考虑减仓或设置止损")].

Definition volatility_spike_alert (ratio : Q) : alert :=
  [("type", VStr "volatility_spike");
   ("severity", VStr "medium");
   ("message", VFormat "波动率激增至正常水平的 {:.1f} 倍" ratio);
   ("suggestion", VStr "注意仓位控制，考虑对冲策略")].

Definition check_risk_alerts (self : RiskAlertSystem)
    (asset_data : AssetData) (portfolio_data : PortfolioData)
  : result (list alert) :=
  let alerts := [] in
  let price_change := calculate_price_change asset_data in
  drop_rule <- subscript (alert_rules self) "price_drop_alert" ;;
  let alerts :=
    if Qleb price_change (threshold drop_rule)
    then alerts ++ [price_drop_alert price_change]
    else alerts in
  let current_vol := calculate_current_volatility asset_data in
  let avg_vol := calculate_average_volatility asset_data 20 in
  spike_rule <- subscript (alert_rules self) "volatility_spike" ;;
  if Qgtb current_vol (avg_vol * threshold spike_rule) then
    ratio <- div current_vol avg_vol ;;
    Ok (alerts ++ [volatility_spike_alert ratio])
  else Ok alerts.

(** Evaluation under the default rules. *)
Lemma check_risk_alerts_default (asset_data : AssetData) (portfolio_data : PortfolioData) :
  let price_change := calculate_price_change asset_data in
  let current_vol := calculate_current_volatility asset_data in
  let avg_vol := calculate_average_volatility asset_data 20 in
  check_risk_alerts init asset_data portfolio_data =
    let drop := if Qleb price_change (-0.15)
                then [price_drop_alert price_change] else [] in
    if Qgtb current_vol (avg_vol * 3.0) then
      if Qeq_bool avg_vol 0 then Raise ZeroDivisionError
      else Ok (drop ++ [volatility_spike_alert (current_vol / avg_vol)])
    else Ok drop.
Proof.
  cbv zeta. unfold check_risk_alerts. cbn [init alert_rules].
  unfold subscript. cbn [load_default_rules dict_get String.eqb Ascii.eqb Bool.eqb].
  cbn [bind threshold app].
  destruct (Qgtb _ _); [|reflexivity].
  unfold div. destruct (Qeq_bool _ 0); reflexivity.
Qed.

Lemma alert_emitted_raise (ty sev : string) (e : exn) :
  ~ alert_emitted ty sev (Raise e).
Proof. intros (alerts & a & H & _). discriminate. Qed.

Lemma alert_emitted_ok (ty sev : string) (alerts : list alert) :
  alert_emitted ty sev (Ok alerts) <->
  exists a, In a alerts /\ dict_get a "type" = Some (VStr ty) /\
            dict_get a "severity" = Some (VStr sev).
Proof.
  split.
  - intros (alerts' & a & H & Hin & Hty & Hsev). inversion H; subst.
    exists a. repeat split; assumption.
  - intros (a & Hin & Hty & Hsev). exists alerts, a. repeat split; assumption.
Qed.

Lemma price_drop_in (alerts : list alert) (ratio : Q) (sev : string) :
  (exists a, In a alerts /\ dict_get a "type" = Some (VStr "price_drop") /\
             dict_get a "severity" = Some (VStr sev)) <->
  (exists a, In a (alerts ++ [volatility_spike_alert ratio]) /\
             dict_get a "type" = Some (VStr "price_drop") /\
             dict_get a "severity" = Some (VStr sev)).
Proof.
  split; intros (a & Hin & Hty & Hsev).
  - exists a. split; [apply in_or_app; left; exact Hin|]. split; assumption.
  - apply in_app_or in Hin. destruct Hin as [Hin|[<-|[]]].
    + exists a. repeat split; assumption.
    + discriminate.
Qed.

Lemma price_drop_emitted_iff (asset_data : AssetData) (portfolio_data : PortfolioData)
    (sev : string) :
  let price_change := calculate_price_change asset_data in
  let current_vol := calculate_current_volatility asset_data in
  let avg_vol := calculate_average_volatility asset_data 20 in
  (avg_vol == 0 -> current_vol <= 0) ->
  (alert_emitted "price_drop" sev (check_risk_alerts init asset_data portfolio_data)
   <-> (price_change <= -0.15 /\ sev = "high")).
Proof.
  cbv zeta. intro Hbase. rewrite check_risk_alerts_default. cbv zeta.
  set (pc := calculate_price_change asset_data).
  set (cv := calculate_current_volatility asset_data) in *.
  set (av := calculate_average_volatility asset_data 20) in *.
  assert (Hdrop :
    (exists a, In a (if Qleb pc (-0.15) then [price_drop_alert pc] else []) /\
               dict_get a "type" = Some (VStr "price_drop") /\
               dict_get a "severity" = Some (VStr sev))
    <-> (pc <= -0.15 /\ sev = "high")).
  { destruct (Qleb pc (-0.15)) eqn:E.
    - apply Qleb_le in E. split.
      + intros (a & [<-|[]] & _ & Hsev). cbn in Hsev. split; [exact E|].
        congruence.
      + intros (_ & ->). eexists. split; [left; reflexivity|]. split; reflexivity.
    - apply Qleb_gt in E. split.
      + intros (a & [] & _).
      + intros (H & _). exfalso. apply (Qlt_not_le _ _ E H). }
  destruct (Qgtb cv (av * 3.0)) eqn:Espike.
  - apply Qgtb_gt in Espike.
    destruct (Qeq_bool av 0) eqn:Eav.
    + apply Qeq_bool_eq in Eav. specialize (Hbase Eav).
      exfalso. rewrite Eav in Espike. lra.
    + rewrite alert_emitted_ok, <- price_drop_in. exact Hdrop.
  - rewrite alert_emitted_ok. exact Hdrop.
Qed.

Lemma volatility_spike_emitted_iff (asset_data : AssetData)
    (portfolio_data : PortfolioData) (sev : string) :
  let current_vol := calculate_current_volatility asset_data in
  let avg_vol := calculate_average_volatility asset_data 20 in
  (avg_vol == 0 -> current_vol <= 0) ->
  (alert_emitted "volatility_spike" sev
     (check_risk_alerts init asset_data portfolio_data)
   <-> (avg_vol * 3 < current_vol /\ sev = "medium")).
Proof.
  cbv zeta. intro Hbase. rewrite check_risk_alerts_default. cbv zeta.
  set (pc := calculate_price_change asset_data).
  set (cv := calculate_current_volatility asset_data) in *.
  set (av := calculate_average_volatility asset_data 20) in *.
  assert (Hnone : forall a,
    In a (if Qleb pc (-0.15) then [price_drop_alert pc] else []) ->
    dict_get a "type" <> Some (VStr "volatility_spike")).
  { intros a Hin. destruct (Qleb pc (-0.15)); [|destruct Hin].
    destruct Hin as [<-|[]]. discriminate. }
  destruct (Qgtb cv (av * 3.0)) eqn:Espike.
  - apply Qgtb_gt in Espike.
    destruct (Qeq_bool av 0) eqn:Eav.
    + apply Qeq_bool_eq in Eav. specialize (Hbase Eav).
      exfalso. rewrite Eav in Espike. lra.
    + rewrite alert_emitted_ok. split.
      * intros (a & Hin & Hty & Hsev). apply in_app_or in Hin.
        destruct Hin as [Hin|[<-|[]]].
        -- exfalso. exact (Hnone a Hin Hty).
        -- cbn in Hsev. split; [lra | congruence].
      * intros (_ & ->). eexists. split; [apply in_or_app; right; left; reflexivity|].
        split; reflexivity.
  - apply Qgtb_le in Espike. rewrite alert_emitted_ok. split.
    + intros (a & Hin & Hty & _). exfalso. exact (Hnone a Hin Hty).
    + intros (H & _). exfalso. lra.
Qed.

(** C6 (amended): under the default rule set, for every asset snapshot whose
    20-day baseline volatility is non-zero (or whose current volatility is
    not positive either), the evaluation emits a [price_drop] alert, of
    severity "high", iff the day-over-day return is <= -0.15 (-0.20 fires,
    -0.10 does not), and a [volatility_spike] alert, of severity "medium",
    iff the current volatility exceeds 3 times the baseline average. *)
Theorem default_rules_alerts (asset_data : AssetData) (portfolio_data : PortfolioData) :
  let price_change := calculate_price_change asset_data in
  let current_vol := calculate_current_volatility asset_data in
  let avg_vol := calculate_average_volatility asset_data 20 in
  let outcome := check_risk_alerts init asset_data portfolio_data in
  (avg_vol == 0 -> current_vol <= 0) ->
  (forall sev, alert_emitted "price_drop" sev outcome <->
               (price_change <= -0.15 /\ sev = "high")) /\
  (forall sev, alert_emitted "volatility_spike" sev outcome <->
               (avg_vol * 3 < current_vol /\ sev = "medium")) /\
  (price_change == -0.20 -> alert_emitted "price_drop" "high" outcome) /\
  (price_change == -0.10 -> forall sev, ~ alert_emitted "price_drop" sev outcome).
Proof.
  cbv zeta. intro Hbase.
  split; [intro sev; apply price_drop_emitted_iff; exact Hbase|].
  split; [intro sev; apply volatility_spike_emitted_iff; exact Hbase|].
  split.
  - intro Hpc. apply price_drop_emitted_iff; [exact Hbase|].
    split; [rewrite Hpc; discriminate | reflexivity].
  - intros Hpc sev H. apply price_drop_emitted_iff in H; [|exact Hbase].
    destruct H as [H _]. rewrite Hpc in H. apply H. reflexivity.
Qed.

End RiskAlertSystem.

(** *** Sample snapshots *)

(** A snapshot reduced to the three numbers the rules read. *)
Record Snapshot : Type := mkSnapshot {
  day_return : Q;
  volatility_now : Q;
  volatility_baseline : Q
}.

Definition evaluate (s : Snapshot) : result (list alert) :=
  check_risk_alerts Snapshot unit day_return volatility_now
    (fun s _ => volatility_baseline s) init s tt.

Definition sharp_drop : Snapshot :=
  {| day_return := -0.20; volatility_now := 0.3; volatility_baseline := 0.25 |}.

Lemma default_rules_alerts_witness :
  (volatility_baseline sharp_drop == 0 -> volatility_now sharp_drop <= 0) /\
  alert_emitted "price_drop" "high" (evaluate sharp_drop).
Proof.
  assert (Hbase : volatility_baseline sharp_drop == 0 -> volatility_now sharp_drop <= 0).
  { intro H. vm_compute in H. discriminate. }
  split; [exact Hbase|].
  destruct (default_rules_alerts Snapshot unit day_return volatility_now
              (fun s _ => volatility_baseline s) sharp_drop tt Hbase)
    as (_ & _ & Hfire & _).
  apply Hfire. reflexivity.
Defined.

(** A 20% drop after a flat 20-day history. *)
Definition drop_after_flat_history : Snapshot :=
  {| day_return := -0.20; volatility_now := 0.3; volatility_baseline := 0 |}.

(** C6 as stated fails on a snapshot whose baseline volatility is zero (a
    flat 20-day history) while the latest move is a 20% drop: both rules'
    conditions hold, the spike message divides by the zero baseline, and the
    evaluation raises instead of returning alerts. *)
Lemma flat_baseline_counterexample :
  day_return drop_after_flat_history <= -0.15 /\
  volatility_baseline drop_after_flat_history * 3 < volatility_now drop_after_flat_history /\
  evaluate drop_after_flat_history = Raise ZeroDivisionError /\
  ~ alert_emitted "price_drop" "high" (evaluate drop_after_flat_history) /\
  ~ alert_emitted "volatility_spike" "medium" (evaluate drop_after_flat_history).
Proof.
  split; [vm_compute; discriminate|].
  split; [reflexivity|].
  assert (E : evaluate drop_after_flat_history = Raise ZeroDivisionError)
    by (vm_compute; reflexivity).
  split; [exact E|].
  rewrite E. split; apply alert_emitted_raise.
Qed.

End Alerts.

(** ** Cached endpoint: [analyze_opportunities] *)

Module Cache.

(** The endpoint is an [async] function with three [await]s: the cache
    read, the analysis and the cache write.  Calls handled by the same event
    loop interleave at those points, so a call is a small state machine and a
    run of the server is a schedule naming which call resumes next.  Cache
    entries are written with a 300 second expiry; the schedules considered
    here are shorter than that, and expiry is not modelled. *)

Fixpoint set_nth {A} (l : list A) (i : nat) (x : A) : list A :=
  match l, i with
  | [], _ => []
  | _ :: r, O => x :: r
  | y :: r, S j => y :: set_nth r j x
  end.

Lemma nth_error_set_nth_other {A} (l : list A) (i j : nat) (x : A) :
  i <> j -> nth_error (set_nth l j x) i = nth_error l i.
Proof.
  revert i j. induction l as [|y l IH]; intros [|i] [|j] H; cbn;
    try reflexivity; try congruence.
  apply IH. congruence.
Qed.

Lemma nth_error_set_nth_same {A} (l : list A) (i : nat) (c x : A) :
  nth_error l i = Some c -> nth_error (set_nth l i x) i = Some x.
Proof.
  revert i. induction l as [|y l IH]; intros [|i] H; cbn in *;
    try discriminate; [reflexivity | apply IH, H].
Qed.

Section Endpoint.

(** What [find_all_opportunities] returns, and its truth value in [if]. *)
Variable Result : Type.
Variable truthy : Result -> bool.

(** The analysis reads live market data: its [k]-th execution for a symbol
    yields [find_all_opportunities symbol k]. *)
Variable find_all_opportunities : string -> nat -> Result.

(** Where a call stands: not yet started; holding the answer of the cache
    read; waiting for its [k]-th analysis, which is outstanding; holding the
    analysis result that it is about to cache; returned. *)
Inductive call : Type :=
| Called (symbol : string)
| GotCache (symbol : string) (cached_result : option Result)
| Computing (symbol : string) (k : nat)
| Computed (symbol : string) (opportunities : Result)
| Returned (value : Result).

Record server : Type := mkServer {
  cache : dict Result;
  computations : nat;
  calls : list call
}.

Definition cache_key (symbol : string) : string := "opportunities:" ++ symbol.

Definition is_truthy (cached_result : option Result) : bool :=
  match cached_result with
  | Some v => truthy v
  | None => false
  end.

(** The analysis starts: one more underlying computation executes. *)
Definition start_analysis (i : nat) (symbol : string) (w : server) : server :=
  {| cache := cache w;
     computations := S (computations w);
     calls := set_nth (calls w) i (Computing symbol (computations w)) |}.

(** Resume call [i] of [analyze_opportunities] and run it to its next
    suspension (or to its [return]). *)
Definition analyze_opportunities_step (i : nat) (w : server) : server :=
  match nth_error (calls w) i with
  | None => w
  | Some (Called symbol) =>
      (* cached_result = await cache.get(cache_key) *)
      let cached_result := dict_get (cache w) (cache_key symbol) in
      {| cache := cache w;
         computations := computations w;
         calls := set_nth (calls w) i (GotCache symbol cached_result) |}
  | Some (GotCache symbol cached_result) =>
      match cached_result with
      | Some v =>
          if truthy v then
            (* return cached_result *)
            {| cache := cache w;
               computations := computations w;
               calls := set_nth (calls w) i (Returned v) |}
          else start_analysis i symbol w
      | None => start_analysis i symbol w
      end
  | Some (Computing symbol k) =>
      (* opportunities = await opportunity_service.find_all_opportunities(symbol) *)
      {| cache := cache w;
         computations := computations w;
         calls := set_nth (calls w) i
                    (Computed symbol (find_all_opportunities symbol k)) |}
  | Some (Computed symbol opportunities) =>
      (* await cache.set(cache_key, opportunities, expire=300); return *)
      {| cache := dict_set (cache w) (cache_key symbol) opportunities;
         computations := computations w;
         calls := set_nth (calls w) i (Returned opportunities) |}
  | Some (Returned _) => w
  end.

Definition run (schedule : list nat) (w : server) : server :=
  fold_left (fun w i => analyze_opportunities_step i w) schedule w.

(** Requests for the given symbols arrive at a server with an empty cache. *)
Definition requests (symbols : list string) : server :=
  {| cache := []; computations := 0; calls := map Called symbols |}.

(** Each call runs to completion before the next one starts. *)
Definition one_after_another (first count : nat) : list nat :=
  flat_map (fun i => [i; i; i; i]) (seq first count).

Lemma run_app (s1 s2 : list nat) (w : server) :
  run (s1 ++ s2) w = run s2 (run s1 w).
Proof. unfold run. apply fold_left_app. Qed.

Lemma nth_error_middle (done rest : list call) (c : call) :
  nth_error (done ++ c :: rest) (List.length done) = Some c.
Proof.
  induction done as [|d done IH]; cbn; [reflexivity | exact IH].
Qed.

Lemma set_nth_middle (done rest : list call) (c c' : call) :
  set_nth (done ++ c :: rest) (List.length done) c' = done ++ c' :: rest.
Proof.
  induction done as [|d done IH]; cbn; [reflexivity|]. rewrite IH. reflexivity.
Qed.

Lemma step_middle (done rest : list call) (c : call) (w : server) :
  calls w = done ++ c :: rest ->
  analyze_opportunities_step (List.length done) w =
  match c with
  | Called symbol =>
      {| cache := cache w; computations := computations w;
         calls := done ++ GotCache symbol (dict_get (cache w) (cache_key symbol)) :: rest |}
  | GotCache symbol cached_result =>
      if is_truthy cached_result then
        match cached_result with
        | Some v => {| cache := cache w; computations := computations w;
                       calls := done ++ Returned v :: rest |}
        | None => w
        end
      else
        {| cache := cache w; computations := S (computations w);
           calls := done ++ Computing symbol (computations w) :: rest |}
  | Computing symbol k =>
      {| cache := cache w; computations := computations w;
         calls := done ++ Computed symbol (find_all_opportunities symbol k) :: rest |}
  | Computed symbol opportunities =>
      {| cache := dict_set (cache w) (cache_key symbol) opportunities;
         computations := computations w;
         calls := done ++ Returned opportunities :: rest |}
  | Returned _ => w
  end.
Proof.
  intro Hc. unfold analyze_opportunities_step, start_analysis.
  rewrite Hc, nth_error_middle.
  destruct c as [symbol|symbol [v|]|symbol k|symbol v|v]; cbn [is_truthy];
    rewrite ?set_nth_middle; reflexivity.
Qed.

(** The first call finds the cache empty, runs the analysis and stores it. *)
Lemma first_call (symbol : string) (rest : list call) :
  run [0; 0; 0; 0]%nat
      {| cache := []; computations := 0; calls := Called symbol :: rest |} =
  {| cache := [(cache_key symbol, find_all_opportunities symbol 0)];
     computations := 1;
     calls := Returned (find_all_opportunities symbol 0) :: rest |}.
Proof. reflexivity. Qed.

(** A call that starts once a truthy result is stored returns it. *)
Lemma later_call (symbol : string) (v : Result) (n : nat) (done rest : list call) :
  truthy v = true ->
  let k := List.length done in
  run [k; k; k; k] {| cache := [(cache_key symbol, v)]; computations := n;
                      calls := done ++ Called symbol :: rest |} =
  {| cache := [(cache_key symbol, v)]; computations := n;
     calls := done ++ Returned v :: rest |}.
Proof.
  intros Hv k. unfold run. cbn [fold_left]. subst k.
  rewrite (step_middle done rest (Called symbol)
             {| cache := [(cache_key symbol, v)]; computations := n;
                calls := done ++ Called symbol :: rest |} eq_refl).
  cbn [cache computations dict_get]. rewrite String.eqb_refl.
  rewrite (step_middle done rest (GotCache symbol (Some v))
             {| cache := [(cache_key symbol, v)]; computations := n;
                calls := done ++ GotCache symbol (Some v) :: rest |} eq_refl).
  cbn [is_truthy cache computations]. rewrite Hv.
  rewrite !(step_middle done rest (Returned v)
              {| cache := [(cache_key symbol, v)]; computations := n;
                 calls := done ++ Returned v :: rest |} eq_refl).
  reflexivity.
Qed.

Lemma later_calls (symbol : string) (v : Result) (n m : nat) (done : list call) :
  truthy v = true ->
  run (one_after_another (List.length done) m)
      {| cache := [(cache_key symbol, v)]; computations := n;
         calls := done ++ repeat (Called symbol) m |} =
  {| cache := [(cache_key symbol, v)]; computations := n;
     calls := done ++ repeat (Returned v) m |}.
Proof.
  intro Hv. revert done. induction m as [|m IH]; intro done.
  - reflexivity.
  - unfold one_after_another. cbn [seq flat_map repeat].
    set (k := List.length done).
    change ([k; k; k; k] ++ flat_map (fun i => [i; i; i; i]) (seq (S k) m))
      with ([k; k; k; k] ++ one_after_another (S k) m).
    rewrite run_app. subst k. rewrite (later_call symbol v n done _ Hv).
    replace (S (List.length done)) with (List.length (done ++ [Returned v]))
      by (rewrite length_app; cbn; lia).
    replace (done ++ Returned v :: repeat (Called symbol) m)
      with ((done ++ [Returned v]) ++ repeat (Called symbol) m)
      by (rewrite <- app_assoc; reflexivity).
    rewrite IH, <- app_assoc. reflexivity.
Qed.

(** Resuming one call leaves every other call where it stands. *)
Lemma step_other_call (i j : nat) (w : server) :
  i <> j ->
  nth_error (calls (analyze_opportunities_step j w)) i = nth_error (calls w) i.
Proof.
  intro Hij. unfold analyze_opportunities_step, start_analysis.
  destruct (nth_error (calls w) j) as [c|]; [|reflexivity].
  destruct c as [s|s [v|]|s k|s v|v]; try (destruct (truthy v));
    cbn [calls]; try reflexivity; apply nth_error_set_nth_other; exact Hij.
Qed.

Lemma run_other_calls (i : nat) (others : list nat) (w : server) :
  ~ In i others ->
  nth_error (calls (run others w)) i = nth_error (calls w) i.
Proof.
  revert w. induction others as [|j others IH]; intros w Hi; [reflexivity|].
  unfold run. cbn [fold_left]. fold (run others (analyze_opportunities_step j w)).
  rewrite IH by (intro H; apply Hi; right; exact H).
  apply step_other_call. intro H. apply Hi. left. symmetry. exact H.
Qed.

(** A call that has read nothing usable from the cache starts the analysis
    when it is resumed. *)
Lemma stale_read_starts (i : nat) (symbol : string)
    (cached_result : option Result) (w : server) :
  nth_error (calls w) i = Some (GotCache symbol cached_result) ->
  is_truthy cached_result = false ->
  analyze_opportunities_step i w = start_analysis i symbol w.
Proof.
  intros Hcall Hfalsy. unfold analyze_opportunities_step. rewrite Hcall.
  destruct cached_result as [v|]; [|reflexivity].
  cbn [is_truthy] in Hfalsy. rewrite Hfalsy. reflexivity.
Qed.

(** C9 (amended): when the calls for a symbol do not overlap (each call
    completes its cache write before the next call reads the cache) and the
    analysis result is truthy (a non-empty list), exactly one underlying
    computation executes and every call returns that one value.  A call
    whose own cache read finds no truthy entry for the symbol executes the
    computation itself when it is next resumed, whatever the other calls
    have done in between. *)
Theorem sequential_calls_compute_once (symbol : string) (n : nat) :
  (let v := find_all_opportunities symbol 0 in
   let final := run (one_after_another 0 (S n)) (requests (repeat symbol (S n))) in
   truthy v = true ->
   computations final = 1%nat /\
   calls final = repeat (Returned v) (S n) /\
   dict_get (cache final) (cache_key symbol) = Some v) /\
  (forall (w : server) (i : nat) (others : list nat),
   nth_error (calls w) i = Some (Called symbol) ->
   is_truthy (dict_get (cache w) (cache_key symbol)) = false ->
   ~ In i others ->
   let resumed := run others (analyze_opportunities_step i w) in
   let started := analyze_opportunities_step i resumed in
   computations started = S (computations resumed) /\
   nth_error (calls started) i = Some (Computing symbol (computations resumed))).
Proof.
  split.
  - intros v final Hv.
    assert (Hfinal : final =
              {| cache := [(cache_key symbol, v)]; computations := 1;
                 calls := repeat (Returned v) (S n) |}).
    { subst final. unfold one_after_another, requests.
      cbn [seq flat_map repeat map].
      change ([0; 0; 0; 0]%nat ++ flat_map (fun i => [i; i; i; i]) (seq 1 n))
        with ([0; 0; 0; 0]%nat ++ one_after_another 1 n).
      rewrite run_app, first_call.
      assert (Hm : map Called (repeat symbol n) = repeat (Called symbol) n).
      { clear. induction n as [|n IH]; cbn; [reflexivity | rewrite IH; reflexivity]. }
      rewrite Hm.
      exact (later_calls symbol v 1 n [Returned v] Hv). }
    rewrite Hfinal. cbn [computations calls cache dict_get].
    rewrite String.eqb_refl. repeat split.
  - intros w i others Hcall Hmiss Hothers resumed started.
    assert (Hread : nth_error (calls (analyze_opportunities_step i w)) i =
                    Some (GotCache symbol (dict_get (cache w) (cache_key symbol)))).
    { unfold analyze_opportunities_step. rewrite Hcall. cbn [calls].
      apply (nth_error_set_nth_same _ _ _ _ Hcall). }
    assert (Hheld : nth_error (calls resumed) i =
                    Some (GotCache symbol (dict_get (cache w) (cache_key symbol)))).
    { subst resumed. rewrite (run_other_calls i others _ Hothers). exact Hread. }
    subst started. rewrite (stale_read_starts i symbol _ resumed Hheld Hmiss).
    unfold start_analysis. cbn [computations calls].
    split; [reflexivity|].
    apply (nth_error_set_nth_same _ _ _ _ Hheld).
Qed.

End Endpoint.

(** *** Sample runs *)

Definition nonempty (opportunities : list string) : bool :=
  match opportunities with [] => false | _ :: _ => true end.

(** An analysis that finds the same breakout every time it runs. *)
Definition steady_analysis (_ : string) (_ : nat) : list string :=
  ["resistance_breakout"].

Lemma sequential_calls_compute_once_witness :
  let final :=
    run (list string) nonempty steady_analysis
        (one_after_another 0 3) (requests (list string) ["AAPL"; "AAPL"; "AAPL"]) in
  let resumed :=
    run (list string) nonempty steady_analysis
        [1; 0; 0; 0; 0]%nat (requests (list string) ["AAPL"; "AAPL"]) in
  let started :=
    analyze_opportunities_step (list string) nonempty steady_analysis 1 resumed in
  (nonempty (steady_analysis "AAPL" 0%nat) = true /\
   computations (list string) final = 1%nat /\
   calls (list string) final =
     repeat (Returned (list string) ["resistance_breakout"]) 3) /\
  (dict_get (cache (list string) resumed) (cache_key "AAPL") =
     Some ["resistance_breakout"] /\
   computations (list string) resumed = 1%nat /\
   computations (list string) started = 2%nat /\
   nth_error (calls (list string) started) 1 =
     Some (Computing (list string) "AAPL" 1)).
Proof.
  cbv zeta.
  destruct (sequential_calls_compute_once (list string) nonempty steady_analysis
              "AAPL" 2) as (Hseq & Hstale).
  split.
  - split; [reflexivity|].
    destruct Hseq as (Hc & Hr & _); [reflexivity|].
    split; [exact Hc | exact Hr].
  - split; [reflexivity|]. split; [reflexivity|].
    destruct (Hstale (requests (list string) ["AAPL"; "AAPL"]) 1%nat
                     [0; 0; 0; 0]%nat) as (Hn & Hcall).
    + reflexivity.
    + reflexivity.
    + cbn. intros [H|[H|[H|[H|[]]]]]; discriminate.
    + split; [exact Hn | exact Hcall].
Defined.

(** An analysis that finds nothing. *)
Definition empty_analysis (_ : string) (_ : nat) : list string := [].

(** C9 as stated fails: a second call for the same symbol that arrives
    while the first call's analysis is outstanding finds nothing cached and
    runs the analysis again.  (Also, an empty result is cached but is falsy,
    so even calls that do not overlap recompute it.) *)
Lemma overlapping_calls_counterexample :
  let arrived :=
    run (list string) nonempty steady_analysis
        [0; 0; 1; 1]%nat (requests (list string) ["AAPL"; "AAPL"]) in
  let final :=
    run (list string) nonempty steady_analysis [0; 1; 0; 1]%nat arrived in
  let quiet :=
    run (list string) nonempty empty_analysis
        (one_after_another 0 2) (requests (list string) ["AAPL"; "AAPL"]) in
  calls (list string) arrived =
    [Computing (list string) "AAPL" 0; Computing (list string) "AAPL" 1] /\
  computations (list string) final = 2%nat /\
  calls (list string) final =
    [Returned (list string) ["resistance_breakout"];
     Returned (list string) ["resistance_breakout"]] /\
  computations (list string) quiet = 2%nat.
Proof.
  cbv zeta. repeat split.
Qed.

End Cache.

(** * Further properties of the analytics code *)

(** ** Concentration: the largest position and the floor 1/N *)

Module Concentration.

Import Risk.

Lemma Qmax_ge_l (a b : Q) : a <= Qmax a b.
Proof.
  unfold Qmax. destruct (Qltb a b) eqn:E.
  - apply Qltb_lt in E. lra.
  - lra.
Qed.

Lemma Qmax_ge_r (a b : Q) : b <= Qmax a b.
Proof.
  unfold Qmax. destruct (Qltb a b) eqn:E.
  - lra.
  - apply Qltb_ge in E. exact E.
Qed.

Lemma Qmax_cases (a b : Q) : Qmax a b = a \/ Qmax a b = b.
Proof. unfold Qmax. destruct (Qltb a b); auto. Qed.

Lemma fold_Qmax_spec (l : list Q) (x : Q) :
  let m := fold_left Qmax l x in
  (m = x \/ In m l) /\ x <= m /\ (forall y, In y l -> y <= m).
Proof.
  revert x. induction l as [|a l IH]; intro x; cbn.
  - split; [left; reflexivity|]. split; [lra | intros y []].
  - destruct (IH (Qmax x a)) as (Hin & Hx & Hall).
    split; [|split].
    + destruct Hin as [Hm|Hm]; [|right; right; exact Hm].
      rewrite Hm. destruct (Qmax_cases x a) as [E|E]; rewrite E; auto.
    + pose proof (Qmax_ge_l x a). lra.
    + intros y [Hya|Hy]; [|apply Hall; exact Hy].
      subst y. pose proof (Qmax_ge_r x a). lra.
Qed.

(** Builtin [max]: the result is an element and bounds every element. *)
Lemma max_spec (l : list Q) (m : Q) :
  max l = Ok m -> In m l /\ (forall y, In y l -> y <= m).
Proof.
  destruct l as [|x l]; cbn; [discriminate|].
  intro H. inversion H; subst. clear H.
  destruct (fold_Qmax_spec l x) as (Hin & Hx & Hall). cbv zeta in *.
  split.
  - destruct Hin as [->|Hin]; [left; reflexivity | right; exact Hin].
  - intros y [<-|Hy]; [exact Hx | apply Hall; exact Hy].
Qed.

Lemma max_nonempty (l : list Q) : l <> [] -> exists m, max l = Ok m.
Proof. destruct l; [congruence|]. intros _. eexists. reflexivity. Qed.

(** What the function returns, field by field. *)
Lemma concentration_fields (positions : list Position) (r : ConcentrationRisk) :
  calculate_concentration_risk positions = Ok r ->
  max (dict_values (stored_weights positions)) = Ok (top_position_weight r) /\
  herfindahl_index r = hhi_of positions /\
  diversification_score r = 1 - hhi_of positions /\
  concentration_risk r = bucket (hhi_of positions).
Proof.
  unfold calculate_concentration_risk. fold (portfolio_total positions).
  destruct (Qeq_bool (portfolio_total positions) 0) eqn:E.
  - apply Qeq_bool_eq in E. destruct positions as [|pos rest]; [discriminate|].
    rewrite (concentration_loop_zero _ _ _ _ E). discriminate.
  - apply Qeq_bool_neq in E. rewrite (concentration_loop_ok _ _ _ E).
    cbn [bind]. fold (stored_weights positions).
    destruct (max (dict_values (stored_weights positions))) as [top|e] eqn:Em;
      cbn [bind]; [|discriminate].
    intro H. inversion H; subst. cbn. repeat split.
Qed.

Lemma Qsum_ge_member (l : list Q) (x : Q) :
  (forall y, In y l -> 0 <= y) -> In x l -> x <= Qsum l.
Proof.
  induction l as [|a l IH]; intros Hpos Hin; [destruct Hin|].
  cbn. assert (Ha : 0 <= a) by (apply Hpos; left; reflexivity).
  assert (Hl : forall y, In y l -> 0 <= y) by (intros y Hy; apply Hpos; right; exact Hy).
  pose proof (Qsum_nonneg l Hl). destruct Hin as [<-|Hin].
  - lra.
  - specialize (IH Hl Hin). lra.
Qed.

Lemma Qsum_squares_ge_member (l : list Q) (x : Q) :
  In x l -> x * x <= Qsum (map (fun w => w ^ 2) l).
Proof.
  intro Hin.
  apply (Qsum_ge_member (map (fun w => w ^ 2) l) (x ^ 2)).
  - intros y Hy. apply in_map_iff in Hy. destruct Hy as (w & <- & _).
    rewrite sq_mult. nra.
  - apply (in_map (fun w => w ^ 2)). exact Hin.
Qed.

Lemma Qsum_squares_le_max (l : list Q) (m : Q) :
  (forall y, In y l -> 0 <= y /\ y <= m) ->
  Qsum (map (fun w => w ^ 2) l) <= m * Qsum l.
Proof.
  induction l as [|a l IH]; intro H; cbn [map Qsum].
  - lra.
  - destruct (H a (or_introl eq_refl)) as [H0 H1].
    assert (Hl : forall y, In y l -> 0 <= y /\ y <= m).
    { intros y Hy. apply H. right. exact Hy. }
    specialize (IH Hl). rewrite sq_mult. nra.
Qed.

(** X1: The reported top weight is the weight of one of the positions, no other
    stored weight exceeds it, and it brackets the index:
    top^2 <= HHI <= top. *)
Theorem top_weight_brackets_hhi (positions : list Position) :
  positions <> [] ->
  (forall pos, In pos positions -> 0 < market_value pos) ->
  exists r,
    calculate_concentration_risk positions = Ok r /\
    (exists pos, In pos positions /\
       top_position_weight r = market_value pos / portfolio_total positions) /\
    0 < top_position_weight r /\ top_position_weight r <= 1 /\
    top_position_weight r * top_position_weight r <= herfindahl_index r /\
    herfindahl_index r <= top_position_weight r.
Proof.
  intros Hne Hpos.
  destruct (concentration_risk_spec positions Hne Hpos) as (r & Hr & _).
  exists r. split; [exact Hr|].
  destruct (concentration_fields positions r Hr) as (Hmax & Hhhi & _).
  destruct (max_spec _ _ Hmax) as (Hin & Hall).
  set (top := top_position_weight r) in *.
  pose proof (stored_weights_nonneg positions Hne Hpos) as Hnn.
  assert (Hsum : Qsum (dict_values (stored_weights positions)) <= 1).
  { pose proof (stored_sum positions (portfolio_total positions) []) as H.
    cbn [dict_values map Qsum] in H.
    rewrite (weights_sum_to_one positions Hne Hpos) in H.
    unfold stored_weights.
    assert (Hle : Qsum (dict_values
                    (fold_left (store_weight (portfolio_total positions)) positions []))
                  <= 0 + 1).
    { apply H.
      - intros w [].
      - intros pos Hp. apply Qlt_le_weak.
        apply (weight_positive positions Hne Hpos). exact Hp. }
    lra. }
  pose proof (Qsum_ge_member _ _ Hnn Hin) as Htop_le.
  assert (Hwit : exists pos, In pos positions /\
                   top = market_value pos / portfolio_total positions).
  { apply stored_values in Hin. destruct Hin as [[]|(pos & Hp & E)].
    exists pos. split; [exact Hp | exact E]. }
  split; [exact Hwit|].
  assert (Htop_pos : 0 < top).
  { destruct Hwit as (pos & Hp & E). rewrite E.
    apply (weight_positive positions Hne Hpos). exact Hp. }
  split; [exact Htop_pos|]. split; [lra|].
  rewrite Hhhi. unfold hhi_of. rewrite py_sum_Qsum. split.
  - apply Qsum_squares_ge_member. exact Hin.
  - eapply Qle_trans.
    + apply (Qsum_squares_le_max _ top). intros y Hy. split; [apply Hnn | apply Hall]; exact Hy.
    + nra.
Qed.

(** Three positions of 60, 30 and 10. *)
Definition tilted_portfolio : list Position :=
  [ {| symbol := "AAPL"; quantity := 6; market_value := 60 |};
    {| symbol := "MSFT"; quantity := 3; market_value := 30 |};
    {| symbol := "GOOG"; quantity := 1; market_value := 10 |} ].

Lemma tilted_positive : forall pos, In pos tilted_portfolio -> 0 < market_value pos.
Proof.
  intros pos Hin. cbn in Hin. destruct Hin as [<-|[<-|[<-|[]]]]; reflexivity.
Qed.

Lemma top_weight_brackets_hhi_witness :
  exists r,
    calculate_concentration_risk tilted_portfolio = Ok r /\
    top_position_weight r * top_position_weight r <= herfindahl_index r /\
    herfindahl_index r <= top_position_weight r.
Proof.
  destruct (top_weight_brackets_hhi tilted_portfolio)
    as (r & Hr & _ & _ & _ & Hlo & Hhi).
  - discriminate.
  - exact tilted_positive.
  - exists r. split; [exact Hr|]. split; assumption.
Defined.

(** Cauchy-Schwarz for lists: N times the sum of squares is at least the
    square of the sum. *)
Lemma Qsum_squares_cauchy (l : list Q) :
  Qsum l * Qsum l <= Qlen l * Qsum (map (fun w => w ^ 2) l).
Proof.
  induction l as [|x l IH].
  - cbn. unfold Qlen. cbn. lra.
  - cbn [map Qsum]. rewrite Qlen_cons, sq_mult.
    pose proof (Qlen_nonneg l) as Hn.
    set (n := Qlen l) in *. set (S1 := Qsum l) in *.
    set (S2 := Qsum (map (fun w => w ^ 2) l)) in *.
    assert (Hx : 0 <= x * x) by nra.
    assert (H2 : 0 <= S2).
    { unfold S2. apply Qsum_nonneg. intros y Hy. apply in_map_iff in Hy.
      destruct Hy as (w & <- & _). rewrite sq_mult. nra. }
    destruct (Qlt_le_dec 0 n) as [Hpos|Hzero].
    + set (d := n * x - S1).
      assert (Hsq : 0 <= d * d) by (destruct (Qlt_le_dec d 0); nra).
      assert (Hd : d * d == n * (n * (x * x)) - 2 * x * S1 * n + S1 * S1)
        by (unfold d; ring).
      assert (Hkey : 2 * x * S1 * n <= n * (n * (x * x) + S2)) by nra.
      assert (Hk2 : 2 * x * S1 <= n * (x * x) + S2) by nra.
      nra.
    + assert (Hn0 : n == 0) by lra.
      assert (HS1 : S1 * S1 <= 0) by (rewrite Hn0 in IH; lra).
      assert (HS10 : S1 == 0) by nra.
      rewrite Hn0, HS10. nra.
Qed.

(** X2: With pairwise distinct symbols the index of N positions is at least
    1/N, so the diversification score is at most 1 - 1/N: equal weights are
    the most diversified a portfolio of N positions can be. *)
Theorem hhi_floor_distinct_symbols (positions : list Position) :
  positions <> [] ->
  (forall pos, In pos positions -> 0 < market_value pos) ->
  NoDup (map symbol positions) ->
  exists r,
    calculate_concentration_risk positions = Ok r /\
    1 / Qlen positions <= herfindahl_index r /\
    diversification_score r <= 1 - 1 / Qlen positions.
Proof.
  intros Hne Hpos Hnd.
  destruct (concentration_risk_spec positions Hne Hpos) as (r & Hr & _).
  exists r. split; [exact Hr|].
  destruct (concentration_fields positions r Hr) as (_ & Hhhi & Hdiv & _).
  rewrite Hdiv, Hhhi.
  assert (HN : 0 < Qlen positions) by (apply Qlen_pos; exact Hne).
  assert (Hfloor : 1 / Qlen positions <= hhi_of positions).
  { unfold hhi_of, stored_weights. rewrite py_sum_Qsum.
    rewrite stored_distinct; [|exact Hnd | intros; reflexivity].
    cbn [app]. unfold dict_values. rewrite !map_map. cbn [snd].
    pose proof (Qsum_squares_cauchy
                  (map (weight_of (portfolio_total positions)) positions)) as Hc.
    rewrite (weights_sum_to_one positions Hne Hpos), Qlen_map, map_map in Hc.
    apply Qle_shift_div_r; [exact HN|]. lra. }
  split; [exact Hfloor | lra].
Qed.

Lemma hhi_floor_distinct_symbols_witness :
  exists r,
    calculate_concentration_risk tilted_portfolio = Ok r /\
    1 / 3 <= herfindahl_index r.
Proof.
  destruct (hhi_floor_distinct_symbols tilted_portfolio) as (r & Hr & Hfloor & _).
  - discriminate.
  - exact tilted_positive.
  - cbn. repeat constructor; cbn; intuition discriminate.
  - exists r. split; [exact Hr | exact Hfloor].
Defined.

End Concentration.

(** ** Value at risk: argument errors, bounds and monotonicity *)

Module ValueAtRisk.

Import Risk.

Lemma sort_In (x : Q) (l : list Q) : In x (sort l) <-> In x l.
Proof.
  induction l as [|a l IH]; cbn; [tauto|].
  rewrite insert_sorted_In, IH. intuition.
Qed.

(** A defined percentile lies between any bounds of the data. *)
Lemma percentile_between (a : list Q) (q lo hi p : Q) :
  (forall x, In x a -> lo <= x /\ x <= hi) ->
  0 <= q -> q <= 100 -> percentile a q = Ok p ->
  lo <= p /\ p <= hi.
Proof.
  intros Hb H0 H100 Hp.
  assert (Hne : a <> []).
  { intros ->. unfold percentile in Hp.
    destruct (Qltb q 0 || Qgtb q 100); discriminate. }
  rewrite (percentile_defined a q Hne H0 H100) in Hp. inversion Hp; subst p. clear Hp.
  pose proof (percentile_index_in_range a q Hne H0 H100) as Hr.
  destruct (interpolate_bounds (sort a) (sort_sorted a) _ Hr) as [Hlo Hhi].
  destruct (floor_index (sort a) _ Hr) as [Hk Hlen].
  cbv zeta in Hlo, Hhi.
  set (t := q / 100 * (Qlen a - 1)) in *.
  assert (Hin : forall k, (k < List.length (sort a))%nat ->
                  lo <= nth k (sort a) 0 /\ nth k (sort a) 0 <= hi).
  { intros k Hklt. apply Hb. apply sort_In. apply nth_In. exact Hklt. }
  destruct (Hin (Z.to_nat (Qfloor t))) as [L1 _]; [lia|].
  destruct (Hin (Nat.min (Z.to_nat (Qfloor t) + 1) (List.length (sort a) - 1)))
    as [_ U2]; [lia|].
  split; lra.
Qed.

Section Properties.

Variable PriceData : Type.
Variable calculate_daily_returns : PriceData -> list Q.

Let var := calculate_var PriceData calculate_daily_returns.

(** X3: A confidence level above 1 (95 instead of 0.95, say), or below zero
    by 1e-15 or more, asks for a percentile rank outside [0, 100]: the call
    raises [ValueError], whatever the price data.  (A negative level closer
    to zero than that is left out: [1 - confidence_level] may then round
    to 1 in binary64.) *)
Theorem var_confidence_out_of_range (price_data : PriceData) (c h : Q) :
  c <= -1e-15 \/ 1 < c ->
  var price_data c h = Raise ValueError.
Proof.
  intro Hc. unfold var, calculate_var, percentile.
  change (-1e-15) with (- (1 # 1000000000000000)) in Hc.
  assert (E : Qltb ((1 - c) * 100) 0 || Qgtb ((1 - c) * 100) 100 = true).
  { apply orb_true_iff. destruct Hc as [Hc|Hc].
    - right. apply Qgtb_gt. lra.
    - left. apply Qltb_lt. lra. }
  rewrite E. reflexivity.
Qed.

(** X4: Both reported values stay within the range of the observed daily
    returns, scaled by the holding period: the VaR is never worse than the
    worst observed day times [h]. *)
Theorem var_within_observed_range (price_data : PriceData) (c h lo hi : Q) :
  let returns := calculate_daily_returns price_data in
  returns <> [] -> 0 <= c -> c <= 1 -> 0 <= h ->
  (forall x, In x returns -> lo <= x /\ x <= hi) ->
  exists r,
    var price_data c h = Ok r /\
    lo * h <= var_95 r /\ var_95 r <= hi * h /\
    lo * h <= var_99 r /\ var_99 r <= hi * h.
Proof.
  intros returns Hne H0 H1 Hh Hb.
  destruct (percentile_mono returns 0 ((1 - c) * 100))
    as (_ & p & _ & Hp & _); try assumption; try lra.
  destruct (percentile_mono returns 0 1)
    as (_ & p1 & _ & Hp1 & _); try assumption; try lra.
  eexists.
  split; [apply (calculate_var_eval PriceData calculate_daily_returns
                   price_data c h p p1 Hp Hp1)|].
  cbn [var_95 var_99].
  destruct (percentile_between returns ((1 - c) * 100) lo hi p Hb) as [A B];
    try assumption; try lra.
  destruct (percentile_between returns 1 lo hi p1 Hb) as [C D]; try assumption; try lra.
  repeat split; nra.
Qed.

(** X5: Asking for more confidence never gives a milder figure: for a
    non-negative holding period the reported VaR is non-increasing in the
    confidence level. *)
Theorem var_monotone_in_confidence (price_data : PriceData) (c1 c2 h : Q) :
  let returns := calculate_daily_returns price_data in
  returns <> [] -> 0 <= c1 -> c1 <= c2 -> c2 <= 1 -> 0 <= h ->
  exists r1 r2,
    var price_data c1 h = Ok r1 /\
    var price_data c2 h = Ok r2 /\
    var_95 r2 <= var_95 r1 /\
    var_99 r2 == var_99 r1.
Proof.
  intros returns Hne H0 H12 H1 Hh.
  destruct (percentile_mono returns ((1 - c2) * 100) ((1 - c1) * 100))
    as (p2 & p1 & Hp2 & Hp1 & Hle); try assumption; try lra.
  destruct (percentile_mono returns 0 1)
    as (_ & q1 & _ & Hq1 & _); try assumption; try lra.
  eexists. eexists.
  split; [apply (calculate_var_eval PriceData calculate_daily_returns
                   price_data c1 h p1 q1 Hp1 Hq1)|].
  split; [apply (calculate_var_eval PriceData calculate_daily_returns
                   price_data c2 h p2 q1 Hp2 Hq1)|].
  cbn [var_95 var_99]. split; [nra | reflexivity].
Qed.

End Properties.

Lemma var_confidence_out_of_range_witness :
  calculate_var (list Q) given_returns sample_returns 95 1 = Raise ValueError.
Proof.
  apply (var_confidence_out_of_range (list Q) given_returns sample_returns 95 1).
  right. reflexivity.
Defined.

Lemma sample_returns_range :
  forall x, In x sample_returns -> -0.05 <= x /\ x <= 0.01.
Proof.
  intros x Hin. unfold sample_returns in Hin. apply in_app_or in Hin.
  destruct Hin as [[<-|[<-|[]]]|Hin].
  - split; [apply Qle_refl | discriminate].
  - split; discriminate.
  - apply repeat_spec in Hin. subst x. split; [discriminate | apply Qle_refl].
Qed.

Lemma var_within_observed_range_witness :
  exists r,
    calculate_var (list Q) given_returns sample_returns 0.95 5 = Ok r /\
    -0.05 * 5 <= var_95 r /\ var_95 r <= 0.01 * 5.
Proof.
  destruct (var_within_observed_range (list Q) given_returns sample_returns
              0.95 5 (-0.05) 0.01) as (r & Hr & A & B & _).
  - discriminate.
  - discriminate.
  - discriminate.
  - discriminate.
  - exact sample_returns_range.
  - exists r. split; [exact Hr|]. split; assumption.
Defined.

Lemma var_monotone_in_confidence_witness :
  exists r1 r2,
    calculate_var (list Q) given_returns sample_returns 0.90 1 = Ok r1 /\
    calculate_var (list Q) given_returns sample_returns 0.95 1 = Ok r2 /\
    var_95 r2 <= var_95 r1.
Proof.
  destruct (var_monotone_in_confidence (list Q) given_returns sample_returns
              0.90 0.95 1) as (r1 & r2 & H1 & H2 & Hle & _);
    try discriminate.
  exists r1, r2. split; [exact H1|]. split; [exact H2 | exact Hle].
Defined.

End ValueAtRisk.

(** ** Breakout and institutional-flow detectors; short series *)

Module MoreDetectors.

Import OpportunityDetector.

Section Breakout.

Variable calculate_resistance_levels : list PricePoint -> list Q.
Variable calculate_support_levels : list PricePoint -> list Q.
Variable calculate_avg_volume : list PricePoint -> nat -> Q.
Variable calculate_breakout_confidence : list PricePoint -> Q -> Q.

Definition resistance_breakout (stock_data : list PricePoint) (level : Q) : opportunity :=
  [("type", VStr "resistance_breakout");
   ("price_level", VNum level);
   ("confidence", VNum (calculate_breakout_confidence stock_data level))].

Definition detect_breakout_opportunities
    (stock_data : list PricePoint) : result (list opportunity) :=
  let opportunities := [] in
  let resistance_levels := calculate_resistance_levels stock_data in
  let support_levels := calculate_support_levels stock_data in
  last <- index_neg stock_data 1 ;;
  let current_price := close last in
  last' <- index_neg stock_data 1 ;;
  let volume := volume last' in
  let avg_volume := calculate_avg_volume stock_data 20 in
  Ok (fold_left
        (fun opportunities level =>
           if Qgtb current_price level && Qgtb volume (avg_volume * 1.5)
           then opportunities ++ [resistance_breakout stock_data level]
           else opportunities)
        resistance_levels opportunities).

(** The price levels carried by a list of opportunities. *)
Definition price_levels (opps : list opportunity) : list (option value) :=
  map (fun o => dict_get o "price_level") opps.

Lemma breakout_loop (stock_data : list PricePoint) (price : Q) (gate : bool)
    (levels : list Q) (acc : list opportunity) :
  fold_left
    (fun opportunities level =>
       if Qgtb price level && gate
       then opportunities ++ [resistance_breakout stock_data level]
       else opportunities)
    levels acc =
  acc ++ map (resistance_breakout stock_data)
           (filter (fun level => Qgtb price level && gate) levels).
Proof.
  revert acc. induction levels as [|l levels IH]; intro acc; cbn.
  - rewrite app_nil_r. reflexivity.
  - rewrite IH. destruct (Qgtb price l && gate); cbn.
    + rewrite <- app_assoc. reflexivity.
    + reflexivity.
Qed.

(** X6: On a non-empty series the detector returns one [resistance_breakout]
    per resistance level strictly below the latest close, in the order of
    the levels, provided the latest volume exceeds 1.5 times the 20-day
    average; otherwise it returns nothing.  Support levels are computed but
    never produce an opportunity. *)
Theorem breakout_levels_below_close (init : list PricePoint) (last : PricePoint) :
  let stock_data := init ++ [last] in
  let levels := calculate_resistance_levels stock_data in
  let avg := calculate_avg_volume stock_data 20 in
  exists opps,
    detect_breakout_opportunities stock_data = Ok opps /\
    (forall o, In o opps -> opportunity_type o = Some (VStr "resistance_breakout")) /\
    (avg * 1.5 < volume last ->
       price_levels opps =
       map (fun l => Some (VNum l)) (filter (fun l => Qgtb (close last) l) levels)) /\
    (volume last <= avg * 1.5 -> opps = []).
Proof.
  intros stock_data levels avg.
  unfold detect_breakout_opportunities. fold stock_data.
  unfold stock_data at 1 2. rewrite !index_neg_last. cbn [bind].
  fold stock_data. fold levels. fold avg.
  rewrite (breakout_loop stock_data (close last) (Qgtb (volume last) (avg * 1.5))).
  cbn [app]. eexists. split; [reflexivity|]. split; [|split].
  - intros o Hin. apply in_map_iff in Hin. destruct Hin as (l & <- & _). reflexivity.
  - intro Hv. apply Qgtb_gt in Hv. rewrite Hv.
    unfold price_levels. rewrite map_map. cbn.
    f_equal. apply filter_ext. intro l. apply andb_true_r.
  - intro Hv. apply Qgtb_le in Hv. rewrite Hv.
    replace (filter (fun level => Qgtb (close last) level && false) levels)
      with (@nil Q); [reflexivity|].
    clear. induction levels as [|l ls IH]; cbn; [reflexivity|].
    rewrite andb_false_r. exact IH.
Qed.

End Breakout.

Section ShortSeries.

Variable calculate_resistance_levels : list PricePoint -> list Q.
Variable calculate_support_levels : list PricePoint -> list Q.
Variable calculate_avg_volume : list PricePoint -> nat -> Q.
Variable calculate_breakout_confidence : list PricePoint -> Q -> Q.
Variable calculate_rsi : list PricePoint -> nat -> Q.
Variable calculate_bollinger_bands : list PricePoint -> nat -> Q -> BollingerBands.
Variable calculate_potential_upside : list PricePoint -> Q.

(** X7: The three price-series detectors read [stock_data[-1]]: on an empty
    series each raises [IndexError].  The volume detector also reads
    [stock_data[-2]]: on a single session it raises [ZeroDivisionError] when
    the average volume is zero and [IndexError] otherwise, so it never
    returns on fewer than two sessions. *)
Theorem detectors_need_history (only : PricePoint) :
  detect_breakout_opportunities calculate_resistance_levels calculate_support_levels
    calculate_avg_volume calculate_breakout_confidence [] = Raise IndexError /\
  detect_oversold_overbought_opportunities calculate_rsi calculate_bollinger_bands
    calculate_potential_upside [] = Raise IndexError /\
  detect_volume_anomalies calculate_avg_volume [] = Raise IndexError /\
  detect_volume_anomalies calculate_avg_volume [only] =
    (if Qeq_bool (calculate_avg_volume [only] 20) 0
     then Raise ZeroDivisionError else Raise IndexError).
Proof.
  repeat split.
  unfold detect_volume_anomalies. cbn [index_neg rev app nth_error Nat.sub bind].
  unfold div. destruct (Qeq_bool _ 0); reflexivity.
Qed.

End ShortSeries.

Section InstitutionalFlow.

Variable TradeData : Type.
Variable Trade : Type.
Variable filter_large_trades : TradeData -> Q -> list Trade.
Variable calculate_net_flow : list Trade -> Q.

(** The function falls off its end when there is no large trade: the
    caller receives [None]. *)
Definition detect_institutional_flow (trade_data : TradeData) : option (dict value) :=
  let large_trades := filter_large_trades trade_data 1000000 in
  if (0 <? List.length large_trades)%nat then
    let net_flow := calculate_net_flow large_trades in
    Some [("type", VStr "institutional_flow");
          ("net_flow", VNum net_flow);
          ("trade_count", VNum (Qlen large_trades));
          ("sentiment", VStr (if Qgtb net_flow 0 then "bullish" else "bearish"))]
  else None.

(** X8: The detector answers [None] exactly when no trade reaches the
    1,000,000 floor; otherwise it reports at least one trade and reads the
    sentiment off the sign of the net flow, a net flow of exactly zero being
    "bearish". *)
Theorem institutional_flow_report (trade_data : TradeData) :
  let large_trades := filter_large_trades trade_data 1000000 in
  let net_flow := calculate_net_flow large_trades in
  (detect_institutional_flow trade_data = None <-> large_trades = []) /\
  (forall report,
     detect_institutional_flow trade_data = Some report ->
     dict_get report "type" = Some (VStr "institutional_flow") /\
     dict_get report "trade_count" = Some (VNum (Qlen large_trades)) /\
     1 <= Qlen large_trades /\
     (0 < net_flow -> dict_get report "sentiment" = Some (VStr "bullish")) /\
     (net_flow <= 0 -> dict_get report "sentiment" = Some (VStr "bearish"))).
Proof.
  cbv zeta. unfold detect_institutional_flow.
  destruct (filter_large_trades trade_data 1000000) as [|t ts] eqn:E.
  - cbn. split; [tauto|]. intros report H. discriminate.
  - cbn [List.length Nat.ltb Nat.leb]. split.
    + split; intro H; discriminate.
    + intros report H. inversion H; subst. clear H.
      split; [reflexivity|]. split; [reflexivity|]. split.
      * rewrite Qlen_cons. pose proof (Qlen_nonneg ts). lra.
      * cbn. split; intro Hn.
        -- apply Qgtb_gt in Hn. rewrite Hn. reflexivity.
        -- apply Qgtb_le in Hn. rewrite Hn. reflexivity.
Qed.

End InstitutionalFlow.

(** *** Sample data *)

Definition sample_resistance (_ : list PricePoint) : list Q := [95; 110; 100].
Definition sample_support (_ : list PricePoint) : list Q := [80].
Definition flat_confidence (_ : list PricePoint) (_ : Q) : Q := 0.5.

Lemma breakout_levels_below_close_witness :
  exists opps,
    detect_breakout_opportunities sample_resistance sample_support
      trailing_avg_volume flat_confidence surge_series = Ok opps /\
    price_levels opps = [Some (VNum 95); Some (VNum 100)].
Proof.
  destruct (breakout_levels_below_close sample_resistance sample_support
              trailing_avg_volume flat_confidence quiet_sessions (session 106 4000))
    as (opps & Hr & _ & Hlevels & _).
  exists opps. split; [exact Hr|].
  rewrite Hlevels; [reflexivity|]. vm_compute. reflexivity.
Defined.

(** Signed notionals; a trade is large when its size reaches the floor. *)
Definition large_by_size (trades : list Q) (min_size : Q) : list Q :=
  filter (fun t => Qle_bool min_size (Qabs t)) trades.

Definition balanced_tape : list Q := [2000000; -500; -2000000].

Lemma institutional_flow_report_witness :
  exists report,
    detect_institutional_flow (list Q) Q large_by_size Qsum balanced_tape = Some report /\
    Qsum (large_by_size balanced_tape 1000000) <= 0 /\
    dict_get report "sentiment" = Some (VStr "bearish") /\
    dict_get report "trade_count" = Some (VNum 2).
Proof.
  eexists. split; [reflexivity|].
  assert (Hflat : Qsum (large_by_size balanced_tape 1000000) <= 0)
    by (vm_compute; discriminate).
  split; [exact Hflat|].
  destruct (institutional_flow_report (list Q) Q large_by_size Qsum balanced_tape)
    as (_ & Hrep).
  destruct (Hrep _ eq_refl) as (_ & Hcount & _ & _ & Hbear).
  split; [exact (Hbear Hflat) | exact Hcount].
Defined.

End MoreDetectors.

(** ** Maximum drawdown *)

Module Drawdown.

Import OpportunityDetector.

(** A pandas/NumPy [float64] produced by element-wise arithmetic on finite
    numbers: finite, or one of the values a zero divisor gives (the sign of
    a zero divisor is not tracked). *)
Inductive float64 : Type :=
| Fin (q : Q)
| NaN
| PosInf
| NegInf.

(** Element-wise true division of two finite numbers; it never raises. *)
Definition fdiv (a b : Q) : float64 :=
  if Qeq_bool b 0 then
    if Qeq_bool a 0 then NaN else if Qltb 0 a then PosInf else NegInf
  else Fin (a / b).

(** [a <= b] on values that are not NaN. *)
Definition fle (a b : float64) : bool :=
  match a, b with
  | NegInf, _ => true
  | _, PosInf => true
  | Fin x, Fin y => Qle_bool x y
  | _, _ => false
  end.

(** [Series.min()] skips NaN and is NaN when nothing else is left. *)
Definition min_skipna (m x : float64) : float64 :=
  match m, x with
  | NaN, _ => x
  | _, NaN => m
  | _, _ => if fle x m then x else m
  end.

Definition series_min (s : list float64) : float64 := fold_left min_skipna s NaN.

(** [Series.expanding().max()]: the running maximum. *)
Fixpoint expanding_max_from (m : Q) (s : list Q) : list Q :=
  match s with
  | [] => []
  | x :: r => let m' := Qmax m x in m' :: expanding_max_from m' r
  end.

Definition expanding_max (s : list Q) : list Q :=
  match s with
  | [] => []
  | x :: r => x :: expanding_max_from x r
  end.

(** [(close - peak) / peak], element by element. *)
Definition drawdown_series (closes : list Q) : list float64 :=
  map (fun cp => fdiv (fst cp - snd cp) (snd cp))
      (combine closes (expanding_max closes)).

Record MaxDrawdown (Duration : Type) : Type := mkMaxDrawdown {
  max_drawdown : float64;
  max_dd_duration : Duration;
  current_drawdown : float64
}.
Arguments max_drawdown {Duration} _.
Arguments max_dd_duration {Duration} _.
Arguments current_drawdown {Duration} _.

Section IndividualStockRisk.

Variable Duration : Type.
Variable calculate_drawdown_duration : list float64 -> Duration.

Definition calculate_max_drawdown (price_data : list PricePoint)
  : result (MaxDrawdown Duration) :=
  let peak := expanding_max (map close price_data) in
  let drawdown := drawdown_series (map close price_data) in
  let max_dd := series_min drawdown in
  let duration := calculate_drawdown_duration drawdown in
  current <- index_neg drawdown 1 ;;
  Ok {| max_drawdown := max_dd;
        max_dd_duration := duration;
        current_drawdown := current |}.

End IndividualStockRisk.

(** *** Running peaks *)

Lemma expanding_max_from_length (m : Q) (s : list Q) :
  List.length (expanding_max_from m s) = List.length s.
Proof.
  revert m. induction s as [|x r IH]; intro m; cbn; [reflexivity|].
  rewrite IH. reflexivity.
Qed.

Lemma expanding_max_length (s : list Q) :
  List.length (expanding_max s) = List.length s.
Proof.
  destruct s as [|x r]; cbn; [reflexivity|].
  rewrite expanding_max_from_length. reflexivity.
Qed.

Lemma Qmax_l (a b : Q) : a <= Qmax a b.
Proof.
  unfold Qmax. destruct (Qltb a b) eqn:E; [apply Qltb_lt in E|]; lra.
Qed.

Lemma Qmax_r (a b : Q) : b <= Qmax a b.
Proof.
  unfold Qmax. destruct (Qltb a b) eqn:E; [lra | apply Qltb_ge in E; exact E].
Qed.

Lemma Qmax_either (a b : Q) : Qmax a b = a \/ Qmax a b = b.
Proof. unfold Qmax. destruct (Qltb a b); auto. Qed.

Lemma expanding_max_from_spec (s : list Q) :
  forall m j, (j < List.length s)%nat ->
    let p := nth j (expanding_max_from m s) 0 in
    m <= p /\
    (forall i, (i <= j)%nat -> nth i s 0 <= p) /\
    (p = m \/ exists i, (i <= j)%nat /\ p = nth i s 0).
Proof.
  induction s as [|x r IH]; intros m j Hj; cbn in Hj; [lia|].
  destruct j as [|j]; cbn [expanding_max_from nth].
  - split; [apply Qmax_l|]. split.
    + intros i Hi. assert (i = 0%nat) by lia. subst i. apply Qmax_r.
    + destruct (Qmax_either m x) as [E|E].
      * left. exact E.
      * right. exists 0%nat. split; [lia | exact E].
  - destruct (IH (Qmax m x) j) as (Hm & Hall & Hex); [lia|]. cbv zeta in *.
    split; [pose proof (Qmax_l m x); lra|]. split.
    + intros [|i] Hi; cbn [nth].
      * pose proof (Qmax_r m x). lra.
      * apply Hall. lia.
    + destruct Hex as [E|(i & Hi & E)].
      * destruct (Qmax_either m x) as [E'|E'].
        -- left. rewrite E. exact E'.
        -- right. exists 0%nat. split; [lia|]. rewrite E. exact E'.
      * right. exists (S i). split; [lia | exact E].
Qed.

(** The peak at session [j] bounds every close up to [j] and is one of
    them. *)
Lemma expanding_max_spec (s : list Q) (j : nat) :
  (j < List.length s)%nat ->
  let p := nth j (expanding_max s) 0 in
  (forall i, (i <= j)%nat -> nth i s 0 <= p) /\
  (exists i, (i <= j)%nat /\ p = nth i s 0).
Proof.
  destruct s as [|x r]; cbn [List.length]; intro Hj; [lia|].
  destruct j as [|j]; cbn [expanding_max nth].
  - split.
    + intros i Hi. assert (i = 0%nat) by lia. subst i. apply Qle_refl.
    + exists 0%nat. split; [lia | reflexivity].
  - destruct (expanding_max_from_spec r x j) as (Hm & Hall & Hex); [lia|].
    cbv zeta in *. split.
    + intros [|i] Hi; cbn [nth]; [exact Hm | apply Hall; lia].
    + destruct Hex as [E|(i & Hi & E)].
      * exists 0%nat. split; [lia | exact E].
      * exists (S i). split; [lia | exact E].
Qed.

(** *** Finite drawdowns *)

(** The decline from a peak [p] to a close [c]. *)
Definition decline (c p : Q) : Q := (c - p) / p.

Definition declines (closes : list Q) : list Q :=
  map (fun cp => decline (fst cp) (snd cp)) (combine closes (expanding_max closes)).

Lemma fdiv_finite (a b : Q) : ~ b == 0 -> fdiv a b = Fin (a / b).
Proof.
  intro H. unfold fdiv. destruct (Qeq_bool b 0) eqn:E; [|reflexivity].
  apply Qeq_bool_eq in E. contradiction.
Qed.

Lemma declines_length (closes : list Q) :
  List.length (declines closes) = List.length closes.
Proof.
  unfold declines. rewrite length_map, length_combine, expanding_max_length.
  apply Nat.min_id.
Qed.

Lemma declines_nth (closes : list Q) (j : nat) :
  (j < List.length closes)%nat ->
  nth j (declines closes) 0 =
  decline (nth j closes 0) (nth j (expanding_max closes) 0).
Proof.
  intro Hj. unfold declines.
  set (f := fun cp : Q * Q => decline (fst cp) (snd cp)).
  rewrite (nth_indep _ 0 (f (0, 0))).
  - rewrite (map_nth f), combine_nth by (symmetry; apply expanding_max_length).
    reflexivity.
  - rewrite length_map, length_combine, expanding_max_length. lia.
Qed.

Section PositiveCloses.

Variable closes : list Q.
Hypothesis positive : forall x, In x closes -> 0 < x.

Lemma close_positive (j : nat) : (j < List.length closes)%nat -> 0 < nth j closes 0.
Proof. intro Hj. apply positive. apply nth_In. exact Hj. Qed.

Lemma peak_positive (j : nat) :
  (j < List.length closes)%nat -> 0 < nth j (expanding_max closes) 0.
Proof.
  intro Hj. destruct (expanding_max_spec closes j Hj) as (_ & i & Hi & E).
  cbv zeta in E. rewrite E. apply close_positive. lia.
Qed.

Lemma drawdown_series_finite : drawdown_series closes = map Fin (declines closes).
Proof.
  unfold drawdown_series, declines. rewrite map_map. apply map_ext_in.
  intros [c p] Hin. cbn [fst snd]. apply fdiv_finite.
  apply in_combine_r in Hin.
  destruct (In_nth _ _ 0 Hin) as (j & Hj & E).
  rewrite expanding_max_length in Hj.
  pose proof (peak_positive j Hj) as Hp. rewrite E in Hp. lra.
Qed.

(** Every decline is above -100% and at most zero. *)
Lemma decline_range (j : nat) :
  (j < List.length closes)%nat ->
  -1 < nth j (declines closes) 0 /\ nth j (declines closes) 0 <= 0.
Proof.
  intro Hj. rewrite (declines_nth closes j Hj). unfold decline.
  pose proof (close_positive j Hj) as Hc. pose proof (peak_positive j Hj) as Hp.
  destruct (expanding_max_spec closes j Hj) as (Hall & _). cbv zeta in Hall.
  specialize (Hall j (Nat.le_refl j)).
  set (c := nth j closes 0) in *. set (p := nth j (expanding_max closes) 0) in *.
  split.
  - apply Qlt_shift_div_l; [exact Hp | lra].
  - apply Qle_shift_div_r; [exact Hp | lra].
Qed.

(** The decline at [j] is at most the decline from any earlier close, and
    is the decline from one of them. *)
Lemma decline_pairs (j : nat) :
  (j < List.length closes)%nat ->
  (forall i, (i <= j)%nat ->
     nth j (declines closes) 0 <= decline (nth j closes 0) (nth i closes 0)) /\
  (exists i, (i <= j)%nat /\
     nth j (declines closes) 0 = decline (nth j closes 0) (nth i closes 0)).
Proof.
  intro Hj. rewrite (declines_nth closes j Hj).
  destruct (expanding_max_spec closes j Hj) as (Hall & i0 & Hi0 & E).
  cbv zeta in *. split.
  - intros i Hi. unfold decline.
    pose proof (close_positive j Hj) as Hc.
    pose proof (close_positive i ltac:(lia)) as Hq.
    pose proof (peak_positive j Hj) as Hp.
    specialize (Hall i Hi).
    set (a := nth j closes 0) in *. set (q := nth i closes 0) in *.
    set (pk := nth j (expanding_max closes) 0) in *.
    apply Qle_shift_div_r; [exact Hp|].
    assert (Hrw : (a - q) / q * pk == (a - q) * pk / q) by (field; lra).
    rewrite Hrw. apply Qle_shift_div_l; [exact Hq | nra].
  - exists i0. split; [exact Hi0|]. rewrite E. reflexivity.
Qed.

End PositiveCloses.

(** *** Minimum of a series of finite values *)

Definition Qmin (a b : Q) : Q := if Qle_bool b a then b else a.

Lemma series_min_finite_from (qs : list Q) (a : Q) :
  fold_left min_skipna (map Fin qs) (Fin a) = Fin (fold_left Qmin qs a).
Proof.
  revert a. induction qs as [|x qs IH]; intro a; cbn [map fold_left]; [reflexivity|].
  cbn [min_skipna fle]. unfold Qmin at 2.
  destruct (Qle_bool x a); apply IH.
Qed.

Lemma fold_Qmin_spec (qs : list Q) (a : Q) :
  let m := fold_left Qmin qs a in
  (m = a \/ In m qs) /\ m <= a /\ (forall q, In q qs -> m <= q).
Proof.
  revert a. induction qs as [|x qs IH]; intro a; cbn [fold_left].
  - split; [left; reflexivity|]. split; [apply Qle_refl | intros q []].
  - destruct (IH (Qmin a x)) as (Hin & Hle & Hall). cbv zeta in *.
    assert (Hmin : Qmin a x <= a /\ Qmin a x <= x /\ (Qmin a x = a \/ Qmin a x = x)).
    { unfold Qmin. destruct (Qle_bool x a) eqn:E.
      - apply Qle_bool_iff in E. repeat split; [exact E | apply Qle_refl | right; reflexivity].
      - assert (a < x) by (apply Qleb_gt; exact E).
        repeat split; [apply Qle_refl | lra | left; reflexivity]. }
    destruct Hmin as (Ha & Hx & Hcase). split; [|split].
    + destruct Hin as [E|Hin]; [|right; right; exact Hin].
      rewrite E. destruct Hcase as [E'|E']; rewrite E'; [left | right; left]; reflexivity.
    + lra.
    + intros q [<-|Hq]; [lra | apply Hall; exact Hq].
Qed.

Lemma series_min_finite (qs : list Q) :
  qs <> [] ->
  exists m, series_min (map Fin qs) = Fin m /\ In m qs /\ (forall q, In q qs -> m <= q).
Proof.
  destruct qs as [|a qs]; [congruence|]. intros _.
  unfold series_min. cbn [map fold_left min_skipna].
  rewrite series_min_finite_from.
  destruct (fold_Qmin_spec qs a) as (Hin & Hle & Hall). cbv zeta in *.
  eexists. split; [reflexivity|]. split.
  - destruct Hin as [->|Hin]; [left; reflexivity | right; exact Hin].
  - intros q [<-|Hq]; [exact Hle | apply Hall; exact Hq].
Qed.

Lemma index_neg_last_nth {A} (l : list A) (d : A) :
  l <> [] -> index_neg l 1 = Ok (nth (List.length l - 1) l d).
Proof.
  intro Hne. destruct (rev l) as [|x r] eqn:E.
  - apply (f_equal (@rev A)) in E. rewrite rev_involutive in E. contradiction.
  - apply (f_equal (@rev A)) in E. rewrite rev_involutive in E. cbn in E.
    subst l. rewrite index_neg_last. f_equal.
    rewrite length_app. cbn [List.length].
    rewrite app_nth2 by lia.
    replace (List.length (rev r) + 1 - 1 - List.length (rev r))%nat with 0%nat by lia.
    reflexivity.
Qed.

Section Report.

Variable Duration : Type.
Variable calculate_drawdown_duration : list float64 -> Duration.

Let report := calculate_max_drawdown Duration calculate_drawdown_duration.

(** What the function returns on a table of positive closes. *)
Lemma max_drawdown_positive (price_data : list PricePoint) :
  let closes := map close price_data in
  price_data <> [] ->
  (forall x, In x closes -> 0 < x) ->
  exists r m,
    report price_data = Ok r /\
    max_drawdown r = Fin m /\
    current_drawdown r = Fin (nth (List.length closes - 1) (declines closes) 0) /\
    In m (declines closes) /\
    (forall q, In q (declines closes) -> m <= q).
Proof.
  intros closes Hne Hpos.
  assert (Hc : closes <> []).
  { unfold closes. destruct price_data; [congruence | discriminate]. }
  assert (Hd : declines closes <> []).
  { intro E. apply (f_equal (@List.length Q)) in E.
    rewrite declines_length in E. destruct closes; [congruence | discriminate]. }
  destruct (series_min_finite (declines closes) Hd) as (m & Hm & Hin & Hall).
  unfold report, calculate_max_drawdown. fold closes.
  rewrite (drawdown_series_finite closes Hpos), Hm.
  rewrite (index_neg_last_nth (map Fin (declines closes)) (Fin 0)).
  - cbn [bind]. eexists. exists m. split; [reflexivity|]. cbn.
    split; [reflexivity|]. split; [|split; assumption].
    rewrite length_map, declines_length.
    change (Fin 0) with (Fin (@id Q 0)). rewrite (map_nth Fin). reflexivity.
  - intro E. apply map_eq_nil in E. contradiction.
Qed.

(** X9: On a non-empty table of positive closes both figures are finite and
    -1 < max_drawdown <= current_drawdown <= 0. *)
Theorem drawdown_bounds (price_data : list PricePoint) :
  price_data <> [] ->
  (forall x, In x (map close price_data) -> 0 < x) ->
  exists r m c,
    report price_data = Ok r /\
    max_drawdown r = Fin m /\ current_drawdown r = Fin c /\
    -1 < m /\ m <= c /\ c <= 0.
Proof.
  intros Hne Hpos.
  destruct (max_drawdown_positive price_data Hne Hpos) as (r & m & Hr & Hm & Hc & Hin & Hall).
  set (closes := map close price_data) in *.
  assert (Hlen : (0 < List.length closes)%nat).
  { unfold closes. destruct price_data; [congruence | cbn; lia]. }
  exists r, m. eexists. split; [exact Hr|]. split; [exact Hm|]. split; [exact Hc|].
  destruct (In_nth _ _ 0 Hin) as (j & Hj & E). rewrite declines_length in Hj.
  destruct (decline_range closes Hpos j Hj) as [Hlo _]. rewrite E in Hlo.
  destruct (decline_range closes Hpos (List.length closes - 1)) as [_ Hhi]; [lia|].
  split; [exact Hlo|]. split; [|exact Hhi].
  apply Hall. apply nth_In. rewrite declines_length. lia.
Qed.

(** X10: The reported maximum drawdown is the worst decline from any close to a
    later (or the same) close: it is at most every such decline and equals
    one of them. *)
Theorem max_drawdown_is_worst_decline (price_data : list PricePoint) :
  let closes := map close price_data in
  price_data <> [] ->
  (forall x, In x closes -> 0 < x) ->
  exists r m,
    report price_data = Ok r /\ max_drawdown r = Fin m /\
    (forall i j, (i <= j)%nat -> (j < List.length closes)%nat ->
       m <= (nth j closes 0 - nth i closes 0) / nth i closes 0) /\
    (exists i j, (i <= j)%nat /\ (j < List.length closes)%nat /\
       m = (nth j closes 0 - nth i closes 0) / nth i closes 0).
Proof.
  intros closes Hne Hpos.
  destruct (max_drawdown_positive price_data Hne Hpos) as (r & m & Hr & Hm & _ & Hin & Hall).
  fold closes in Hin, Hall.
  exists r, m. split; [exact Hr|]. split; [exact Hm|]. split.
  - intros i j Hij Hj.
    destruct (decline_pairs closes Hpos j Hj) as (Hle & _).
    eapply Qle_trans; [|exact (Hle i Hij)].
    apply Hall. apply nth_In. rewrite declines_length. exact Hj.
  - destruct (In_nth _ _ 0 Hin) as (j & Hj & E). rewrite declines_length in Hj.
    destruct (decline_pairs closes Hpos j Hj) as (_ & i & Hi & Ei).
    exists i, j. split; [exact Hi|]. split; [exact Hj|].
    rewrite <- E, Ei. reflexivity.
Qed.

(** X11: The maximum drawdown is zero exactly when the closes never fall, and
    the current drawdown is zero exactly when the latest close is the
    highest so far. *)
Theorem zero_drawdown_iff (price_data : list PricePoint) :
  let closes := map close price_data in
  let n := List.length closes in
  price_data <> [] ->
  (forall x, In x closes -> 0 < x) ->
  exists r m c,
    report price_data = Ok r /\
    max_drawdown r = Fin m /\ current_drawdown r = Fin c /\
    (m == 0 <->
       forall i j, (i <= j)%nat -> (j < n)%nat -> nth i closes 0 <= nth j closes 0) /\
    (c == 0 <->
       forall i, (i < n)%nat -> nth i closes 0 <= nth (n - 1) closes 0).
Proof.
  intros closes n Hne Hpos.
  destruct (max_drawdown_is_worst_decline price_data Hne Hpos)
    as (r & m & Hr & Hm & Hall & (i0 & j0 & Hi0 & Hj0 & E)).
  fold closes in Hall, Hj0, E.
  destruct (max_drawdown_positive price_data Hne Hpos) as (r' & m' & Hr' & _ & Hc & _).
  fold closes in Hc.
  assert (r' = r) by congruence. subst r'.
  assert (Hlen : (0 < n)%nat).
  { unfold n, closes. destruct price_data; [congruence | cbn; lia]. }
  exists r, m. eexists. split; [exact Hr|]. split; [exact Hm|]. split; [exact Hc|].
  assert (Hsign : forall a q, 0 < q -> (0 <= (a - q) / q <-> q <= a)).
  { intros a q Hq. split; intro H.
    - assert (Hm0 : 0 * q <= (a - q) / q * q) by (apply Qmult_le_compat_r; lra).
      assert (Hrw : (a - q) / q * q == a - q) by (field; lra).
      rewrite Hrw in Hm0. lra.
    - apply Qle_shift_div_l; [exact Hq | lra]. }
  split.
  - split.
    + intros Hz i j Hij Hj. apply Hsign.
      * apply (close_positive closes Hpos). unfold n in Hj. lia.
      * eapply Qle_trans; [|apply (Hall i j Hij Hj)]. rewrite Hz. apply Qle_refl.
    + intro Hmono.
      assert (Hge : 0 <= m).
      { rewrite E. apply Hsign.
        - apply (close_positive closes Hpos). lia.
        - apply Hmono; assumption. }
      assert (Hle : m <= 0).
      { eapply Qle_trans; [apply (Hall j0 j0 (Nat.le_refl j0) Hj0)|].
        apply Qle_shift_div_r; [apply (close_positive closes Hpos); exact Hj0 | lra]. }
      lra.
  - fold n. set (k := (n - 1)%nat).
    assert (Hk : (k < List.length closes)%nat) by (unfold k, n in *; lia).
    destruct (decline_pairs closes Hpos k Hk) as (Hle & i1 & Hi1 & E1).
    destruct (decline_range closes Hpos k Hk) as [_ Hhi].
    split.
    + intros Hz i Hi. apply Hsign.
      * apply (close_positive closes Hpos). unfold n in Hi. lia.
      * eapply Qle_trans; [|apply (Hle i); unfold k; lia].
        rewrite Hz. apply Qle_refl.
    + intro Hmax.
      assert (Hge : 0 <= nth k (declines closes) 0).
      { rewrite E1. apply Hsign.
        - apply (close_positive closes Hpos). lia.
        - apply Hmax. unfold n. lia. }
      lra.
Qed.

(** X12: Degenerate tables: an empty table raises [IndexError] at [iloc[-1]];
    a table whose closes are all zero raises nothing and reports NaN for
    both figures. *)
Theorem drawdown_degenerate_tables (price_data : list PricePoint) :
  report [] = Raise IndexError /\
  (price_data <> [] -> (forall x, In x (map close price_data) -> x == 0) ->
   exists r, report price_data = Ok r /\
             max_drawdown r = NaN /\ current_drawdown r = NaN).
Proof.
  split; [reflexivity|].
  intros Hne Hzero.
  set (closes := map close price_data) in *.
  assert (Hnan : forall c p, c == 0 -> p == 0 -> fdiv (c - p) p = NaN).
  { intros c p Hc Hp. unfold fdiv. rewrite (Qeq_eq_bool p 0 Hp).
    assert (Hd : c - p == 0) by lra. rewrite (Qeq_eq_bool _ 0 Hd). reflexivity. }
  assert (Hmax0 : forall a b, a == 0 -> b == 0 -> Qmax a b == 0).
  { intros a b Ha Hb. destruct (Qmax_either a b) as [E|E]; rewrite E; assumption. }
  assert (Hpk : forall s m, m == 0 -> (forall x, In x s -> x == 0) ->
            map (fun cp => fdiv (fst cp - snd cp) (snd cp))
                (combine s (expanding_max_from m s)) = repeat NaN (List.length s)).
  { induction s as [|x s IH]; intros m Hm Hs; [reflexivity|].
    cbn [expanding_max_from combine map List.length repeat fst snd].
    assert (Hx : x == 0) by (apply Hs; left; reflexivity).
    rewrite (Hnan x (Qmax m x) Hx (Hmax0 m x Hm Hx)). f_equal.
    apply IH; [apply Hmax0; assumption|].
    intros y Hy. apply Hs. right. exact Hy. }
  assert (Hser : drawdown_series closes = repeat NaN (List.length closes)).
  { unfold drawdown_series. destruct closes as [|x s] eqn:E; [reflexivity|].
    assert (Hx : x == 0) by (apply Hzero; left; reflexivity).
    cbn [expanding_max combine map List.length repeat fst snd].
    rewrite (Hnan x x Hx Hx). f_equal.
    apply Hpk; [exact Hx|]. intros y Hy. apply Hzero. right. exact Hy. }
  assert (Hmin : forall k, fold_left min_skipna (repeat NaN k) NaN = NaN).
  { induction k as [|k IH]; [reflexivity | exact IH]. }
  unfold report, calculate_max_drawdown. fold closes. rewrite Hser.
  assert (Hlen : closes <> []).
  { unfold closes. destruct price_data; [congruence | discriminate]. }
  rewrite (index_neg_last_nth (repeat NaN (List.length closes)) NaN).
  - cbn [bind]. eexists. split; [reflexivity|]. cbn.
    split; [apply Hmin|].
    apply nth_repeat.
  - destruct closes; [congruence | discriminate].
Qed.

End Report.

(** *** Sample tables *)

(** Closes 100, 120, 90, 108: the peak is 120, the trough 90. *)
Definition swing : list PricePoint :=
  [session 100 1000; session 120 1000; session 90 1000; session 108 1000].

Definition no_duration (_ : list float64) : unit := tt.

Lemma swing_positive : forall x, In x (map close swing) -> 0 < x.
Proof.
  intros x Hin. cbn in Hin. destruct Hin as [<-|[<-|[<-|[<-|[]]]]]; reflexivity.
Qed.

Lemma drawdown_bounds_witness :
  exists r m c,
    calculate_max_drawdown unit no_duration swing = Ok r /\
    max_drawdown r = Fin m /\ current_drawdown r = Fin c /\
    -1 < m /\ m <= c /\ c <= 0.
Proof.
  apply (drawdown_bounds unit no_duration swing).
  - discriminate.
  - exact swing_positive.
Defined.

Lemma max_drawdown_is_worst_decline_witness :
  exists r m,
    calculate_max_drawdown unit no_duration swing = Ok r /\
    max_drawdown r = Fin m /\ m <= (90 - 120) / 120.
Proof.
  destruct (max_drawdown_is_worst_decline unit no_duration swing)
    as (r & m & Hr & Hm & Hall & _).
  - discriminate.
  - exact swing_positive.
  - exists r, m. split; [exact Hr|]. split; [exact Hm|].
    apply (Hall 1%nat 2%nat); cbn; lia.
Defined.

(** Closes that only rise. *)
Definition rally : list PricePoint :=
  [session 100 1000; session 105 1000; session 105 1000; session 110 1000].

Lemma zero_drawdown_iff_witness :
  exists r m,
    calculate_max_drawdown unit no_duration rally = Ok r /\
    max_drawdown r = Fin m /\ m == 0.
Proof.
  destruct (zero_drawdown_iff unit no_duration rally)
    as (r & m & c & Hr & Hm & _ & Hzero & _).
  - discriminate.
  - intros x Hin. cbn in Hin. destruct Hin as [<-|[<-|[<-|[<-|[]]]]]; reflexivity.
  - exists r, m. split; [exact Hr|]. split; [exact Hm|].
    apply Hzero. intros i j Hij Hj. cbn in Hj.
    destruct j as [|[|[|[|j]]]]; try lia;
      destruct i as [|[|[|[|i]]]]; try lia; cbn; discriminate.
Defined.

Lemma drawdown_degenerate_tables_witness :
  exists r,
    calculate_max_drawdown unit no_duration [session 0 0; session 0 0] = Ok r /\
    max_drawdown r = NaN /\ current_drawdown r = NaN.
Proof.
  apply (drawdown_degenerate_tables unit no_duration [session 0 0; session 0 0]).
  - discriminate.
  - intros x Hin. cbn in Hin. destruct Hin as [<-|[<-|[]]]; reflexivity.
Defined.

End Drawdown.

(** ** Rebalancing suggestions *)

Module Rebalancing.

Import Risk.

(** [d.get(k, default)] *)
Definition get_default {V} (d : dict V) (k : string) (default : V) : V :=
  match dict_get d k with
  | Some v => v
  | None => default
  end.

Definition suggestion (symbol action : string) (current_weight target_weight : Q)
  : dict value :=
  [("symbol", VStr symbol);
   ("action", VStr action);
   ("current_weight", VNum current_weight);
   ("target_weight", VNum target_weight);
   ("adjustment_amount", VNum (Qabs (current_weight - target_weight)))].

(** The body of [for symbol in current_weights]. *)
Fixpoint rebalancing_loop (current_weights target_weights : dict Q)
    (symbols : list string) (suggestions : list (dict value))
  : result (list (dict value)) :=
  match symbols with
  | [] => Ok suggestions
  | symbol :: rest =>
      current_weight <- subscript current_weights symbol ;;
      let target_weight := get_default target_weights symbol 0 in
      if Qgtb (Qabs (current_weight - target_weight)) 0.05 then
        let action :=
          if Qgtb current_weight target_weight then "reduce" else "increase" in
        rebalancing_loop current_weights target_weights rest
          (suggestions ++ [suggestion symbol action current_weight target_weight])
      else rebalancing_loop current_weights target_weights rest suggestions
  end.

Section PortfolioRiskManager.

(** Methods of the class that the design document leaves undefined; each
    returns a dictionary from symbol to weight. *)
Variable calculate_current_weights : list Position -> dict Q.
Variable get_optimal_weights : list Position -> dict Q.

Definition generate_portfolio_rebalancing_suggestions
    (portfolio_positions : list Position) : result (list (dict value)) :=
  let current_weights := calculate_current_weights portfolio_positions in
  let target_weights := get_optimal_weights portfolio_positions in
  rebalancing_loop current_weights target_weights (map fst current_weights) [].

End PortfolioRiskManager.

(** *** The loop as a filter *)

(** What one entry of [current_weights] contributes. *)
Definition suggest_entry (target_weights : dict Q) (entry : string * Q)
  : list (dict value) :=
  let (symbol, current_weight) := entry in
  let target_weight := get_default target_weights symbol 0 in
  if Qgtb (Qabs (current_weight - target_weight)) 0.05 then
    [suggestion symbol
       (if Qgtb current_weight target_weight then "reduce" else "increase")
       current_weight target_weight]
  else [].

(** In a dictionary (keys pairwise distinct) every entry is found under its
    key. *)
Lemma dict_get_entry {V} (d : dict V) (k : string) (v : V) :
  NoDup (map fst d) -> In (k, v) d -> dict_get d k = Some v.
Proof.
  induction d as [|[k' v'] d IH]; intros Hnd Hin; [destruct Hin|].
  cbn in Hnd. inversion Hnd as [|? ? Hnotin Hnd']; subst.
  cbn. destruct Hin as [E|Hin].
  - inversion E; subst. rewrite String.eqb_refl. reflexivity.
  - destruct (String.eqb_spec k' k) as [->|Hne].
    + exfalso. apply Hnotin. change k with (fst (k, v)). apply in_map. exact Hin.
    + apply IH; assumption.
Qed.

Lemma rebalancing_loop_entries (current target : dict Q)
    (entries : list (string * Q)) (acc : list (dict value)) :
  (forall k v, In (k, v) entries -> dict_get current k = Some v) ->
  rebalancing_loop current target (map fst entries) acc =
  Ok (acc ++ flat_map (suggest_entry target) entries).
Proof.
  revert acc. induction entries as [|[k v] entries IH]; intros acc Hget.
  - cbn. rewrite app_nil_r. reflexivity.
  - cbn [map fst rebalancing_loop flat_map suggest_entry].
    unfold subscript. rewrite (Hget k v) by (left; reflexivity). cbn [bind].
    assert (Hrest : forall k' v', In (k', v') entries -> dict_get current k' = Some v').
    { intros k' v' Hin. apply Hget. right. exact Hin. }
    destruct (Qgtb (Qabs (v - get_default target k 0)) 0.05).
    + rewrite IH by exact Hrest. rewrite <- app_assoc. reflexivity.
    + rewrite IH by exact Hrest. reflexivity.
Qed.

Section Properties.

Variable calculate_current_weights : list Position -> dict Q.
Variable get_optimal_weights : list Position -> dict Q.

Let suggest :=
  generate_portfolio_rebalancing_suggestions calculate_current_weights get_optimal_weights.

Lemma suggestions_exact (positions : list Position) :
  NoDup (map fst (calculate_current_weights positions)) ->
  suggest positions =
  Ok (flat_map (suggest_entry (get_optimal_weights positions))
        (calculate_current_weights positions)).
Proof.
  intro Hnd. unfold suggest, generate_portfolio_rebalancing_suggestions.
  rewrite rebalancing_loop_entries; [reflexivity|].
  intros k v Hin. apply dict_get_entry; assumption.
Qed.

(** X13: Every suggestion concerns a held symbol, carries its current weight and
    its target (0 when the symbol has no target), moves by more than five
    points, and says "reduce" exactly when the holding is above target. *)
Theorem suggestions_are_sound (positions : list Position) :
  let current := calculate_current_weights positions in
  let target := get_optimal_weights positions in
  NoDup (map fst current) ->
  exists suggestions,
    suggest positions = Ok suggestions /\
    forall s, In s suggestions ->
      exists symbol cw action,
        let tw := get_default target symbol 0 in
        s = suggestion symbol action cw tw /\
        dict_get current symbol = Some cw /\
        0.05 < Qabs (cw - tw) /\
        (action = "reduce" <-> tw < cw) /\
        (action = "increase" <-> cw < tw).
Proof.
  intros current target Hnd. eexists. split; [apply suggestions_exact; exact Hnd|].
  intros s Hin. apply in_flat_map in Hin. destruct Hin as ([k v] & Hentry & Hs).
  cbn [suggest_entry] in Hs. fold target in Hs.
  destruct (Qgtb (Qabs (v - get_default target k 0)) 0.05) eqn:E; [|destruct Hs].
  destruct Hs as [<-|[]]. apply Qgtb_gt in E.
  exists k, v. eexists. cbv zeta. split; [reflexivity|].
  split; [apply dict_get_entry; assumption|]. split; [exact E|].
  set (tw := get_default target k 0) in *.
  destruct (Qgtb v tw) eqn:G.
  - apply Qgtb_gt in G. split; split; intro H.
    + exact G.
    + reflexivity.
    + discriminate.
    + exfalso. lra.
  - apply Qgtb_le in G.
    assert (Hne : ~ v == tw).
    { intro Heq. assert (Hz : v - tw == 0) by lra. rewrite Hz in E.
      revert E. cbn. discriminate. }
    split; split; intro H.
    + discriminate.
    + exfalso. lra.
    + lra.
    + reflexivity.
Qed.

(** X14: Holdings within five points of their targets (the bound included)
    produce no suggestion at all. *)
Theorem no_suggestion_within_band (positions : list Position) :
  let current := calculate_current_weights positions in
  let target := get_optimal_weights positions in
  NoDup (map fst current) ->
  (forall symbol cw, In (symbol, cw) current ->
     Qabs (cw - get_default target symbol 0) <= 0.05) ->
  suggest positions = Ok [].
Proof.
  intros current target Hnd Hband. rewrite suggestions_exact by exact Hnd.
  fold current target. f_equal.
  induction current as [|[k v] rest IH]; [reflexivity|].
  cbn [flat_map suggest_entry].
  assert (E : Qgtb (Qabs (v - get_default target k 0)) 0.05 = false).
  { apply Qgtb_le. apply Hband. left. reflexivity. }
  rewrite E. cbn [app]. apply IH.
  - cbn in Hnd. inversion Hnd; assumption.
  - intros s cw Hin. apply Hband. right. exact Hin.
Qed.

(** X15: Suggestions follow the holdings: their symbols are held symbols in the
    order of the holdings without repetition, so a symbol that only has a
    target is never suggested; and a holding above five points that has no
    target is told to reduce towards zero. *)
Theorem suggestions_follow_holdings (positions : list Position) :
  let current := calculate_current_weights positions in
  let target := get_optimal_weights positions in
  NoDup (map fst current) ->
  exists suggestions,
    suggest positions = Ok suggestions /\
    NoDup (map (fun s => dict_get s "symbol") suggestions) /\
    (forall symbol,
       In (Some (VStr symbol)) (map (fun s => dict_get s "symbol") suggestions) ->
       In symbol (map fst current)) /\
    (forall symbol cw,
       In (symbol, cw) current -> dict_get target symbol = None -> 0.05 < cw ->
       In (suggestion symbol "reduce" cw 0) suggestions).
Proof.
  intros current target Hnd. eexists.
  split; [apply suggestions_exact; exact Hnd|]. fold current target.
  assert (Hsym : forall entries symbol,
            In (Some (VStr symbol))
               (map (fun s => dict_get s "symbol")
                    (flat_map (suggest_entry target) entries)) ->
            In symbol (map fst entries)).
  { intros entries symbol Hin. apply in_map_iff in Hin.
    destruct Hin as (s & Hs & Hin). apply in_flat_map in Hin.
    destruct Hin as ([k v] & Hentry & Hin). cbn [suggest_entry] in Hin.
    destruct (Qgtb _ 0.05); [|destruct Hin]. destruct Hin as [<-|[]].
    cbn in Hs. inversion Hs; subst.
    change symbol with (fst (symbol, v)). apply in_map. exact Hentry. }
  split; [|split].
  - clear - Hnd Hsym. induction current as [|[k v] rest IH]; [constructor|].
    cbn in Hnd. inversion Hnd as [|? ? Hnotin Hnd']; subst.
    cbn [flat_map suggest_entry].
    destruct (Qgtb _ 0.05); cbn [app map]; [|apply IH; exact Hnd'].
    constructor; [|apply IH; exact Hnd'].
    cbn. intro Hin. apply Hnotin. apply Hsym. exact Hin.
  - apply Hsym.
  - intros symbol cw Hin Hnone Hcw. apply in_flat_map.
    exists (symbol, cw). split; [exact Hin|].
    cbn [suggest_entry]. unfold get_default. rewrite Hnone.
    assert (Habs : Qabs (cw - 0) == cw).
    { rewrite Qabs_pos by lra. ring. }
    assert (E1 : Qgtb (Qabs (cw - 0)) 0.05 = true).
    { apply Qgtb_gt. rewrite Habs. exact Hcw. }
    assert (E2 : Qgtb cw 0 = true) by (apply Qgtb_gt; lra).
    rewrite E1, E2. left. reflexivity.
Qed.

End Properties.

(** *** Sample weights *)

Definition held_weights (_ : list Position) : dict Q :=
  [("AAPL", 0.50); ("MSFT", 0.30); ("TSLA", 0.20)].

Definition model_weights (_ : list Position) : dict Q :=
  [("AAPL", 0.40); ("MSFT", 0.32); ("NVDA", 0.28)].

Lemma held_weights_distinct : NoDup (map fst (held_weights [])).
Proof. cbn. repeat constructor; cbn; intuition discriminate. Qed.

Lemma suggestions_are_sound_witness :
  exists suggestions,
    generate_portfolio_rebalancing_suggestions held_weights model_weights []
      = Ok suggestions /\
    forall s, In s suggestions ->
      exists symbol cw action,
        s = suggestion symbol action cw (get_default (model_weights []) symbol 0) /\
        0.05 < Qabs (cw - get_default (model_weights []) symbol 0).
Proof.
  destruct (suggestions_are_sound held_weights model_weights [] held_weights_distinct)
    as (suggestions & Hr & Hall).
  exists suggestions. split; [exact Hr|].
  intros s Hin. destruct (Hall s Hin) as (symbol & cw & action & Hs & _ & Hgap & _).
  exists symbol, cw, action. split; assumption.
Defined.

Definition close_to_model (_ : list Position) : dict Q :=
  [("AAPL", 0.45); ("MSFT", 0.30); ("NVDA", 0.25)].

Lemma no_suggestion_within_band_witness :
  generate_portfolio_rebalancing_suggestions close_to_model model_weights [] = Ok [].
Proof.
  apply (no_suggestion_within_band close_to_model model_weights []).
  - cbn. repeat constructor; cbn; intuition discriminate.
  - intros symbol cw Hin. cbn in Hin.
    destruct Hin as [E|[E|[E|[]]]]; inversion E; subst; vm_compute; discriminate.
Defined.

Lemma suggestions_follow_holdings_witness :
  exists suggestions,
    generate_portfolio_rebalancing_suggestions held_weights model_weights []
      = Ok suggestions /\
    In (suggestion "TSLA" "reduce" 0.20 0) suggestions /\
    ~ In (Some (VStr "NVDA")) (map (fun s => dict_get s "symbol") suggestions).
Proof.
  destruct (suggestions_follow_holdings held_weights model_weights []
              held_weights_distinct) as (suggestions & Hr & _ & Hheld & Hreduce).
  exists suggestions. split; [exact Hr|]. split.
  - apply Hreduce; [right; right; left; reflexivity | reflexivity | reflexivity].
  - intro Hin. apply Hheld in Hin. cbn in Hin.
    destruct Hin as [E|[E|[E|[]]]]; discriminate.
Defined.

End Rebalancing.

(** ** Stress scenarios *)

Module StressTest.

Import Risk.

Definition scenarios : dict (dict Q) :=
  [ ("market_crash", [("market_decline", -0.30); ("volatility_spike", 2.5)]);
    ("sector_rotation", [("tech_decline", -0.20); ("financial_gain", 0.10)]);
    ("interest_rate_shock", [("rate_increase", 0.02); ("bond_impact", -0.15)]);
    ("liquidity_crisis", [("volume_decline", -0.50); ("spread_widening", 0.02)]) ].

Record ScenarioResult (Worst : Type) : Type := mkScenarioResult {
  potential_loss : Q;
  loss_percentage : Q;
  worst_affected_positions : Worst
}.
Arguments potential_loss {Worst} _.
Arguments loss_percentage {Worst} _.
Arguments worst_affected_positions {Worst} _.

Section Runner.

Variable Worst : Type.
Variable calculate_scenario_impact : list Position -> dict Q -> Q.
Variable calculate_portfolio_value : list Position -> Q.
Variable identify_worst_positions : list Position -> dict Q -> Worst.

(** The body of [for scenario_name, parameters in scenarios.items()]. *)
Fixpoint scenario_loop (portfolio_positions : list Position)
    (items : list (string * dict Q)) (results : dict (ScenarioResult Worst))
  : result (dict (ScenarioResult Worst)) :=
  match items with
  | [] => Ok results
  | (scenario_name, parameters) :: rest =>
      let scenario_loss := calculate_scenario_impact portfolio_positions parameters in
      percentage <- div scenario_loss (calculate_portfolio_value portfolio_positions) ;;
      scenario_loop portfolio_positions rest
        (dict_set results scenario_name
           {| potential_loss := scenario_loss;
              loss_percentage := percentage;
              worst_affected_positions :=
                identify_worst_positions portfolio_positions parameters |})
  end.

Definition run_stress_scenarios (portfolio_positions : list Position)
  : result (dict (ScenarioResult Worst)) :=
  scenario_loop portfolio_positions scenarios [].

(** X16: A portfolio whose value is zero makes every loss
    percentage a division by zero: the run raises [ZeroDivisionError] and
    returns no scenario at all.  Otherwise all four scenarios are reported,
    in the order of the table, each with the loss of its own parameters and
    a percentage that is that loss over the portfolio value. *)
Theorem stress_run_outcome (portfolio_positions : list Position) :
  let value := calculate_portfolio_value portfolio_positions in
  (value == 0 -> run_stress_scenarios portfolio_positions = Raise ZeroDivisionError) /\
  (~ value == 0 ->
   exists results,
     run_stress_scenarios portfolio_positions = Ok results /\
     map fst results =
       ["market_crash"; "sector_rotation"; "interest_rate_shock"; "liquidity_crisis"] /\
     forall scenario_name parameters,
       dict_get scenarios scenario_name = Some parameters ->
       exists r,
         dict_get results scenario_name = Some r /\
         potential_loss r = calculate_scenario_impact portfolio_positions parameters /\
         loss_percentage r * value == potential_loss r /\
         worst_affected_positions r =
           identify_worst_positions portfolio_positions parameters).
Proof.
  intro value. split.
  - intro Hz. unfold run_stress_scenarios, scenarios. cbn [scenario_loop].
    fold value. rewrite (div_zero _ _ Hz). reflexivity.
  - intro Hnz. unfold run_stress_scenarios, scenarios.
    cbn [scenario_loop]. fold value. rewrite !(div_ok _ value Hnz).
    cbn [bind dict_set String.eqb Ascii.eqb Bool.eqb].
    eexists. split; [reflexivity|]. split; [reflexivity|].
    intros name parameters Hget. unfold scenarios in Hget. cbn [dict_get] in Hget.
    cbn [dict_get].
    repeat (match type of Hget with
            | (if ?b then _ else _) = _ =>
                destruct b eqn:?;
                [ inversion Hget; subst; eexists; split; [reflexivity|];
                  cbn; split; [reflexivity|]; split; [field; exact Hnz | reflexivity]
                | ]
            end).
    discriminate.
Qed.

End Runner.

Definition total_market_value (positions : list Position) : Q :=
  py_sum (map market_value positions).

(** A shock that hits every position by the first parameter of the
    scenario. *)
Definition first_parameter_shock (positions : list Position) (parameters : dict Q) : Q :=
  match parameters with
  | [] => 0
  | (_, shock) :: _ => shock * total_market_value positions
  end.

Definition no_ranking (_ : list Position) (_ : dict Q) : unit := tt.

Lemma stress_run_outcome_witness :
  run_stress_scenarios unit first_parameter_shock total_market_value no_ranking []
    = Raise ZeroDivisionError /\
  exists results,
    run_stress_scenarios unit first_parameter_shock total_market_value no_ranking
      four_equal_positions = Ok results /\
    map fst results =
      ["market_crash"; "sector_rotation"; "interest_rate_shock"; "liquidity_crisis"].
Proof.
  split.
  - apply (stress_run_outcome unit first_parameter_shock total_market_value
             no_ranking []). reflexivity.
  - destruct (stress_run_outcome unit first_parameter_shock total_market_value
                no_ranking four_equal_positions) as (_ & Hok).
    destruct Hok as (results & Hr & Hkeys & _); [vm_compute; discriminate|].
    exists results. split; assumption.
Defined.

End StressTest.

(** ** Alert evaluation under any rule set *)

Module AlertRules.

Import Alerts.

Section Evaluation.

Variable AssetData : Type.
Variable PortfolioData : Type.
Variable calculate_price_change : AssetData -> Q.
Variable calculate_current_volatility : AssetData -> Q.
Variable calculate_average_volatility : AssetData -> nat -> Q.

Let check :=
  check_risk_alerts AssetData PortfolioData calculate_price_change
    calculate_current_volatility calculate_average_volatility.

Let drop_alert := price_drop_alert.
Let spike_alert := volatility_spike_alert.

(** Evaluation with the two rules the function reads. *)
Lemma check_risk_alerts_eval (self : RiskAlertSystem) (drop_rule spike_rule : AlertRule)
    (asset_data : AssetData) (portfolio_data : PortfolioData) :
  dict_get (alert_rules self) "price_drop_alert" = Some drop_rule ->
  dict_get (alert_rules self) "volatility_spike" = Some spike_rule ->
  let price_change := calculate_price_change asset_data in
  let current_vol := calculate_current_volatility asset_data in
  let avg_vol := calculate_average_volatility asset_data 20 in
  check self asset_data portfolio_data =
    let drop := if Qleb price_change (threshold drop_rule)
                then [drop_alert price_change] else [] in
    if Qgtb current_vol (avg_vol * threshold spike_rule) then
      if Qeq_bool avg_vol 0 then Raise ZeroDivisionError
      else Ok (drop ++ [spike_alert (current_vol / avg_vol)])
    else Ok drop.
Proof.
  intros Hdrop Hspike. cbv zeta. unfold check, check_risk_alerts, subscript.
  rewrite Hdrop, Hspike. cbn [bind app].
  destruct (Qgtb _ _); [|reflexivity].
  unfold div. destruct (Qeq_bool _ 0); reflexivity.
Qed.

(** X17: The thresholds are read from the rule set in force, while the severity
    is fixed by the code: with a drop threshold [t1] and a spike factor [t2]
    configured (and a non-zero volatility baseline), a [price_drop] alert
    appears iff the return is at most [t1] and a [volatility_spike] alert iff
    the current volatility exceeds [t2] times the baseline; their severities
    are "high" and "medium" whatever priorities the rules carry. *)
Theorem configured_thresholds_decide (self : RiskAlertSystem)
    (drop_rule spike_rule : AlertRule)
    (asset_data : AssetData) (portfolio_data : PortfolioData) :
  let price_change := calculate_price_change asset_data in
  let current_vol := calculate_current_volatility asset_data in
  let avg_vol := calculate_average_volatility asset_data 20 in
  let outcome := check self asset_data portfolio_data in
  dict_get (alert_rules self) "price_drop_alert" = Some drop_rule ->
  dict_get (alert_rules self) "volatility_spike" = Some spike_rule ->
  ~ avg_vol == 0 ->
  (forall sev, alert_emitted "price_drop" sev outcome <->
               (price_change <= threshold drop_rule /\ sev = "high")) /\
  (forall sev, alert_emitted "volatility_spike" sev outcome <->
               (avg_vol * threshold spike_rule < current_vol /\ sev = "medium")).
Proof.
  cbv zeta. intros Hdrop Hspike Hbase.
  rewrite (check_risk_alerts_eval self drop_rule spike_rule asset_data portfolio_data
             Hdrop Hspike). cbv zeta.
  set (pc := calculate_price_change asset_data).
  set (cv := calculate_current_volatility asset_data).
  set (av := calculate_average_volatility asset_data 20) in *.
  assert (Eav : Qeq_bool av 0 = false).
  { destruct (Qeq_bool av 0) eqn:E; [|reflexivity].
    apply Qeq_bool_eq in E. contradiction. }
  rewrite Eav.
  assert (Hdrop_in : forall sev l,
    (forall a, In a l -> dict_get a "type" <> Some (VStr "price_drop")) ->
    ((exists a, In a ((if Qleb pc (threshold drop_rule)
                       then [drop_alert pc] else []) ++ l) /\
                dict_get a "type" = Some (VStr "price_drop") /\
                dict_get a "severity" = Some (VStr sev))
     <-> (pc <= threshold drop_rule /\ sev = "high"))).
  { intros sev l Hl. destruct (Qleb pc (threshold drop_rule)) eqn:E.
    - apply Qleb_le in E. split.
      + intros (a & [<-|Hin] & Hty & Hsev).
        * cbn in Hsev. split; [exact E | congruence].
        * exfalso. exact (Hl a Hin Hty).
      + intros (_ & ->). eexists. split; [left; reflexivity|]. split; reflexivity.
    - apply Qleb_gt in E. split.
      + intros (a & Hin & Hty & _). exfalso. exact (Hl a Hin Hty).
      + intros (H & _). exfalso. apply (Qlt_not_le _ _ E H). }
  assert (Hspike_in : forall a,
    In a (if Qleb pc (threshold drop_rule) then [drop_alert pc] else []) ->
    dict_get a "type" <> Some (VStr "volatility_spike")).
  { intros a Hin. destruct (Qleb pc (threshold drop_rule)); [|destruct Hin].
    destruct Hin as [<-|[]]. discriminate. }
  destruct (Qgtb cv (av * threshold spike_rule)) eqn:Es.
  - apply Qgtb_gt in Es. split; intro sev; rewrite alert_emitted_ok.
    + apply Hdrop_in. intros a [<-|[]]. discriminate.
    + split.
      * intros (a & Hin & Hty & Hsev). apply in_app_or in Hin.
        destruct Hin as [Hin|[<-|[]]].
        -- exfalso. exact (Hspike_in a Hin Hty).
        -- cbn in Hsev. split; [exact Es | congruence].
      * intros (_ & ->). eexists.
        split; [apply in_or_app; right; left; reflexivity|]. split; reflexivity.
  - apply Qgtb_le in Es. split; intro sev; rewrite alert_emitted_ok.
    + rewrite <- (app_nil_r (if Qleb pc (threshold drop_rule)
                             then [drop_alert pc] else [])).
      apply Hdrop_in. intros a [].
    + split.
      * intros (a & Hin & Hty & _). exfalso. exact (Hspike_in a Hin Hty).
      * intros (H & _). exfalso. apply (Qlt_not_le _ _ H Es).
Qed.

(** X18: Both rules must be present: a rule set without [price_drop_alert], or
    without [volatility_spike], makes the evaluation raise [KeyError]; in
    the second case a price drop that was already detected is lost. *)
Theorem missing_rule_raises (self : RiskAlertSystem)
    (asset_data : AssetData) (portfolio_data : PortfolioData) :
  (dict_get (alert_rules self) "price_drop_alert" = None ->
   check self asset_data portfolio_data = Raise KeyError) /\
  (dict_get (alert_rules self) "volatility_spike" = None ->
   check self asset_data portfolio_data = Raise KeyError).
Proof.
  unfold check, check_risk_alerts, subscript. split; intro H; rewrite H.
  - reflexivity.
  - destruct (dict_get (alert_rules self) "price_drop_alert"); reflexivity.
Qed.

(** X19: Whatever the rule set and the snapshot, a normal return holds at most
    two alerts: an optional [price_drop] followed by an optional
    [volatility_spike].  The [volume_anomaly] and [correlation_increase]
    rules of the default table are never evaluated. *)
Theorem at_most_two_alerts (self : RiskAlertSystem)
    (asset_data : AssetData) (portfolio_data : PortfolioData) (alerts : list alert) :
  check self asset_data portfolio_data = Ok alerts ->
  exists drop spike,
    alerts = drop ++ spike /\
    (drop = [] \/ drop = [drop_alert (calculate_price_change asset_data)]) /\
    (spike = [] \/ exists ratio, spike = [spike_alert ratio]) /\
    (List.length alerts <= 2)%nat /\
    forall a, In a alerts ->
      dict_get a "type" = Some (VStr "price_drop") \/
      dict_get a "type" = Some (VStr "volatility_spike").
Proof.
  unfold check, check_risk_alerts, subscript.
  destruct (dict_get (alert_rules self) "price_drop_alert") as [drop_rule|];
    [|discriminate].
  cbn [bind].
  destruct (dict_get (alert_rules self) "volatility_spike") as [spike_rule|];
    [|discriminate].
  cbn [bind app].
  set (drop := if Qleb _ _ then _ else _).
  assert (Hdrop : drop = [] \/ drop = [drop_alert (calculate_price_change asset_data)]).
  { unfold drop. destruct (Qleb _ _); [right | left]; reflexivity. }
  destruct (Qgtb _ _).
  - unfold div. destruct (Qeq_bool _ 0); cbn [bind]; [discriminate|].
    intro H. inversion H; subst. clear H.
    eexists. eexists. split; [reflexivity|]. split; [exact Hdrop|].
    split; [right; eexists; reflexivity|].
    destruct Hdrop as [->| ->]; cbn; (split; [lia|]); intros a Hin; intuition (subst; auto).
  - intro H. inversion H; subst. clear H.
    exists drop, []. split; [rewrite app_nil_r; reflexivity|].
    split; [exact Hdrop|]. split; [left; reflexivity|].
    destruct Hdrop as [->| ->]; cbn; (split; [lia|]); intros a Hin; intuition (subst; auto).
Qed.

End Evaluation.

(** *** Sample rule sets *)

(** A stricter desk: alerts from a 5% drop and from twice the baseline. *)
Definition strict_rules : RiskAlertSystem :=
  {| alert_rules :=
       [ ("price_drop_alert",
          {| threshold := -0.05; timeframe := Some "daily";
             baseline_window := None; priority := "low" |});
         ("volatility_spike",
          {| threshold := 2.0; timeframe := None;
             baseline_window := Some 20%nat; priority := "low" |}) ] |}.

Definition mild_drop : Snapshot :=
  {| day_return := -0.07; volatility_now := 0.3; volatility_baseline := 0.25 |}.

Lemma configured_thresholds_decide_witness :
  alert_emitted "price_drop" "high"
    (check_risk_alerts Snapshot unit day_return volatility_now
       (fun s _ => volatility_baseline s) strict_rules mild_drop tt).
Proof.
  destruct (configured_thresholds_decide Snapshot unit day_return volatility_now
              (fun s _ => volatility_baseline s) strict_rules
              {| threshold := -0.05; timeframe := Some "daily";
                 baseline_window := None; priority := "low" |}
              {| threshold := 2.0; timeframe := None;
                 baseline_window := Some 20%nat; priority := "low" |}
              mild_drop tt) as (Hdrop & _).
  - reflexivity.
  - reflexivity.
  - vm_compute. discriminate.
  - apply Hdrop. split; [vm_compute; discriminate | reflexivity].
Defined.

(** A rule set that only knows the price-drop rule. *)
Definition drop_only_rules : RiskAlertSystem :=
  {| alert_rules :=
       [ ("price_drop_alert",
          {| threshold := -0.15; timeframe := Some "daily";
             baseline_window := None; priority := "high" |}) ] |}.

Lemma missing_rule_raises_witness :
  check_risk_alerts Snapshot unit day_return volatility_now
    (fun s _ => volatility_baseline s) drop_only_rules sharp_drop tt = Raise KeyError.
Proof.
  apply (missing_rule_raises Snapshot unit day_return volatility_now
           (fun s _ => volatility_baseline s) drop_only_rules sharp_drop tt).
  reflexivity.
Defined.

Lemma at_most_two_alerts_witness :
  exists alerts,
    evaluate sharp_drop = Ok alerts /\ (List.length alerts <= 2)%nat.
Proof.
  eexists. split; [vm_compute; reflexivity|].
  destruct (at_most_two_alerts Snapshot unit day_return volatility_now
              (fun s _ => volatility_baseline s) init sharp_drop tt _
              ltac:(vm_compute; reflexivity)) as (_ & _ & _ & _ & _ & Hlen & _).
  exact Hlen.
Defined.

End AlertRules.

(** ** Cached endpoint: any schedule, overlapping calls, distinct symbols *)

Module Stampede.

Import Cache.

Section Endpoint.

Variable Result : Type.
Variable truthy : Result -> bool.
Variable find_all_opportunities : string -> nat -> Result.

Let step := analyze_opportunities_step Result truthy find_all_opportunities.
Let run := Cache.run Result truthy find_all_opportunities.

(** A call has started its analysis (or has returned). *)
Definition past_cache_check (c : call Result) : bool :=
  match c with
  | Called _ _ => false
  | GotCache _ _ _ => false
  | _ => true
  end.

Definition count_past_check (l : list (call Result)) : nat :=
  List.length (filter past_cache_check l).

Lemma set_nth_length {A} (l : list A) (i : nat) (x : A) :
  List.length (set_nth l i x) = List.length l.
Proof.
  revert i. induction l as [|y l IH]; intros [|i]; cbn; try reflexivity.
  rewrite IH. reflexivity.
Qed.

Lemma count_set_nth (l : list (call Result)) (i : nat) (c c' : call Result) :
  nth_error l i = Some c ->
  (count_past_check (set_nth l i c') + (if past_cache_check c then 1 else 0) =
   count_past_check l + (if past_cache_check c' then 1 else 0))%nat.
Proof.
  unfold count_past_check.
  revert i. induction l as [|y l IH]; intros [|i] H; cbn in H; try discriminate.
  - inversion H; subst. cbn [set_nth filter].
    destruct (past_cache_check c), (past_cache_check c'); cbn; lia.
  - cbn [set_nth filter]. specialize (IH i H).
    destruct (past_cache_check y); cbn [List.length]; lia.
Qed.

Lemma count_le_length (l : list (call Result)) :
  (count_past_check l <= List.length l)%nat.
Proof. unfold count_past_check. apply filter_length_le. Qed.

(** One step keeps the number of calls and never lets the computations
    overtake the calls that are past their cache check. *)
Lemma step_invariant (i : nat) (w : server Result) :
  (computations Result w <= count_past_check (calls Result w))%nat ->
  List.length (calls Result (step i w)) = List.length (calls Result w) /\
  (computations Result (step i w) <= count_past_check (calls Result (step i w)))%nat.
Proof.
  intro Hinv. unfold step, analyze_opportunities_step, start_analysis.
  destruct (nth_error (calls Result w) i) as [c|] eqn:E; [|split; [reflexivity | exact Hinv]].
  destruct c as [symbol|symbol [v|]|symbol k|symbol v|v];
    try (destruct (truthy v));
    cbn [calls computations]; rewrite ?set_nth_length;
    (split; [reflexivity|]);
    try exact Hinv;
    match goal with
    | |- context [set_nth _ _ ?c'] =>
        pose proof (count_set_nth _ _ _ c' E) as Hc; cbn [past_cache_check] in Hc; lia
    end.
Qed.

(** X20: Whatever the interleaving, the analysis runs at most once per call. *)
Theorem computations_bounded_by_calls (schedule : list nat) (symbols : list string) :
  (computations Result (run schedule (requests Result symbols))
   <= List.length symbols)%nat.
Proof.
  assert (Hgen : forall schedule w,
            (computations Result w <= count_past_check (calls Result w))%nat ->
            List.length (calls Result (run schedule w)) = List.length (calls Result w) /\
            (computations Result (run schedule w)
             <= count_past_check (calls Result (run schedule w)))%nat).
  { clear schedule. induction schedule as [|i schedule IH]; intros w Hinv.
    - split; [reflexivity | exact Hinv].
    - unfold run, Cache.run. cbn [fold_left].
      destruct (step_invariant i w Hinv) as [Hlen Hinv'].
      destruct (IH (step i w) Hinv') as [Hlen' Hinv''].
      unfold run, Cache.run, step in *. split; [congruence | exact Hinv'']. }
  destruct (Hgen schedule (requests Result symbols)) as [Hlen Hinv].
  - cbn. lia.
  - eapply Nat.le_trans; [exact Hinv|].
    eapply Nat.le_trans; [apply count_le_length|].
    rewrite Hlen. cbn. rewrite length_map. lia.
Qed.

(** *** Every call reads the cache before any call writes it *)

Lemma run_cons (i : nat) (schedule : list nat) (w : server Result) :
  run (i :: schedule) w = run schedule (step i w).
Proof. reflexivity. Qed.

Lemma shift_done (done : list (call Result)) (c : call Result)
    (rest : list (call Result)) :
  done ++ c :: rest = (done ++ [c]) ++ rest /\
  S (List.length done) = List.length (done ++ [c]).
Proof.
  split; [rewrite <- app_assoc; reflexivity | rewrite length_app; cbn; lia].
Qed.

Ltac resume_at done rest c :=
  match goal with
  | |- context [analyze_opportunities_step _ _ _ (List.length done) ?w] =>
      rewrite (step_middle Result truthy find_all_opportunities done rest c w eq_refl)
  end.

Ltac next_call done c rest :=
  destruct (shift_done done c rest) as [-> ->].

(** Phase 1: every pending call reads the cache. *)
Lemma sweep_reads (symbol : string) (cache0 : dict Result) (n m : nat)
    (done : list (call Result)) :
  run (seq (List.length done) m)
      {| cache := cache0; computations := n;
         calls := done ++ repeat (Called Result symbol) m |} =
  {| cache := cache0; computations := n;
     calls := done ++ repeat (GotCache Result symbol
                               (dict_get cache0 (cache_key symbol))) m |}.
Proof.
  revert done. induction m as [|m IH]; intro done; [reflexivity|].
  cbn [seq repeat]. rewrite run_cons. unfold step.
  resume_at done (repeat (Called Result symbol) m) (Called Result symbol).
  cbn [cache computations].
  next_call done (GotCache Result symbol (dict_get cache0 (cache_key symbol)))
            (repeat (Called Result symbol) m).
  rewrite IH.
  rewrite <- app_assoc. reflexivity.
Qed.

(** Phase 2: every call that found nothing starts its own analysis. *)
Lemma sweep_starts (symbol : string) (cache0 : dict Result) (m : nat) :
  forall (n : nat) (done : list (call Result)),
  run (seq (List.length done) m)
      {| cache := cache0; computations := n;
         calls := done ++ repeat (GotCache Result symbol None) m |} =
  {| cache := cache0; computations := (n + m)%nat;
     calls := done ++ map (Computing Result symbol) (seq n m) |}.
Proof.
  induction m as [|m IH]; intros n done.
  - cbn. rewrite Nat.add_0_r. reflexivity.
  - cbn [seq repeat map]. rewrite run_cons. unfold step.
    resume_at done (repeat (GotCache Result symbol None) m)
              (GotCache Result symbol None).
    cbn [is_truthy cache computations].
    next_call done (Computing Result symbol n) (repeat (GotCache Result symbol None) m).
    rewrite IH. rewrite <- app_assoc.
    replace (S n + m)%nat with (n + S m)%nat by lia. reflexivity.
Qed.

(** Phase 3: every analysis completes. *)
Lemma sweep_completes (symbol : string) (cache0 : dict Result) (total : nat)
    (ks : list nat) :
  forall done : list (call Result),
  run (seq (List.length done) (List.length ks))
      {| cache := cache0; computations := total;
         calls := done ++ map (Computing Result symbol) ks |} =
  {| cache := cache0; computations := total;
     calls := done ++ map (fun k => Computed Result symbol
                                      (find_all_opportunities symbol k)) ks |}.
Proof.
  induction ks as [|k ks IH]; intro done; [reflexivity|].
  cbn [List.length seq map]. rewrite run_cons. unfold step.
  resume_at done (map (Computing Result symbol) ks) (Computing Result symbol k).
  cbn [cache computations].
  next_call done (Computed Result symbol (find_all_opportunities symbol k))
            (map (Computing Result symbol) ks).
  rewrite IH. rewrite <- app_assoc. reflexivity.
Qed.

(** Phase 4: every call writes its result and returns it. *)
Lemma sweep_writes (symbol : string) (total : nat) (ks : list nat) :
  forall (cache0 : dict Result) (done : list (call Result)),
  exists cache1,
    run (seq (List.length done) (List.length ks))
        {| cache := cache0; computations := total;
           calls := done ++ map (fun k => Computed Result symbol
                                            (find_all_opportunities symbol k)) ks |} =
    {| cache := cache1; computations := total;
       calls := done ++ map (fun k => Returned Result
                                        (find_all_opportunities symbol k)) ks |}.
Proof.
  induction ks as [|k ks IH]; intros cache0 done.
  - exists cache0. reflexivity.
  - cbn [List.length seq map]. rewrite run_cons. unfold step.
    resume_at done
      (map (fun k => Computed Result symbol (find_all_opportunities symbol k)) ks)
      (Computed Result symbol (find_all_opportunities symbol k)).
    cbn [cache computations].
    next_call done (Returned Result (find_all_opportunities symbol k))
      (map (fun k => Computed Result symbol (find_all_opportunities symbol k)) ks).
    destruct (IH (dict_set cache0 (cache_key symbol) (find_all_opportunities symbol k))
                 (done ++ [Returned Result (find_all_opportunities symbol k)]))
      as (cache1 & ->).
    exists cache1. rewrite <- app_assoc. reflexivity.
Qed.

(** The four phases one after the other: all read, all start, all complete,
    all write. *)
Definition all_overlap (n : nat) : list nat :=
  seq 0 n ++ seq 0 n ++ seq 0 n ++ seq 0 n.

(** *** Calls that have all read an empty cache *)

(** The call is past its cache read and the read was a miss. *)
Definition read_missed (c : call Result) : bool :=
  match c with
  | Called _ _ => false
  | GotCache _ _ (Some _) => false
  | _ => true
  end.

Definition all_missed (w : server Result) : Prop :=
  Forall (fun c => read_missed c = true) (calls Result w).

(** Call [i] has started its analysis (or has returned). *)
Definition started (i : nat) (w : server Result) : Prop :=
  exists c, nth_error (calls Result w) i = Some c /\ past_cache_check c = true.

Lemma Forall_set_nth {A} (P : A -> Prop) (l : list A) (i : nat) (x : A) :
  Forall P l -> P x -> Forall P (set_nth l i x).
Proof.
  intros Hl Hx. revert i. induction Hl as [|y l Hy Hl IH]; intros [|i]; cbn.
  - constructor.
  - constructor.
  - constructor; assumption.
  - constructor; [exact Hy | apply IH].
Qed.

Lemma all_missed_at (i : nat) (c : call Result) (w : server Result) :
  all_missed w -> nth_error (calls Result w) i = Some c -> read_missed c = true.
Proof.
  intros Hall Hc. unfold all_missed in Hall. rewrite Forall_forall in Hall.
  apply Hall. eapply nth_error_In. exact Hc.
Qed.

(** While every call holds a missed read, each analysis that has executed
    belongs to a call that has started, and the other way round. *)
Lemma missed_step (base i : nat) (w : server Result) :
  all_missed w ->
  computations Result w = (base + count_past_check (calls Result w))%nat ->
  all_missed (step i w) /\
  computations Result (step i w) =
    (base + count_past_check (calls Result (step i w)))%nat /\
  List.length (calls Result (step i w)) = List.length (calls Result w).
Proof.
  intros Hall Hcount. unfold step, analyze_opportunities_step, start_analysis.
  destruct (nth_error (calls Result w) i) as [c|] eqn:E;
    [|split; [exact Hall | split; [exact Hcount | reflexivity]]].
  pose proof (all_missed_at i c w Hall E) as Hc.
  destruct c as [symbol|symbol [v|]|symbol k|symbol v|v];
    cbn [read_missed] in Hc; try discriminate;
    cbn [calls computations]; rewrite ?set_nth_length;
    try (split; [exact Hall | split; [exact Hcount | reflexivity]]);
    (split; [apply Forall_set_nth; [exact Hall | reflexivity]|]);
    (split; [|reflexivity]);
    match goal with
    | |- context [set_nth _ _ ?c'] =>
        pose proof (count_set_nth _ _ _ c' E) as Hs;
        cbn [past_cache_check] in Hs; lia
    end.
Qed.

(** Resuming a call that holds a missed read takes it past the cache
    check. *)
Lemma missed_step_starts (i : nat) (w : server Result) :
  all_missed w ->
  (i < List.length (calls Result w))%nat ->
  started i (step i w).
Proof.
  intros Hall Hi.
  destruct (nth_error (calls Result w) i) as [c|] eqn:E;
    [|apply nth_error_None in E; lia].
  pose proof (all_missed_at i c w Hall E) as Hc.
  unfold started, step, analyze_opportunities_step, start_analysis. rewrite E.
  destruct c as [symbol|symbol [v|]|symbol k|symbol v|v];
    cbn [read_missed] in Hc; try discriminate; cbn [calls];
    try (eexists; split; [apply (nth_error_set_nth_same _ _ _ _ E) | reflexivity]).
  exists (Returned Result v). split; [exact E | reflexivity].
Qed.

(** A call that has started stays started, whichever call is resumed. *)
Lemma started_step (i j : nat) (w : server Result) :
  started i w -> started i (step j w).
Proof.
  intros (c & Hc & Hpast). unfold started.
  destruct (Nat.eq_dec i j) as [<-|Hij].
  - unfold step, analyze_opportunities_step, start_analysis. rewrite Hc.
    destruct c as [symbol|symbol cached|symbol k|symbol v|v];
      cbn [past_cache_check] in Hpast; try discriminate; cbn [calls];
      try (eexists; split; [apply (nth_error_set_nth_same _ _ _ _ Hc) | reflexivity]).
    exists (Returned Result v). split; [exact Hc | reflexivity].
  - exists c. split; [|exact Hpast].
    unfold step. rewrite step_other_call by exact Hij. exact Hc.
Qed.

Lemma started_run (i : nat) (schedule : list nat) (w : server Result) :
  started i w -> started i (run schedule w).
Proof.
  revert w. induction schedule as [|j schedule IH]; intros w H; [exact H|].
  rewrite run_cons. apply IH, started_step, H.
Qed.

Lemma missed_run (base : nat) (schedule : list nat) (w : server Result) :
  all_missed w ->
  computations Result w = (base + count_past_check (calls Result w))%nat ->
  computations Result (run schedule w) =
    (base + count_past_check (calls Result (run schedule w)))%nat /\
  List.length (calls Result (run schedule w)) = List.length (calls Result w) /\
  (forall i, In i schedule -> (i < List.length (calls Result w))%nat ->
             started i (run schedule w)).
Proof.
  revert w. induction schedule as [|j schedule IH]; intros w Hall Hcount.
  - split; [exact Hcount|]. split; [reflexivity|]. intros i [].
  - rewrite run_cons.
    destruct (missed_step base j w Hall Hcount) as (Hall' & Hcount' & Hlen').
    destruct (IH (step j w) Hall' Hcount') as (Hc & Hl & Hs).
    split; [exact Hc|]. split; [congruence|].
    intros i [<-|Hin] Hi.
    + apply started_run, missed_step_starts; assumption.
    + apply Hs; [exact Hin | congruence].
Qed.

Lemma count_all_started (l : list (call Result)) :
  (forall i, (i < List.length l)%nat ->
             exists c, nth_error l i = Some c /\ past_cache_check c = true) ->
  count_past_check l = List.length l.
Proof.
  unfold count_past_check. induction l as [|y l IH]; intro H; [reflexivity|].
  destruct (H 0%nat) as (c & Hc & Hpast); [cbn; lia|].
  cbn in Hc. inversion Hc; subst c. cbn [filter]. rewrite Hpast.
  cbn [List.length]. f_equal. apply IH.
  intros i Hi. apply (H (S i)). cbn. lia.
Qed.

(** X21: A cache stampede.  Once [n] calls for one symbol have all read the
    empty cache, the analysis runs exactly [n] times in every continuation
    that resumes each of the calls at least once, whatever the interleaving.
    In the continuation where the calls start, complete and write in call
    order, the [k]-th call returns the result of the [k]-th run. *)
Theorem overlapping_calls_all_compute (symbol : string) (n : nat) :
  (forall schedule : list nat,
   (forall i, (i < n)%nat -> In i schedule) ->
   computations Result
     (run (seq 0 n ++ schedule) (requests Result (repeat symbol n))) = n) /\
  (let final := run (all_overlap n) (requests Result (repeat symbol n)) in
   computations Result final = n /\
   calls Result final =
     map (fun k => Returned Result (find_all_opportunities symbol k)) (seq 0 n)).
Proof.
  assert (Hm : map (Called Result) (repeat symbol n) = repeat (Called Result symbol) n).
  { clear. induction n as [|n IH]; cbn; [reflexivity | rewrite IH; reflexivity]. }
  pose proof (sweep_reads symbol [] 0 n []) as H1.
  unfold run in H1. cbn [List.length app dict_get] in H1.
  split.
  - intros schedule Hall.
    unfold run. rewrite (run_app Result truthy find_all_opportunities).
    unfold requests. rewrite Hm, H1.
    set (w := {| cache := []; computations := 0%nat;
                 calls := repeat (GotCache Result symbol None) n |}).
    assert (Hmissed : all_missed w).
    { unfold all_missed. cbn [calls w]. apply Forall_forall.
      intros c Hc. apply repeat_spec in Hc. subst c. reflexivity. }
    assert (Hcount : computations Result w =
                     (0 + count_past_check (calls Result w))%nat).
    { cbn [computations calls w]. clear.
      induction n as [|n IH]; [reflexivity | exact IH]. }
    destruct (missed_run 0 schedule w Hmissed Hcount) as (Hc & Hl & Hs).
    unfold run in Hc, Hl, Hs. rewrite Hc. cbn [Nat.add].
    rewrite count_all_started.
    + rewrite Hl. cbn [calls w]. apply repeat_length.
    + intros i Hi. rewrite Hl in Hi. cbn [calls w] in Hi.
      rewrite repeat_length in Hi.
      apply (Hs i (Hall i Hi)). cbn [calls w]. rewrite repeat_length. exact Hi.
  - cbv zeta. unfold all_overlap, run.
    rewrite !(run_app Result truthy find_all_opportunities).
    unfold requests. rewrite Hm, H1.
    pose proof (sweep_starts symbol [] n 0 []) as H2.
    unfold run in H2. cbn [List.length app Nat.add] in H2. rewrite H2.
    pose proof (sweep_completes symbol [] n (seq 0 n) []) as H3.
    unfold run in H3. rewrite length_seq in H3. cbn [List.length app] in H3. rewrite H3.
    destruct (sweep_writes symbol n (seq 0 n) [] []) as (cache1 & H4).
    unfold run in H4. rewrite length_seq in H4. cbn [List.length app] in H4. rewrite H4.
    cbn [computations calls]. split; reflexivity.
Qed.

(** *** Distinct symbols *)

Lemma cache_key_injective (a b : string) : cache_key a = cache_key b -> a = b.
Proof. unfold cache_key. cbn. intro H. inversion H. reflexivity. Qed.

(** X22: Requests for different symbols never share a cache entry: two calls
    for two symbols, one after the other, run two analyses, each call returns
    the analysis of its own symbol, and both results end up cached under
    their own keys. *)
Theorem distinct_symbols_do_not_share (a b : string) :
  a <> b ->
  let final := run (one_after_another 0 2) (requests Result [a; b]) in
  computations Result final = 2%nat /\
  calls Result final =
    [Returned Result (find_all_opportunities a 0);
     Returned Result (find_all_opportunities b 1)] /\
  dict_get (cache Result final) (cache_key a) = Some (find_all_opportunities a 0) /\
  dict_get (cache Result final) (cache_key b) = Some (find_all_opportunities b 1).
Proof.
  intros Hab final.
  assert (Hkey : String.eqb (cache_key a) (cache_key b) = false).
  { apply String.eqb_neq. intro H. apply Hab. apply cache_key_injective. exact H. }
  assert (Hfinal : final =
    {| cache := [(cache_key a, find_all_opportunities a 0);
                 (cache_key b, find_all_opportunities b 1)];
       computations := 2;
       calls := [Returned Result (find_all_opportunities a 0);
                 Returned Result (find_all_opportunities b 1)] |}).
  { subst final. unfold one_after_another. cbn [seq flat_map app].
    change [0; 0; 0; 0; 1; 1; 1; 1]%nat with ([0; 0; 0; 0] ++ [1; 1; 1; 1])%nat.
    unfold run. rewrite (run_app Result truthy find_all_opportunities).
    unfold requests. cbn [map].
    rewrite (first_call Result truthy find_all_opportunities a [Called Result b]).
    unfold Cache.run. cbn [fold_left].
    unfold analyze_opportunities_step at 4. cbn [calls nth_error set_nth cache computations].
    cbn [dict_get]. rewrite Hkey.
    unfold analyze_opportunities_step at 3. cbn [calls nth_error set_nth cache computations].
    unfold start_analysis. cbn [calls nth_error set_nth cache computations].
    unfold analyze_opportunities_step at 2. cbn [calls nth_error set_nth cache computations].
    unfold analyze_opportunities_step at 1. cbn [calls nth_error set_nth cache computations].
    cbn [dict_set]. rewrite Hkey. reflexivity. }
  rewrite Hfinal. cbn [computations calls cache dict_get].
  rewrite String.eqb_refl, Hkey, String.eqb_refl. repeat split.
Qed.

End Endpoint.

(** An analysis whose result names the symbol and the run. *)
Definition tagged_analysis (symbol : string) (k : nat) : list string :=
  [symbol; if Nat.eqb k 0 then "first run" else "later run"].

Lemma distinct_symbols_do_not_share_witness :
  "AAPL" <> "MSFT" /\
  calls (list string)
    (run (list string) nonempty tagged_analysis
         (one_after_another 0 2) (requests (list string) ["AAPL"; "MSFT"])) =
  [Returned (list string) ["AAPL"; "first run"];
   Returned (list string) ["MSFT"; "later run"]].
Proof.
  assert (Hne : "AAPL" <> "MSFT") by discriminate.
  split; [exact Hne|].
  destruct (distinct_symbols_do_not_share (list string) nonempty tagged_analysis
              "AAPL" "MSFT" Hne) as (_ & Hcalls & _).
  exact Hcalls.
Defined.

(** Two calls read the empty cache; the second then runs to its return
    before the first is resumed.  Both run the analysis. *)
Lemma overlapping_calls_all_compute_witness :
  (forall i, (i < 2)%nat -> In i [1; 1; 1; 0; 0; 0]%nat) /\
  computations (list string)
    (run (list string) nonempty tagged_analysis
         [0; 1; 1; 1; 1; 0; 0; 0]%nat
         (requests (list string) ["AAPL"; "AAPL"])) = 2%nat.
Proof.
  assert (Hall : forall i, (i < 2)%nat -> In i [1; 1; 1; 0; 0; 0]%nat).
  { intros i Hi. destruct i as [|[|i]];
      [do 3 right; left; reflexivity | left; reflexivity | lia]. }
  split; [exact Hall|].
  destruct (overlapping_calls_all_compute (list string) nonempty tagged_analysis
              "AAPL" 2) as (Hany & _).
  exact (Hany [1; 1; 1; 0; 0; 0]%nat Hall).
Defined.

End Stampede.

(** ** Market data service: cached quotes with fallback sources *)

Module MarketData.

(** One call of [get_real_time_price], run to completion.  The body of the
    [try] can raise in three places, and each sends the loop on to the next
    source: [get_quote] (a source that raises is modelled by [None]),
    [json.dumps] and the Redis write.  The cache read that opens the
    function is taken to answer.  Entries are written with their expiry in
    seconds, and the expiry itself is not modelled. *)

Section Service.

Variable Quote : Type.
Variable json_dumps : Quote -> string.
(** [json.loads] raises on text that is not JSON. *)
Variable json_loads : string -> option Quote.
(** [json.dumps] raises on a quote it cannot serialise. *)
Variable json_dumps_raises : Quote -> bool.
(** [setex] raises while the answer of the named source is being cached
    (the Redis server is unreachable or refuses the write at that moment). *)
Variable setex_raises : string -> bool.

Definition client : Type := string -> option Quote.

(** Redis entries: expiry in seconds and the stored text. *)
Definition redis : Type := dict (nat * string).

Record MarketDataService : Type := mkMarketDataService {
  redis_client : redis;
  data_sources : dict client
}.

(** [__init__]: an empty cache view and the three sources, in this order. *)
Definition init (cache : redis) (yahoo alpha polygon : client) : MarketDataService :=
  {| redis_client := cache;
     data_sources := [("yahoo_finance", yahoo);
                      ("alpha_vantage", alpha);
                      ("polygon", polygon)] |}.

Inductive outcome : Type :=
| Returns (data : Quote)
| HTTPException (status_code : nat) (detail : string)
| JSONDecodeError.

(** What a call leaves behind: its outcome, the cache, and the names of the
    sources it queried, in order. *)
Record completed : Type := mkCompleted {
  answer : outcome;
  cache_after : redis;
  queried : list string
}.

Definition price_key (symbol : string) : string := "price:" ++ symbol.

Definition redis_get (r : redis) (key : string) : option string :=
  option_map snd (dict_get r key).

Definition redis_setex (r : redis) (key : string) (seconds : nat) (text : string)
  : redis :=
  dict_set r key (seconds, text).

(** Truth value of what [redis.get] answers: [None] and the empty text are
    falsy. *)
Definition cached_truthy (cached_data : option string) : bool :=
  match cached_data with
  | Some text => negb (String.eqb text EmptyString)
  | None => false
  end.

(** The [for source_name, source_client in self.data_sources.items()] loop
    with its [try]/[except]/[continue]: an exception from [get_quote], from
    [json.dumps] or from [setex] moves on to the next source, and a cache
    write that raised has stored nothing. *)
Fixpoint try_sources (sources : list (string * client)) (symbol : string)
    (r : redis) (asked : list string) : completed :=
  match sources with
  | [] =>
      {| answer := HTTPException 404 ("Data not found for " ++ symbol);
         cache_after := r;
         queried := asked |}
  | (source_name, source_client) :: rest =>
      match source_client symbol with
      | Some data =>
          if json_dumps_raises data then
            try_sources rest symbol r (asked ++ [source_name])
          else if setex_raises source_name then
            try_sources rest symbol r (asked ++ [source_name])
          else
            {| answer := Returns data;
               cache_after := redis_setex r (price_key symbol) 30 (json_dumps data);
               queried := asked ++ [source_name] |}
      | None => try_sources rest symbol r (asked ++ [source_name])
      end
  end.

(** The body of the [try] raises for this source: at [get_quote], at
    [json.dumps] or at the cache write. *)
Definition try_raises (source_name : string) (source_client : client)
    (symbol : string) : bool :=
  match source_client symbol with
  | Some data => json_dumps_raises data || setex_raises source_name
  | None => true
  end.

Definition get_real_time_price (self : MarketDataService) (symbol : string)
  : completed :=
  let cached_data := redis_get (redis_client self) (price_key symbol) in
  if cached_truthy cached_data then
    match cached_data with
    | Some text =>
        match json_loads text with
        | Some data =>
            {| answer := Returns data; cache_after := redis_client self; queried := [] |}
        | None =>
            {| answer := JSONDecodeError; cache_after := redis_client self; queried := [] |}
        end
    | None =>
        {| answer := JSONDecodeError; cache_after := redis_client self; queried := [] |}
    end
  else try_sources (data_sources self) symbol (redis_client self) [].

(** The service as the next call finds it. *)
Definition after (self : MarketDataService) (c : completed) : MarketDataService :=
  {| redis_client := cache_after c; data_sources := data_sources self |}.

(** *** Properties *)

Lemma dict_get_set_same {V} (d : dict V) (k : string) (v : V) :
  dict_get (dict_set d k v) k = Some v.
Proof.
  induction d as [|[k' v'] d IH]; cbn [dict_set dict_get].
  - rewrite String.eqb_refl. reflexivity.
  - destruct (String.eqb k' k) eqn:E; cbn [dict_get]; rewrite E;
      [reflexivity | exact IH].
Qed.

(** One turn of the loop whose [try] body raises. *)
Lemma try_sources_skip (source_name : string) (source_client : client)
    (rest : list (string * client)) (symbol : string) (r : redis)
    (asked : list string) :
  try_raises source_name source_client symbol = true ->
  try_sources ((source_name, source_client) :: rest) symbol r asked =
  try_sources rest symbol r (asked ++ [source_name]).
Proof.
  unfold try_raises. intro H. cbn [try_sources].
  destruct (source_client symbol) as [data|]; [|reflexivity].
  destruct (json_dumps_raises data); [reflexivity|].
  cbn [orb] in H. rewrite H. reflexivity.
Qed.

Lemma get_quote_raises (source_name : string) (source_client : client)
    (symbol : string) :
  source_client symbol = None -> try_raises source_name source_client symbol = true.
Proof. unfold try_raises. intros ->. reflexivity. Qed.

Lemma try_sources_fallback (failed rest : list (string * client))
    (source_name : string) (source_client : client) (data : Quote)
    (symbol : string) (r : redis) (asked : list string) :
  (forall n c, In (n, c) failed -> try_raises n c symbol = true) ->
  source_client symbol = Some data ->
  json_dumps_raises data = false ->
  setex_raises source_name = false ->
  try_sources (failed ++ (source_name, source_client) :: rest) symbol r asked =
  {| answer := Returns data;
     cache_after := redis_setex r (price_key symbol) 30 (json_dumps data);
     queried := asked ++ map fst failed ++ [source_name] |}.
Proof.
  revert asked.
  induction failed as [|[n c] failed IH]; intros asked Hfail Hok Hdumps Hsetex.
  - cbn. rewrite Hok, Hdumps, Hsetex. reflexivity.
  - cbn [app map fst].
    rewrite try_sources_skip by (apply Hfail; left; reflexivity).
    rewrite IH; try assumption;
      [|intros n' c' Hin; apply (Hfail n' c'); right; exact Hin].
    rewrite <- app_assoc. reflexivity.
Qed.

Lemma try_sources_all_fail (sources : list (string * client)) (symbol : string)
    (r : redis) (asked : list string) :
  (forall n c, In (n, c) sources -> try_raises n c symbol = true) ->
  try_sources sources symbol r asked =
  {| answer := HTTPException 404 ("Data not found for " ++ symbol);
     cache_after := r;
     queried := asked ++ map fst sources |}.
Proof.
  revert asked. induction sources as [|[n c] sources IH]; intros asked Hfail.
  - cbn. rewrite app_nil_r. reflexivity.
  - cbn [map fst].
    rewrite try_sources_skip by (apply Hfail; left; reflexivity).
    rewrite IH; [|intros n' c' Hin; apply (Hfail n' c'); right; exact Hin].
    rewrite <- app_assoc. reflexivity.
Qed.

(** X23: A non-empty cached text that parses is returned as it is: no source is
    queried and the cache is left untouched. *)
Theorem cache_hit_asks_no_source (self : MarketDataService) (symbol text : string)
    (seconds : nat) (data : Quote) :
  dict_get (redis_client self) (price_key symbol) = Some (seconds, text) ->
  text <> EmptyString ->
  json_loads text = Some data ->
  get_real_time_price self symbol =
  {| answer := Returns data; cache_after := redis_client self; queried := [] |}.
Proof.
  intros Hget Hne Hload. unfold get_real_time_price, redis_get.
  rewrite Hget. cbn [option_map snd cached_truthy].
  destruct (String.eqb_spec text EmptyString); [contradiction|]. cbn [negb].
  rewrite Hload. reflexivity.
Qed.

(** X24: On a cache miss the sources are asked in their order.  A source is
    passed over when its [try] body raises, whether at [get_quote], at
    [json.dumps] or at the cache write.  The first source that answers and
    whose answer is serialised and cached decides the result: the sources
    after it are not asked, and the answer is cached under the symbol's key
    for 30 seconds. *)
Theorem first_answering_source_wins (self : MarketDataService) (symbol : string)
    (failed rest : list (string * client))
    (source_name : string) (source_client : client) (data : Quote) :
  cached_truthy (redis_get (redis_client self) (price_key symbol)) = false ->
  data_sources self = failed ++ (source_name, source_client) :: rest ->
  (forall n c, In (n, c) failed -> try_raises n c symbol = true) ->
  source_client symbol = Some data ->
  json_dumps_raises data = false ->
  setex_raises source_name = false ->
  let c := get_real_time_price self symbol in
  answer c = Returns data /\
  queried c = map fst failed ++ [source_name] /\
  dict_get (cache_after c) (price_key symbol) = Some (30%nat, json_dumps data).
Proof.
  intros Hmiss Hsrc Hfail Hok Hdumps Hsetex. cbv zeta. unfold get_real_time_price.
  rewrite Hmiss, Hsrc, (try_sources_fallback failed rest _ _ data); try assumption.
  cbn [answer queried cache_after app]. repeat split.
  apply dict_get_set_same.
Qed.

(** X25: When every source fails the call raises [HTTPException] with status
    404 after asking all of them in order, and the cache is unchanged. *)
Theorem all_sources_failing_is_404 (self : MarketDataService) (symbol : string) :
  cached_truthy (redis_get (redis_client self) (price_key symbol)) = false ->
  (forall n c, In (n, c) (data_sources self) -> c symbol = None) ->
  get_real_time_price self symbol =
  {| answer := HTTPException 404 ("Data not found for " ++ symbol);
     cache_after := redis_client self;
     queried := map fst (data_sources self) |}.
Proof.
  intros Hmiss Hfail. unfold get_real_time_price. rewrite Hmiss.
  rewrite try_sources_all_fail; [reflexivity|].
  intros n c Hin. apply get_quote_raises, (Hfail n c Hin).
Qed.

(** X26: Round trip through the cache: once a call has fetched a quote, the next
    call returns the same quote from the cache without asking any source,
    provided the quote survives [json.dumps]/[json.loads]. *)
Theorem second_call_served_from_cache (self : MarketDataService) (symbol : string)
    (data : Quote) :
  let first := get_real_time_price self symbol in
  cached_truthy (redis_get (redis_client self) (price_key symbol)) = false ->
  answer first = Returns data ->
  json_loads (json_dumps data) = Some data ->
  json_dumps data <> EmptyString ->
  let second := get_real_time_price (after self first) symbol in
  answer second = Returns data /\ queried second = [] /\
  cache_after second = cache_after first.
Proof.
  intros first Hmiss Hans Hround Hne second.
  assert (Hcached : dict_get (cache_after first) (price_key symbol)
                    = Some (30%nat, json_dumps data)).
  { subst first. unfold get_real_time_price in *. rewrite Hmiss in *.
    clear Hmiss second.
    generalize dependent (@nil string).
    induction (data_sources self) as [|[n c] sources IH]; intros asked Hans.
    - cbn in Hans. discriminate.
    - cbn [try_sources] in *. destruct (c symbol) as [d|] eqn:E.
      + destruct (json_dumps_raises d); [apply (IH _ Hans)|].
        destruct (setex_raises n); [apply (IH _ Hans)|].
        cbn [answer] in Hans. inversion Hans; subst d. cbn [cache_after].
        apply dict_get_set_same.
      + apply (IH _ Hans). }
  subst second.
  rewrite (cache_hit_asks_no_source (after self first) symbol (json_dumps data)
             30 data Hcached Hne Hround).
  cbn. repeat split.
Qed.

End Service.

(** *** Sample service *)

Definition down : client (Q * Q) := fun _ => None.
Definition quoting (bid ask : Q) : client (Q * Q) := fun _ => Some (bid, ask).

(** A toy JSON: the text is non-empty and parses back to one known quote. *)
Definition toy_dumps (_ : Q * Q) : string := "{bid: 189.9, ask: 190.1}".
Definition toy_loads (text : string) : option (Q * Q) :=
  if String.eqb text EmptyString then None else Some (189.9, 190.1).

(** Every quote serialises; the Redis write is either always accepted, or
    refused while the answer of the first source is being cached. *)
Definition serialisable (_ : Q * Q) : bool := false.
Definition redis_up (_ : string) : bool := false.
Definition redis_down_at_first (source_name : string) : bool :=
  String.eqb source_name "yahoo_finance".

Definition cold_service : MarketDataService (Q * Q) :=
  init (Q * Q) [] down (quoting 189.9 190.1) (quoting 1 2).

(** The first source answers, but its answer cannot be cached. *)
Definition flaky_cache_service : MarketDataService (Q * Q) :=
  init (Q * Q) [] (quoting 7 8) (quoting 189.9 190.1) (quoting 1 2).

Lemma first_answering_source_wins_witness :
  (let c := get_real_time_price (Q * Q) toy_dumps toy_loads serialisable redis_up
              cold_service "AAPL" in
   answer (Q * Q) c = Returns (Q * Q) (189.9, 190.1) /\
   queried (Q * Q) c = ["yahoo_finance"; "alpha_vantage"]) /\
  (let c := get_real_time_price (Q * Q) toy_dumps toy_loads serialisable
              redis_down_at_first flaky_cache_service "AAPL" in
   answer (Q * Q) c = Returns (Q * Q) (189.9, 190.1) /\
   queried (Q * Q) c = ["yahoo_finance"; "alpha_vantage"]).
Proof.
  cbv zeta. split.
  - destruct (first_answering_source_wins (Q * Q) toy_dumps toy_loads serialisable
                redis_up cold_service "AAPL"
                [("yahoo_finance", down)] [("polygon", quoting 1 2)]
                "alpha_vantage" (quoting 189.9 190.1) (189.9, 190.1))
      as (Ha & Hq & _).
    + reflexivity.
    + reflexivity.
    + intros n c [E|[]]. inversion E; subst. reflexivity.
    + reflexivity.
    + reflexivity.
    + reflexivity.
    + split; [exact Ha | exact Hq].
  - destruct (first_answering_source_wins (Q * Q) toy_dumps toy_loads serialisable
                redis_down_at_first flaky_cache_service "AAPL"
                [("yahoo_finance", quoting 7 8)] [("polygon", quoting 1 2)]
                "alpha_vantage" (quoting 189.9 190.1) (189.9, 190.1))
      as (Ha & Hq & _).
    + reflexivity.
    + reflexivity.
    + intros n c [E|[]]. inversion E; subst. reflexivity.
    + reflexivity.
    + reflexivity.
    + reflexivity.
    + split; [exact Ha | exact Hq].
Defined.

Definition warm_service : MarketDataService (Q * Q) :=
  init (Q * Q) [("price:AAPL", (30%nat, "{bid: 189.9, ask: 190.1}"))]
       down down down.

Lemma cache_hit_asks_no_source_witness :
  queried (Q * Q)
    (get_real_time_price (Q * Q) toy_dumps toy_loads serialisable redis_up
       warm_service "AAPL")
  = [].
Proof.
  rewrite (cache_hit_asks_no_source (Q * Q) toy_dumps toy_loads serialisable redis_up
             warm_service "AAPL" "{bid: 189.9, ask: 190.1}" 30 (189.9, 190.1)).
  - reflexivity.
  - reflexivity.
  - discriminate.
  - reflexivity.
Defined.

Definition dark_service : MarketDataService (Q * Q) :=
  init (Q * Q) [] down down down.

Lemma all_sources_failing_is_404_witness :
  answer (Q * Q)
    (get_real_time_price (Q * Q) toy_dumps toy_loads serialisable redis_up
       dark_service "AAPL")
  = HTTPException (Q * Q) 404 "Data not found for AAPL".
Proof.
  rewrite (all_sources_failing_is_404 (Q * Q) toy_dumps toy_loads serialisable
             redis_up dark_service "AAPL").
  - reflexivity.
  - reflexivity.
  - intros n c Hin. cbn in Hin.
    destruct Hin as [E|[E|[E|[]]]]; inversion E; subst; reflexivity.
Defined.

Lemma second_call_served_from_cache_witness :
  let first :=
    get_real_time_price (Q * Q) toy_dumps toy_loads serialisable redis_up
      cold_service "AAPL" in
  let second :=
    get_real_time_price (Q * Q) toy_dumps toy_loads serialisable redis_up
      (after (Q * Q) cold_service first) "AAPL" in
  answer (Q * Q) second = Returns (Q * Q) (189.9, 190.1) /\
  queried (Q * Q) second = [].
Proof.
  cbv zeta.
  destruct (second_call_served_from_cache (Q * Q) toy_dumps toy_loads serialisable
              redis_up cold_service "AAPL" (189.9, 190.1)) as (Ha & Hq & _).
  - reflexivity.
  - reflexivity.
  - reflexivity.
  - discriminate.
  - split; [exact Ha | exact Hq].
Defined.

End MarketData.

(** ** Frontend state: the assets slice and [fetchAssets] *)

Module FrontendState.

Import Frontend.

(** *** [updateRealTimePrice] (assets slice) *)

(** Multiplying a JavaScript number by a positive constant. *)
Definition js_scale (n : number) (k : Q) : number :=
  match n with
  | Num q => Num (q * k)
  | other => other
  end.

Section AssetsSlice.

Variable TechnicalIndicators : Type.

Record SliceAsset : Type := mkSliceAsset {
  slice_symbol : string;
  slice_name : string;
  currentPrice : Q;
  price_change : Q;
  changePercent_of : number;
  indicators : TechnicalIndicators;
  lastUpdate : string
}.

Record Payload : Type := mkPayload {
  payload_symbol : string;
  payload_price : Q;
  payload_change : Q
}.

(** The assignments made to the asset that [find] returns; [now] is the
    text of [new Date().toISOString()]. *)
Definition reprice (now : string) (price change : Q) (asset : SliceAsset) : SliceAsset :=
  {| slice_symbol := slice_symbol asset;
     slice_name := slice_name asset;
     currentPrice := price;
     price_change := change;
     changePercent_of := js_scale (js_div change (price - change)) 100;
     indicators := indicators asset;
     lastUpdate := now |}.

(** [state.assets.find(a => a.symbol === symbol)] followed by the update in
    place of the asset found. *)
Fixpoint updateRealTimePrice (now : string) (assets : list SliceAsset)
    (action : Payload) : list SliceAsset :=
  match assets with
  | [] => []
  | a :: rest =>
      if String.eqb (slice_symbol a) (payload_symbol action)
      then reprice now (payload_price action) (payload_change action) a :: rest
      else a :: updateRealTimePrice now rest action
  end.

(** X27: A tick for a symbol that is not tracked changes nothing; a tick for a
    tracked symbol changes the first asset carrying it and nothing else: the
    assets before and after it, the number of assets and every symbol stay
    as they were. *)
Theorem tick_updates_first_match_only (now : string) (assets : list SliceAsset)
    (action : Payload) :
  (~ In (payload_symbol action) (map slice_symbol assets) ->
   updateRealTimePrice now assets action = assets) /\
  (In (payload_symbol action) (map slice_symbol assets) ->
   exists before a after,
     assets = before ++ a :: after /\
     slice_symbol a = payload_symbol action /\
     ~ In (payload_symbol action) (map slice_symbol before) /\
     updateRealTimePrice now assets action =
       before ++ reprice now (payload_price action) (payload_change action) a :: after) /\
  map slice_symbol (updateRealTimePrice now assets action) = map slice_symbol assets.
Proof.
  induction assets as [|a rest IH].
  - cbn. split; [reflexivity|]. split; [intros []|reflexivity].
  - destruct IH as (IHno & IHyes & IHsym).
    cbn [updateRealTimePrice map].
    destruct (String.eqb_spec (slice_symbol a) (payload_symbol action)) as [E|E].
    + split; [|split].
      * intro H. exfalso. apply H. left. exact E.
      * intros _. exists [], a, rest. cbn. repeat split; [exact E | tauto].
      * reflexivity.
    + split; [|split].
      * intro H. f_equal. apply IHno. intro Hin. apply H. right. exact Hin.
      * intros [Hhd|Hin]; [contradiction|].
        destruct (IHyes Hin) as (before & a' & after & -> & Hs & Hnot & Hupd).
        exists (a :: before), a', after. cbn [app map]. repeat split.
        -- exact Hs.
        -- intros [H|H]; [contradiction | exact (Hnot H)].
        -- rewrite Hupd. reflexivity.
      * cbn [map]. rewrite IHsym. reflexivity.
Qed.

(** X28: The stored percentage is the change relative to the previous price
    [price - change]: finite and equal to change / previous * 100 when the
    previous price is not zero; when it is zero no error is raised and a
    non-finite number (NaN for a zero change) is stored. *)
Theorem tick_percentage (now : string) (price change : Q) (asset : SliceAsset) :
  let updated := reprice now price change asset in
  (~ price - change == 0 ->
   exists p, changePercent_of updated = Num p /\
             p * (price - change) == change * 100) /\
  (price - change == 0 ->
   is_finite (changePercent_of updated) = false /\
   (change == 0 -> changePercent_of updated = NaN)).
Proof.
  cbv zeta. cbn [reprice changePercent_of]. split.
  - intro Hprev. rewrite (js_div_nonzero _ _ Hprev). cbn [js_scale].
    eexists. split; [reflexivity|]. field. exact Hprev.
  - intro Hprev. unfold js_div. rewrite (Qeq_eq_bool _ _ Hprev).
    split.
    + destruct (Qeq_bool change 0); [reflexivity|].
      destruct (Qltb 0 change); reflexivity.
    + intro Hc. rewrite (Qeq_eq_bool _ _ Hc). reflexivity.
Qed.

End AssetsSlice.

(** *** [fetchAssets] (App.tsx) *)

Record ApiResponse : Type := mkApiResponse {
  success : bool;
  response_assets : list Asset;
  count : Q
}.

(** How the request ends: [fetch] or [response.json()] throws, or a
    response body arrives. *)
Inductive fetched : Type :=
| Threw
| Arrived (data : ApiResponse).

(** What [message.success] / [message.error] show. *)
Inductive toast : Type :=
| SuccessToast (template : string) (count : Q)
| ErrorToast (text : string).

Record AppState : Type := mkAppState {
  assets : list Asset;
  loading : bool;
  toasts : list toast
}.

(** Up to the first [await]: [setLoading(true)]. *)
Definition fetchAssets_start (st : AppState) : AppState :=
  {| assets := assets st; loading := true; toasts := toasts st |}.

(** From the answer to the end of the [finally] block. *)
Definition fetchAssets_finish (outcome : fetched) (st : AppState) : AppState :=
  let st :=
    match outcome with
    | Arrived data =>
        if success data then
          {| assets := response_assets data;
             loading := loading st;
             toasts := toasts st ++ [SuccessToast "成功加载 {} 只股票！" (count data)] |}
        else
          {| assets := assets st;
             loading := loading st;
             toasts := toasts st ++ [ErrorToast "数据加载失败"] |}
    | Threw =>
        {| assets := assets st;
           loading := loading st;
           toasts := toasts st ++ [ErrorToast "加载数据失败，请检查后端服务是否启动"] |}
    end in
  {| assets := assets st; loading := false; toasts := toasts st |}.

Definition fetchAssets (outcome : fetched) (st : AppState) : AppState :=
  fetchAssets_finish outcome (fetchAssets_start st).

(** X29: However the request ends, the spinner is switched off and exactly one
    toast is shown; the table is replaced only by a response that says
    [success], so a failed refresh keeps the assets (and with them the
    portfolio statistics) that were on screen. *)
Theorem refresh_outcomes (outcome : fetched) (st : AppState) :
  let st' := fetchAssets outcome st in
  loading (fetchAssets_start st) = true /\
  loading st' = false /\
  List.length (toasts st') = S (List.length (toasts st)) /\
  (forall data, outcome = Arrived data -> success data = true ->
     assets st' = response_assets data) /\
  ((outcome = Threw \/ exists data, outcome = Arrived data /\ success data = false) ->
     assets st' = assets st /\
     calculatePortfolioStats (assets st') = calculatePortfolioStats (assets st)).
Proof.
  cbv zeta. unfold fetchAssets, fetchAssets_finish, fetchAssets_start.
  split; [reflexivity|].
  destruct outcome as [|data]; [|destruct (success data) eqn:E];
    cbn [assets loading toasts]; (split; [reflexivity|]);
    (split; [rewrite length_app; cbn; lia|]); split.
  - intros data H. discriminate.
  - intros _. split; reflexivity.
  - intros d H _. inversion H; subst. reflexivity.
  - intros [H|(d & H & Hs)]; [discriminate|]. inversion H; subst. congruence.
  - intros d H Hs. inversion H; subst. congruence.
  - intros _. split; reflexivity.
Qed.

(** *** Sample states *)

Definition sample_slice : list (SliceAsset unit) :=
  [ {| slice_symbol := "AAPL"; slice_name := "Apple Inc."; currentPrice := 190;
       price_change := 2; changePercent_of := Num 1.06; indicators := tt;
       lastUpdate := "2024-01-02T15:00:00.000Z" |};
    {| slice_symbol := "MSFT"; slice_name := "Microsoft"; currentPrice := 410;
       price_change := -4; changePercent_of := Num (-0.96); indicators := tt;
       lastUpdate := "2024-01-02T15:00:00.000Z" |} ].

Lemma tick_updates_first_match_only_witness :
  updateRealTimePrice unit "2024-01-02T15:00:05.000Z" sample_slice
    {| payload_symbol := "TSLA"; payload_price := 250; payload_change := 5 |}
  = sample_slice.
Proof.
  apply (tick_updates_first_match_only unit "2024-01-02T15:00:05.000Z" sample_slice
           {| payload_symbol := "TSLA"; payload_price := 250; payload_change := 5 |}).
  cbn. intuition discriminate.
Defined.

Lemma tick_percentage_witness :
  exists p,
    changePercent_of unit
      (reprice unit "2024-01-02T15:00:05.000Z" 210 10
         (mkSliceAsset unit "AAPL" "Apple Inc." 200 0 (Num 0) tt "2024-01-02T15:00:00.000Z"))
    = Num p /\ p == 5.
Proof.
  destruct (tick_percentage unit "2024-01-02T15:00:05.000Z" 210 10
              (mkSliceAsset unit "AAPL" "Apple Inc." 200 0 (Num 0) tt
                 "2024-01-02T15:00:00.000Z")) as (Hfin & _).
  destruct Hfin as (p & Hp & Hrel); [vm_compute; discriminate|].
  exists p. split; [exact Hp|].
  assert (H200 : p * 200 == 1000) by (rewrite <- Hrel; ring).
  lra.
Defined.

Definition showing_two : AppState :=
  {| assets := two_assets; loading := false; toasts := [] |}.

Lemma refresh_outcomes_witness :
  assets (fetchAssets Threw showing_two) = two_assets /\
  loading (fetchAssets Threw showing_two) = false.
Proof.
  destruct (refresh_outcomes Threw showing_two) as (_ & Hload & _ & _ & Hkeep).
  split; [|exact Hload].
  destruct Hkeep as [Hassets _]; [left; reflexivity|]. exact Hassets.
Defined.

End FrontendState.
